(** * YPrompt save dialog: title extraction, conversation validation, tags

    A shallow embedding of the script block of the prompt-save dialog
    (the Vue single-file component holding [extractTitleFromContent],
    [validateConversationJson], [formatConversationJson], [addTag] and
    [removeTag]) together with the small part of the ECMAScript runtime
    these functions call: strings of UTF-16 code units, [trim],
    backtracking regular expressions, [JSON.parse], and completions
    (normal return or thrown exception). *)

From Stdlib Require Import String Ascii DecimalString.
From Stdlib Require Import List NArith ZArith Lia Bool.
Import ListNotations.

Set Warnings "-register-all".

(** ** ECMAScript strings *)

(** A string value is a finite sequence of UTF-16 code units. *)
Definition jstr := list N.

(** Source literals are written here as UTF-8 text; [utf16_of_utf8] turns
    the bytes of such a literal into the code units the engine holds
    (a code point above U+FFFF becomes a surrogate pair). *)
Fixpoint utf16_of_utf8 (bs : list N) : jstr :=
  match bs with
  | [] => []
  | b0 :: t =>
      if (b0 <? 0x80)%N then b0 :: utf16_of_utf8 t
      else if (b0 <? 0xE0)%N then
        match t with
        | b1 :: t' => ((b0 mod 32) * 64 + b1 mod 64)%N :: utf16_of_utf8 t'
        | _ => []
        end
      else if (b0 <? 0xF0)%N then
        match t with
        | b1 :: b2 :: t' =>
            ((b0 mod 16) * 4096 + (b1 mod 64) * 64 + b2 mod 64)%N :: utf16_of_utf8 t'
        | _ => []
        end
      else
        match t with
        | b1 :: b2 :: b3 :: t' =>
            let cp := ((b0 mod 8) * 262144 + (b1 mod 64) * 4096
                       + (b2 mod 64) * 64 + b3 mod 64 - 0x10000)%N in
            (0xD800 + cp / 1024)%N :: (0xDC00 + cp mod 1024)%N :: utf16_of_utf8 t'
        | _ => []
        end
  end.

Definition lit (s : string) : jstr :=
  utf16_of_utf8 (map N_of_ascii (list_ascii_of_string s)).

Definition chr (a : ascii) : N := N_of_ascii a.

Fixpoint jstr_eqb (a b : jstr) : bool :=
  match a, b with
  | [], [] => true
  | x :: a', y :: b' => N.eqb x y && jstr_eqb a' b'
  | _, _ => false
  end.

(** ToBoolean on a string: the empty string is the only falsy one. *)
Definition truthy_str (s : jstr) : bool :=
  match s with [] => false | _ :: _ => true end.

(** WhiteSpace and LineTerminator code points: what [trim] removes and what
    the pattern escape [\s] matches. *)
Definition is_white_space (c : N) : bool :=
  ((9 <=? c) && (c <=? 13) || (c =? 32) || (c =? 0xA0) || (c =? 0x1680)
   || (0x2000 <=? c) && (c <=? 0x200A)
   || (c =? 0x2028) || (c =? 0x2029) || (c =? 0x202F) || (c =? 0x205F)
   || (c =? 0x3000) || (c =? 0xFEFF))%N.

(** LineTerminator code points: what the pattern [.] does not match. *)
Definition is_line_terminator (c : N) : bool :=
  ((c =? 10) || (c =? 13) || (c =? 0x2028) || (c =? 0x2029))%N.

Definition is_digit (c : N) : bool := ((48 <=? c) && (c <=? 57))%N.

(** The pattern escape [\w]: letters, digits and the underscore. *)
Definition is_word (c : N) : bool :=
  ((65 <=? c) && (c <=? 90) || (97 <=? c) && (c <=? 122)
   || is_digit c || (c =? 95))%N.

Fixpoint trimStart (s : jstr) : jstr :=
  match s with
  | [] => []
  | c :: t => if is_white_space c then trimStart t else s
  end.

Fixpoint trimEnd (s : jstr) : jstr :=
  match s with
  | [] => []
  | c :: t =>
      match trimEnd t with
      | [] => if is_white_space c then [] else [c]
      | t' => c :: t'
      end
  end.

(** [String.prototype.trim]. *)
Definition trim (s : jstr) : jstr := trimEnd (trimStart s).

(** A string made of white space only (the empty string included). *)
Definition blank (s : jstr) : bool := forallb is_white_space s.

(** [s.startsWith(p)]. *)
Fixpoint startsWith (p s : jstr) : bool :=
  match p, s with
  | [], _ => true
  | x :: p', y :: s' => N.eqb x y && startsWith p' s'
  | _ :: _, [] => false
  end.

(** [s.substring(n)] and [s.substring(0, n)] for a constant [n >= 0]. *)
Definition substring_from (n : nat) (s : jstr) : jstr := skipn n s.
Definition substring_to (n : nat) (s : jstr) : jstr := firstn n s.

(** [s.split(sep)] for a separator of one code unit: never the empty list. *)
Fixpoint split (sep : N) (s : jstr) : list jstr :=
  match s with
  | [] => [[]]
  | c :: t =>
      if N.eqb c sep then [] :: split sep t
      else match split sep t with
           | [] => [[c]]
           | piece :: more => (c :: piece) :: more
           end
  end.

(** [arr.includes(x)] on an array of strings. *)
Definition includes (x : jstr) (arr : list jstr) : bool := existsb (jstr_eqb x) arr.

(** The decimal rendering of a natural number, as a template literal
    interpolates an integer-valued Number. *)
Definition nat_to_jstr (n : nat) : jstr := lit (NilZero.string_of_uint (Nat.to_uint n)).

(** ** Regular expressions

    The pattern language of the component: every quantifier of the source
    applies to a single-character atom, so [Rep] carries an atom. Matching
    is the backtracking semantics of the language specification, written
    with continuations. *)

Inductive cls : Type :=
| CChar (c : N)   (* a pattern character *)
| CSpace          (* \s *)
| CWord           (* \w *)
| CDigit.         (* \d *)

Inductive atom : Type :=
| One (c : cls)
| Dot                                          (* . *)
| Bracket (negated : bool) (members : list cls). (* [...] and [^...] *)

Inductive regex : Type :=
| Eps
| Atom (a : atom)
| Rep (a : atom) (min : nat) (max : option nat) (greedy : bool)
| Cat (r1 r2 : regex)
| Alt (r1 r2 : regex)
| Group (n : nat) (r : regex)
| Bol.                                         (* ^ without the m flag *)

(** Canonicalize under the [i] flag without the [u] flag: the upper-case
    mapping, never from a non-ASCII code unit to an ASCII one. Only the
    ASCII part of the mapping is written out: the patterns below hold,
    outside ASCII, only code units that have no case mapping. *)
Definition canonicalize (c : N) : N :=
  if ((97 <=? c) && (c <=? 122))%N then (c - 32)%N else c.

Definition cls_matches (ic : bool) (k : cls) (c : N) : bool :=
  match k with
  | CChar p => if ic then N.eqb (canonicalize p) (canonicalize c) else N.eqb p c
  | CSpace => is_white_space c
  | CWord => is_word c
  | CDigit => is_digit c
  end.

Definition atom_matches (ic : bool) (a : atom) (c : N) : bool :=
  match a with
  | One k => cls_matches ic k c
  | Dot => negb (is_line_terminator c)
  | Bracket negated members =>
      xorb negated (existsb (fun k => cls_matches ic k c) members)
  end.

(** The state of a match: the current index, the input from that index on,
    and the captures made so far (latest first). *)
Record mstate : Type := MState {
  m_pos : nat;
  m_rest : jstr;
  m_caps : list (nat * jstr)
}.

Definition more (max : option nat) : bool :=
  match max with Some 0 => false | _ => true end.

Section Matcher.
Variable ic : bool.   (* the i flag *)

(** RepeatMatcher for a one-character atom. *)
Fixpoint rep (a : atom) (greedy : bool) (k : nat -> jstr -> option mstate)
         (min : nat) (max : option nat) (pos : nat) (rest : jstr)
  : option mstate :=
  if greedy then
    match
      match rest with
      | c :: t =>
          if more max && atom_matches ic a c
          then rep a greedy k (pred min) (option_map pred max) (S pos) t
          else None
      | [] => None
      end
    with
    | Some y => Some y
    | None => match min with 0 => k pos rest | S _ => None end
    end
  else
    match match min with 0 => k pos rest | S _ => None end with
    | Some y => Some y
    | None =>
        match rest with
        | c :: t =>
            if more max && atom_matches ic a c
            then rep a greedy k (pred min) (option_map pred max) (S pos) t
            else None
        | [] => None
        end
    end.

Definition capture (n : nat) (x y : mstate) : mstate :=
  MState (m_pos y) (m_rest y)
         ((n, firstn (m_pos y - m_pos x) (m_rest x)) :: m_caps y).

Fixpoint run (r : regex) (k : mstate -> option mstate) (x : mstate)
  : option mstate :=
  match r with
  | Eps => k x
  | Atom a =>
      match m_rest x with
      | c :: t =>
          if atom_matches ic a c then k (MState (S (m_pos x)) t (m_caps x))
          else None
      | [] => None
      end
  | Rep a min max greedy =>
      rep a greedy (fun pos rest => k (MState pos rest (m_caps x)))
          min max (m_pos x) (m_rest x)
  | Cat r1 r2 => run r1 (run r2 k) x
  | Alt r1 r2 =>
      match run r1 k x with
      | Some y => Some y
      | None => run r2 k x
      end
  | Group n r1 => run r1 (fun y => k (capture n x y)) x
  | Bol => if Nat.eqb (m_pos x) 0 then k x else None
  end.

(** The result array of a successful match: its index, element 0 and the
    captures. *)
Record match_result : Type := MatchResult {
  index : nat;
  matched : jstr;
  groups : list (nat * jstr)
}.

Definition attempt (r : regex) (pos : nat) (rest : jstr) : option match_result :=
  match run r Some (MState pos rest []) with
  | Some y => Some (MatchResult pos (firstn (m_pos y - pos) rest) (m_caps y))
  | None => None
  end.

(** RegExpBuiltinExec of a pattern that is neither global nor sticky:
    the leftmost index at which the pattern matches. *)
Fixpoint exec_from (r : regex) (pos : nat) (rest : jstr) : option match_result :=
  match attempt r pos rest with
  | Some m => Some m
  | None =>
      match rest with
      | [] => None
      | _ :: t => exec_from r (S pos) t
      end
  end.

(** [s.match(re)] for a pattern without the g flag. *)
Definition match_first (r : regex) (s : jstr) : option match_result :=
  exec_from r 0 s.

(** [s.match(re)] for a pattern with the g flag: element 0 of every
    successive match, the next search starting where the last match ended
    (one further on after an empty match); [skip] counts the code units
    still inside the last match. The source sees [null] for no match. *)
Fixpoint match_all_from (r : regex) (skip pos : nat) (rest : jstr) : list jstr :=
  match skip with
  | S n =>
      match rest with
      | [] => []
      | _ :: t => match_all_from r n (S pos) t
      end
  | 0 =>
      match attempt r pos rest with
      | Some m =>
          matched m ::
          match rest with
          | [] => []
          | _ :: t => match_all_from r (pred (length (matched m))) (S pos) t
          end
      | None =>
          match rest with
          | [] => []
          | _ :: t => match_all_from r 0 (S pos) t
          end
      end
  end.

Definition match_all (r : regex) (s : jstr) : option (list jstr) :=
  match match_all_from r 0 0 s with
  | [] => None
  | l => Some l
  end.

(** [s.replace(re, replacement)] without the g flag, for a replacement
    text that holds no [$]. *)
Definition replace (r : regex) (replacement : jstr) (s : jstr) : jstr :=
  match match_first r s with
  | None => s
  | Some m =>
      firstn (index m) s ++ replacement ++ skipn (index m + length (matched m)) s
  end.

(** [s.replace(re, replacement)] with the g flag. *)
Fixpoint replace_all_from (r : regex) (replacement : jstr)
         (skip pos : nat) (rest : jstr) : jstr :=
  match skip with
  | S n =>
      match rest with
      | [] => []
      | _ :: t => replace_all_from r replacement n (S pos) t
      end
  | 0 =>
      match attempt r pos rest with
      | Some m =>
          replacement ++
          match rest with
          | [] => []
          | c :: t =>
              match length (matched m) with
              | 0 => c :: replace_all_from r replacement 0 (S pos) t
              | S n => replace_all_from r replacement n (S pos) t
              end
          end
      | None =>
          match rest with
          | [] => []
          | c :: t => c :: replace_all_from r replacement 0 (S pos) t
          end
      end
  end.

Definition replace_all (r : regex) (replacement : jstr) (s : jstr) : jstr :=
  replace_all_from r replacement 0 0 s.

End Matcher.

(** Capture [n] of a match: [None] is the source's [undefined]. *)
Fixpoint lookup_group (n : nat) (caps : list (nat * jstr)) : option jstr :=
  match caps with
  | [] => None
  | (i, s) :: more => if Nat.eqb i n then Some s else lookup_group n more
  end.

Definition group (n : nat) (m : match_result) : option jstr :=
  lookup_group n (groups m).

(** Pattern syntax. *)
Fixpoint chars (s : jstr) : regex :=
  match s with
  | [] => Eps
  | c :: t => Cat (Atom (One (CChar c))) (chars t)
  end.

Definition text (s : string) : regex := chars (lit s).
Definition star (a : atom) : regex := Rep a 0 None true.
Definition plus (a : atom) : regex := Rep a 1 None true.
Definition opt (a : atom) : regex := Rep a 0 (Some 1) true.
Definition lazy_star (a : atom) : regex := Rep a 0 None false.
Definition not_char (a : ascii) : atom := Bracket true [CChar (chr a)].

Declare Scope regex_scope.
Delimit Scope regex_scope with re.
Notation "r1 ;; r2" := (Cat r1 r2) (at level 61, right associativity) : regex_scope.

(** ** The title extractor *)

Module Patterns.
Local Open Scope regex_scope.

Definition space : atom := One CSpace.

(** The class of the two quote characters, code units 34 and 39. *)
Definition quote : atom := Bracket false [CChar 34%N; CChar 39%N].

(** /<title[^>]*>(.*?)<\/title>/i *)
Definition title : regex :=
  text "<title" ;; star (not_char ">") ;; text ">" ;;
  Group 1 (lazy_star Dot) ;; text "</title>".

(** /^Role:\s*/i *)
Definition rolePrefix : regex := Bol ;; text "Role:" ;; star space.

(** /<\w+\s+title=["']role["'][^>]*>([^<]+)/i *)
Definition titleRole : regex :=
  text "<" ;; plus (One CWord) ;; plus space ;; text "title=" ;;
  Atom quote ;; text "role" ;; Atom quote ;; star (not_char ">") ;; text ">" ;;
  Group 1 (plus (not_char "<")).

(** /<\w+\s+name=["']role["'][^>]*>([^<]+)/i *)
Definition nameRole : regex :=
  text "<" ;; plus (One CWord) ;; plus space ;; text "name=" ;;
  Atom quote ;; text "role" ;; Atom quote ;; star (not_char ">") ;; text ">" ;;
  Group 1 (plus (not_char "<")).

(** /<\w+\s+id=["']role["'][^>]*>([^<]+)/i *)
Definition idRole : regex :=
  text "<" ;; plus (One CWord) ;; plus space ;; text "id=" ;;
  Atom quote ;; text "role" ;; Atom quote ;; star (not_char ">") ;; text ">" ;;
  Group 1 (plus (not_char "<")).

(** /<\w+\s+type=["']role["'][^>]*>([^<]+)/i *)
Definition typeRole : regex :=
  text "<" ;; plus (One CWord) ;; plus space ;; text "type=" ;;
  Atom quote ;; text "role" ;; Atom quote ;; star (not_char ">") ;; text ">" ;;
  Group 1 (plus (not_char "<")).

(** /<section[^>]*>[\s\n]*role:?\s*([^<]+)/i *)
Definition sectionRole : regex :=
  text "<section" ;; star (not_char ">") ;; text ">" ;;
  star (Bracket false [CSpace; CChar 10%N]) ;; text "role" ;;
  opt (One (CChar (chr ":"))) ;; star space ;;
  Group 1 (plus (not_char "<")).

(** /<role[^>]*>([^<]+)/i *)
Definition roleElement : regex :=
  text "<role" ;; star (not_char ">") ;; text ">" ;;
  Group 1 (plus (not_char "<")).

Definition rolePatterns : list regex :=
  [titleRole; nameRole; idRole; typeRole; sectionRole; roleElement].

(** /^(role|角色)[:：]\s*/i *)
Definition roleLabel : regex :=
  Bol ;; Group 1 (Alt (text "role") (text "角色")) ;;
  Atom (Bracket false [CChar (chr ":"); CChar 0xFF1A%N]) ;; star space.

(** />([^<]+)</g *)
Definition interTag : regex :=
  text ">" ;; Group 1 (plus (not_char "<")) ;; text "<".

(** />/g and /</g *)
Definition gt : regex := text ">".
Definition lt : regex := text "<".

(** /^#{1,6}\s*/ *)
Definition heading : regex :=
  Bol ;; Rep (One (CChar (chr "#"))) 1 (Some 6) true ;; star space.

(** /^\*+\s*/ *)
Definition starBullet : regex := Bol ;; plus (One (CChar (chr "*"))) ;; star space.

(** /^-+\s*/ *)
Definition dashBullet : regex := Bol ;; plus (One (CChar (chr "-"))) ;; star space.

(** /^\d+\.\s*/ *)
Definition numbered : regex :=
  Bol ;; plus (One CDigit) ;; Atom (One (CChar (chr "."))) ;; star space.
End Patterns.

(** [m && m[n]] as a condition, giving [m[n]] when it holds: the match
    succeeded and capture [n] is a non-empty string. *)
Definition truthy_capture (n : nat) (m : option match_result) : option jstr :=
  match m with
  | Some r =>
      match group n r with
      | Some g => if truthy_str g then Some g else None
      | None => None
      end
  | None => None
  end.

Section TitleExtractor.

(** What [new Date().toLocaleDateString()] evaluates to during the call. *)
Variable today : jstr.

Definition defaultTitle : jstr := lit "提示词_" ++ today.

(** The loop over [rolePatterns], with [autoTitle] as loop state. *)
Fixpoint tryRolePatterns (patterns : list regex) (content autoTitle : jstr) : jstr :=
  match patterns with
  | [] => autoTitle
  | pattern :: others =>
      match truthy_capture 1 (match_first true pattern content) with
      | Some g =>
          let autoTitle := trim g in
          let autoTitle := trim (replace true Patterns.roleLabel [] autoTitle) in
          if truthy_str autoTitle then autoTitle
          else tryRolePatterns others content autoTitle
      | None => tryRolePatterns others content autoTitle
      end
  end.

(** The branch taken when the trimmed content starts with [<]. *)
Definition xmlTitle (content : jstr) : jstr :=
  let autoTitle : jstr := [] in
  let autoTitle :=
    match truthy_capture 1 (match_first true Patterns.title content) with
    | Some g =>
        let autoTitle := trim g in
        trim (replace true Patterns.rolePrefix [] autoTitle)
    | None => autoTitle
    end in
  let autoTitle :=
    if negb (truthy_str autoTitle)
    then tryRolePatterns Patterns.rolePatterns content autoTitle
    else autoTitle in
  if negb (truthy_str autoTitle) then
    match match_all false Patterns.interTag content with
    | Some (first :: _) =>
        if truthy_str first then
          trim (replace_all false Patterns.lt []
                  (replace_all false Patterns.gt [] first))
        else autoTitle
    | _ => autoTitle
    end
  else autoTitle.

(** The loop over the lines of the other branch, [autoTitle] as loop state. *)
Fixpoint scanLines (lines : list jstr) (autoTitle : jstr) : jstr :=
  match lines with
  | [] => autoTitle
  | line :: others =>
      let trimmedLine := trim line in
      if truthy_str trimmedLine then
        if startsWith (lit "# Role:") trimmedLine then
          let roleContent := trim (substring_from 8 trimmedLine) in
          if truthy_str roleContent then roleContent
          else scanLines others autoTitle
        else
          let autoTitle :=
            trim (replace false Patterns.numbered []
                   (replace false Patterns.dashBullet []
                     (replace false Patterns.starBullet []
                       (replace false Patterns.heading [] trimmedLine)))) in
          if truthy_str autoTitle then autoTitle
          else scanLines others autoTitle
      else scanLines others autoTitle
  end.

Definition markdownTitle (content : jstr) : jstr :=
  scanLines (split 10%N (trim content)) [].

(** [autoTitle] after the format-specific heuristics. *)
Definition heuristicTitle (content : jstr) : jstr :=
  if startsWith (lit "<") (trim content) then xmlTitle content
  else markdownTitle content.

(** [autoTitle] after the default has been filled in. *)
Definition fullTitle (content : jstr) : jstr :=
  let autoTitle := heuristicTitle content in
  if negb (truthy_str autoTitle) then defaultTitle else autoTitle.

(** The final length limit. *)
Definition limitTitle (autoTitle : jstr) : jstr :=
  if 50 <? length autoTitle
  then substring_to 50 autoTitle ++ lit "..."
  else autoTitle.

Definition extractTitleFromContent (content : jstr) : jstr :=
  if negb (truthy_str (trim content)) then defaultTitle
  else limitTitle (fullTitle content).

End TitleExtractor.

(** ** Values and completions *)

(** The Number a JSON numeric literal denotes is the double nearest to
    [± mantissa * 10 ^ exponent]; the component only ever asks whether it
    is zero, so the literal's exact decimal value is kept. *)
Record number : Type := Num {
  negative : bool;
  mantissa : N;
  exponent : Z
}.

(** The nearest double is a zero exactly when the magnitude is at most
    2^-1075, half the least positive double (the tie goes to the even
    neighbour, zero). *)
Definition number_is_zero (n : number) : bool :=
  N.eqb (mantissa n) 0
  || (exponent n <? 0)%Z
     && (Z.of_N (mantissa n) * 2 ^ 1075 <=? 10 ^ (- exponent n))%Z.

Inductive value : Type :=
| VUndefined
| VNull
| VBool (b : bool)
| VNumber (n : number)
| VString (s : jstr)
| VArray (items : list value)
| VObject (props : list (jstr * value)).

(** ToBoolean. A parsed Number is never NaN. *)
Definition truthy (v : value) : bool :=
  match v with
  | VUndefined | VNull => false
  | VBool b => b
  | VNumber n => negb (number_is_zero n)
  | VString s => truthy_str s
  | VArray _ | VObject _ => true
  end.

(** Own properties of an object, in creation order, one entry per key. *)
Fixpoint lookup (key : jstr) (props : list (jstr * value)) : option value :=
  match props with
  | [] => None
  | (k, v) :: others => if jstr_eqb k key then Some v else lookup key others
  end.

(** CreateDataProperty: a key defined again keeps its place and takes the
    new value. *)
Fixpoint define_property (key : jstr) (v : value) (props : list (jstr * value))
  : list (jstr * value) :=
  match props with
  | [] => [(key, v)]
  | (k, old) :: others =>
      if jstr_eqb k key then (k, v) :: others
      else (k, old) :: define_property key v others
  end.

Inductive thrown : Type :=
| SyntaxError (message : jstr)
| TypeError (message : jstr).

Definition message (e : thrown) : jstr :=
  match e with SyntaxError m | TypeError m => m end.

(** The outcome of evaluating a piece of code. *)
Inductive completion (A : Type) : Type :=
| Return (a : A)
| Throw (e : thrown).
Arguments Return {A} a.
Arguments Throw {A} e.

Definition bind {A B : Type} (c : completion A) (f : A -> completion B)
  : completion B :=
  match c with
  | Return a => f a
  | Throw e => Throw e
  end.

(** [try { body } catch (error) { handler }]. *)
Definition try_catch {A : Type} (body : completion A)
           (handler : thrown -> completion A) : completion A :=
  match body with
  | Return a => Return a
  | Throw e => handler e
  end.

Declare Scope js_scope.
Delimit Scope js_scope with js.
Notation "x <- c ;; k" := (bind c (fun x => k))
  (at level 61, c at next level, right associativity) : js_scope.

(** ** JSON.parse *)

Module Json.

(** JSONWhiteSpace: tab, line feed, carriage return, space. *)
Definition is_ws (c : N) : bool :=
  ((c =? 9) || (c =? 10) || (c =? 13) || (c =? 32))%N.

Fixpoint skip_ws (s : jstr) : jstr :=
  match s with
  | c :: t => if is_ws c then skip_ws t else s
  | [] => []
  end.

Definition hex_digit (c : N) : option N :=
  if is_digit c then Some (c - 48)%N
  else if ((97 <=? c) && (c <=? 102))%N then Some (c - 87)%N
  else if ((65 <=? c) && (c <=? 70))%N then Some (c - 55)%N
  else None.

Definition hex4 (a b c d : N) : option N :=
  match hex_digit a, hex_digit b, hex_digit c, hex_digit d with
  | Some x, Some y, Some z, Some w => Some (((x * 16 + y) * 16 + z) * 16 + w)%N
  | _, _, _, _ => None
  end.

(** The character a one-letter escape stands for. *)
Definition unescape (e : N) : option N :=
  if (e =? 34)%N then Some 34%N           (* quote *)
  else if (e =? 92)%N then Some 92%N      (* backslash *)
  else if (e =? 47)%N then Some 47%N      (* slash *)
  else if (e =? 98)%N then Some 8%N       (* b *)
  else if (e =? 102)%N then Some 12%N     (* f *)
  else if (e =? 110)%N then Some 10%N     (* n *)
  else if (e =? 114)%N then Some 13%N     (* r *)
  else if (e =? 116)%N then Some 9%N      (* t *)
  else None.

(** The characters of a JSONString after its opening quote, up to and
    including the closing quote: any code unit from U+0020 on except the
    quote and the backslash, a one-letter escape, or a [u] escape of four
    hexadecimal digits. *)
Fixpoint string_body (s : jstr) : option (jstr * jstr) :=
  match s with
  | [] => None
  | c :: t =>
      if (c =? 34)%N then Some ([], t)
      else if (c =? 92)%N then
        match t with
        | [] => None
        | e :: t1 =>
            if (e =? 117)%N then
              match t1 with
              | h1 :: h2 :: h3 :: h4 :: t2 =>
                  match hex4 h1 h2 h3 h4, string_body t2 with
                  | Some u, Some (body, rest) => Some (u :: body, rest)
                  | _, _ => None
                  end
              | _ => None
              end
            else
              match unescape e, string_body t1 with
              | Some u, Some (body, rest) => Some (u :: body, rest)
              | _, _ => None
              end
        end
      else if (c <? 32)%N then None
      else
        match string_body t with
        | Some (body, rest) => Some (c :: body, rest)
        | None => None
        end
  end.

(** The longest run of decimal digits at the head of the input. *)
Fixpoint digits (s : jstr) : jstr * jstr :=
  match s with
  | c :: t =>
      if is_digit c then let (ds, rest) := digits t in (c :: ds, rest)
      else ([], s)
  | [] => ([], [])
  end.

Definition decimal (ds : jstr) : N :=
  fold_left (fun acc d => (acc * 10 + (d - 48))%N) ds 0%N.

(** An optional sign character. *)
Definition sign (minus : N) (plus : option N) (s : jstr) : bool * jstr :=
  match s with
  | c :: t =>
      if (c =? minus)%N then (true, t)
      else match plus with
           | Some p => if (c =? p)%N then (false, t) else (false, s)
           | None => (false, s)
           end
  | [] => (false, s)
  end.

(** The integer part: a zero on its own, or digits starting with 1 to 9. *)
Definition int_part (s : jstr) : option (jstr * jstr) :=
  match s with
  | c :: t =>
      if (c =? 48)%N then Some ([c], t)
      else if is_digit c then Some (digits s)
      else None
  | [] => None
  end.

(** The optional fraction: a dot and one or more digits. *)
Definition frac_part (s : jstr) : option (jstr * jstr) :=
  match s with
  | c :: t =>
      if (c =? 46)%N then
        match digits t with
        | ([], _) => None
        | (fs, rest) => Some (fs, rest)
        end
      else Some ([], s)
  | [] => Some ([], s)
  end.

(** The optional exponent: e or E, an optional sign, one or more digits. *)
Definition exp_part (s : jstr) : option (Z * jstr) :=
  match s with
  | c :: t =>
      if (c =? 69)%N || (c =? 101)%N then
        let (eneg, t1) := sign 45 (Some 43%N) t in
        match digits t1 with
        | ([], _) => None
        | (es, rest) =>
            Some ((if eneg then - Z.of_N (decimal es) else Z.of_N (decimal es))%Z,
                  rest)
        end
      else Some (0%Z, s)
  | [] => Some (0%Z, s)
  end.

(** JSONNumber: an optional minus, the integer part, the optional
    fraction, the optional exponent. *)
Definition number_literal (s : jstr) : option (number * jstr) :=
  let (neg, s1) := sign 45 None s in
  match int_part s1 with
  | None => None
  | Some (ints, s2) =>
      match frac_part s2 with
      | None => None
      | Some (fracs, s3) =>
          match exp_part s3 with
          | None => None
          | Some (e, s4) =>
              Some (Num neg (decimal (ints ++ fracs))
                        (e - Z.of_nat (length fracs))%Z, s4)
          end
      end
  end.

Inductive outcome (A : Type) : Type :=
| Parsed (a : A) (rest : jstr)
| Malformed
| Exhausted.
Arguments Parsed {A} a rest.
Arguments Malformed {A}.
Arguments Exhausted {A}.

(** A value that is neither an array nor an object. *)
Definition scalar (s : jstr) : outcome value :=
  match s with
  | c :: t =>
      if (c =? 34)%N then
        match string_body t with
        | Some (body, rest) => Parsed (VString body) rest
        | None => Malformed
        end
      else if startsWith (lit "true") s then Parsed (VBool true) (skipn 4 s)
      else if startsWith (lit "false") s then Parsed (VBool false) (skipn 5 s)
      else if startsWith (lit "null") s then Parsed VNull (skipn 4 s)
      else
        match number_literal s with
        | Some (n, rest) => Parsed (VNumber n) rest
        | None => Malformed
        end
  | [] => Malformed
  end.

(** Does the input start with this character? *)
Definition starts (c : N) (s : jstr) : bool :=
  match s with
  | x :: _ => N.eqb x c
  | [] => false
  end.

(** Recursive descent; [fuel] bounds the number of nested calls.
    [elements] reads the elements of an array after its opening bracket
    and [members] the members of an object after its opening brace, both
    starting at an element and accumulating what they have read. *)
Fixpoint json_value (fuel : nat) (s : jstr) : outcome value :=
  match fuel with
  | 0 => Exhausted
  | S fuel' =>
      let s1 := skip_ws s in
      if starts 91 s1 then                            (* [ *)
        let s2 := skip_ws (tl s1) in
        if starts 93 s2 then Parsed (VArray []) (tl s2)
        else elements fuel' s2 []
      else if starts 123 s1 then                      (* { *)
        let s2 := skip_ws (tl s1) in
        if starts 125 s2 then Parsed (VObject []) (tl s2)
        else members fuel' s2 []
      else scalar s1
  end
with elements (fuel : nat) (s : jstr) (acc : list value) : outcome value :=
  match fuel with
  | 0 => Exhausted
  | S fuel' =>
      match json_value fuel' s with
      | Parsed v rest =>
          let s1 := skip_ws rest in
          if starts 44 s1 then elements fuel' (tl s1) (acc ++ [v])
          else if starts 93 s1 then Parsed (VArray (acc ++ [v])) (tl s1)
          else Malformed
      | Malformed => Malformed
      | Exhausted => Exhausted
      end
  end
with members (fuel : nat) (s : jstr) (acc : list (jstr * value)) : outcome value :=
  match fuel with
  | 0 => Exhausted
  | S fuel' =>
      let s1 := skip_ws s in
      if starts 34 s1 then
        match string_body (tl s1) with
        | Some (key, rest) =>
            let s2 := skip_ws rest in
            if starts 58 s2 then
              match json_value fuel' (tl s2) with
              | Parsed v rest' =>
                  let s3 := skip_ws rest' in
                  if starts 44 s3
                  then members fuel' (tl s3) (define_property key v acc)
                  else if starts 125 s3
                  then Parsed (VObject (define_property key v acc)) (tl s3)
                  else Malformed
              | Malformed => Malformed
              | Exhausted => Exhausted
              end
            else Malformed
        | None => Malformed
        end
      else Malformed
  end.

(** A whole JSON text: one value, white space around it, nothing else.
    Each nested call follows at least one consumed character after at
    most one other call, so twice the length is fuel enough. *)
Definition text (s : jstr) : outcome value :=
  match json_value (2 * length s + 2) s with
  | Parsed v rest =>
      match skip_ws rest with
      | [] => Parsed v []
      | _ :: _ => Malformed
      end
  | other => other
  end.

(** What it takes for [fuel] to be enough: no call made on an input short
    enough for the fuel gives up, and no call leaves more input than it
    was given. *)
Definition adequate (fuel : nat) : Prop :=
  (forall s,
     (2 * length s + 1 <= fuel -> json_value fuel s <> Exhausted) /\
     (forall v r, json_value fuel s = Parsed v r -> length r <= length s)) /\
  (forall s acc,
     (2 * length s + 2 <= fuel -> elements fuel s acc <> Exhausted) /\
     (forall v r, elements fuel s acc = Parsed v r -> length r <= length s)) /\
  (forall s acc,
     (2 * length s + 2 <= fuel -> members fuel s acc <> Exhausted) /\
     (forall v r, members fuel s acc = Parsed v r -> length r <= length s)).

End Json.

(** ** The save dialog *)

(** The property names the component reads from a parsed element. *)
Inductive field : Type := role | content.

Definition field_name (f : field) : jstr :=
  match f with
  | role => lit "role"
  | content => lit "content"
  end.

(** The reactive state the handlers below read and write. *)
Record dialog : Type := Dialog {
  newTag : jstr;
  tags : list jstr;
  conversationHistory : jstr;
  conversationFormatError : jstr
}.

(** A handler runs on the dialog's state; what it wrote before a throw
    stays written. *)
Definition handler (A : Type) : Type := dialog -> completion A * dialog.

Section SaveDialog.

(** The message of the SyntaxError the engine's [JSON.parse] throws on a
    given text, and of the TypeError a property read on [null] or
    [undefined] throws: both are the engine's choice. *)
Variable syntaxErrorMessage : jstr -> jstr.
Variable typeErrorMessage : jstr.

(** [JSON.stringify(v, null, indent)] on a parsed value: always a string. *)
Variable JSON_stringify : value -> nat -> jstr.

Local Open Scope js_scope.

Definition JSON_parse (s : jstr) : completion value :=
  match Json.text s with
  | Json.Parsed v _ => Return v
  | _ => Throw (SyntaxError (syntaxErrorMessage s))
  end.

(** [item.role], [item.content]. No prototype of a parsed value has a
    property of either name, so only own properties of objects count. *)
Definition get (item : value) (f : field) : completion value :=
  match item with
  | VUndefined | VNull => Throw (TypeError typeErrorMessage)
  | VObject props =>
      Return (match lookup (field_name f) props with
              | Some v => v
              | None => VUndefined
              end)
  | _ => Return VUndefined
  end.

(** [['user', 'assistant', 'system'].includes(v)] *)
Definition roles : list jstr := [lit "user"; lit "assistant"; lit "system"].

Definition includes_value (arr : list jstr) (v : value) : bool :=
  match v with
  | VString s => includes s arr
  | _ => false
  end.

Definition missingFieldMessage (n : nat) : jstr :=
  lit "第" ++ nat_to_jstr n ++ lit "条消息缺少role或content字段".

Definition badRoleMessage (n : nat) : jstr :=
  lit "第" ++ nat_to_jstr n ++ lit "条消息的role必须是user、assistant或system".

(** The [for] loop of the validator from index [i] on, over the elements
    not yet visited; falling out of the loop returns the empty string. *)
Fixpoint checkItems (items : list value) (i : nat) : completion jstr :=
  match items with
  | [] => Return []
  | parsed_i :: others =>
      let item := if truthy parsed_i then parsed_i else VObject [] in
      r <- get item role ;;
      missing <- (if negb (truthy r) then Return true
                  else c <- get item content ;; Return (negb (truthy c))) ;;
      if missing : bool then Return (missingFieldMessage (i + 1))
      else
        r <- get item role ;;
        if negb (includes_value roles r) then Return (badRoleMessage (i + 1))
        else checkItems others (S i)
  end.

Definition validateConversationJson (jsonStr : jstr) : completion jstr :=
  if negb (truthy_str (trim jsonStr)) then Return []
  else
    try_catch
      (parsed <- JSON_parse jsonStr ;;
       match parsed with
       | VArray items => checkItems items 0
       | _ => Return (lit "必须是数组格式")
       end)
      (fun error =>
         Return (if truthy_str (message error) then message error
                 else lit "JSON格式错误")).

Definition set_conversationHistory (s : jstr) : handler unit :=
  fun d => (Return tt, Dialog (newTag d) (tags d) s (conversationFormatError d)).

Definition set_conversationFormatError (s : jstr) : handler unit :=
  fun d => (Return tt, Dialog (newTag d) (tags d) (conversationHistory d) s).

Definition seq {A B : Type} (h : handler A) (k : A -> handler B) : handler B :=
  fun d =>
    match h d with
    | (Return a, d') => k a d'
    | (Throw e, d') => (Throw e, d')
    end.

Definition eval {A : Type} (c : dialog -> completion A) : handler A :=
  fun d => (c d, d).

Definition try_catch_handler {A : Type} (body : handler A)
           (catch : thrown -> handler A) : handler A :=
  fun d =>
    match body d with
    | (Return a, d') => (Return a, d')
    | (Throw e, d') => catch e d'
    end.

Definition formatConversationJson : handler unit :=
  fun d =>
    if negb (truthy_str (trim (conversationHistory d))) then (Return tt, d)
    else
      try_catch_handler
        (seq (eval (fun d => JSON_parse (conversationHistory d))) (fun parsed =>
         seq (set_conversationHistory (JSON_stringify parsed 2)) (fun _ =>
         set_conversationFormatError [])))
        (fun _ => set_conversationFormatError (lit "JSON格式错误，无法格式化"))
        d.

Definition addTag : handler unit :=
  fun d =>
    let tag := trim (newTag d) in
    if truthy_str tag && negb (includes tag (tags d)) && (length (tags d) <? 10)
    then (Return tt, Dialog [] (tags d ++ [tag])
                            (conversationHistory d) (conversationFormatError d))
    else (Return tt, d).

Definition removeTag (tag : jstr) : handler unit :=
  fun d =>
    (Return tt,
     Dialog (newTag d) (filter (fun t => negb (jstr_eqb t tag)) (tags d))
            (conversationHistory d) (conversationFormatError d)).

(** The text field bound to [newTag] with [v-model]: typing replaces it. *)
Definition typeNewTag (s : jstr) : handler unit :=
  fun d =>
    (Return tt, Dialog s (tags d) (conversationHistory d) (conversationFormatError d)).

End SaveDialog.

(** ** Notions the statements below are phrased in *)

(** The title before the length limit is applied: the default on the early
    return, [autoTitle] otherwise. *)
Definition extractedTitle (today content : jstr) : jstr :=
  if blank content then defaultTitle today else fullTitle today content.

(** An own property of a parsed object; other parsed values have none. *)
Definition own_property (item : value) (name : jstr) : option value :=
  match item with
  | VObject props => lookup name props
  | _ => None
  end.

(** A well-formed turn: a truthy [role] that is one of the three role
    names, and a truthy [content]. *)
Definition well_formed_turn (item : value) : Prop :=
  exists r c,
    own_property item (lit "role") = Some r /\ truthy r = true /\
    (r = VString (lit "user") \/ r = VString (lit "assistant")
     \/ r = VString (lit "system")) /\
    own_property item (lit "content") = Some c /\ truthy c = true.

(** What a read of [item.role] or [item.content] yields for an element. *)
Definition read (x : value) (f : field) : value :=
  match own_property x (field_name f) with
  | Some v => v
  | None => VUndefined
  end.

Definition has_truthy (item : value) (f : field) : bool :=
  match own_property item (field_name f) with
  | Some v => truthy v
  | None => false
  end.

(** The first per-item violation: a [role] or [content] that is absent or falsy. *)
Definition lacks_field (item : value) : bool :=
  negb (has_truthy item role) || negb (has_truthy item content).

(** The second per-item violation: a [role] outside the three role names. *)
Definition unknown_role (item : value) : bool :=
  match own_property item (lit "role") with
  | Some (VString r) => negb (includes r [lit "user"; lit "assistant"; lit "system"])
  | _ => true
  end.

Definition turn_ok (item : value) : bool :=
  negb (lacks_field item) && negb (unknown_role item).

Definition is_array (v : value) : bool :=
  match v with VArray _ => true | _ => false end.

(** What the user does to the tag editor. *)
Inductive tag_action : Type :=
| TypeNewTag (s : jstr)
| AddTag
| RemoveTag (tag : jstr).

Definition perform (a : tag_action) : handler unit :=
  match a with
  | TypeNewTag s => typeNewTag s
  | AddTag => addTag
  | RemoveTag tag => removeTag tag
  end.

Fixpoint perform_all (actions : list tag_action) (d : dialog) : dialog :=
  match actions with
  | [] => d
  | a :: others => perform_all others (snd (perform a d))
  end.

(** The invariant of the tag list. *)
Definition tags_ok (l : list jstr) : Prop :=
  NoDup l /\ Forall (fun t => blank t = false) l /\ length l <= 10.

(** JSON texts of the examples are written with an apostrophe where the
    text has a double quote. *)
Definition json (s : string) : jstr :=
  map (fun c => if (c =? 39)%N then 34%N else c) (lit s).

(** ** The rest of the dialog: props, form data, watchers, saving *)

(** The props of the component. [initialTitle] is optional. *)
Record props : Type := Props {
  isOpen : bool;
  promptContent : jstr;
  isSaving : bool;
  initialTitle : option jstr
}.

(** The whole reactive state: the fields of [formData] and the refs. The
    four that the handlers above work on are kept in [editor]. *)
Module SaveForm.
Record t : Type := Make {
  title : jstr;
  description : jstr;
  isPublic : bool;
  promptType : jstr;
  content : jstr;
  systemPrompt : jstr;
  showConversationHelp : bool;
  editor : dialog
}.

Definition with_editor (d : dialog) (f : t) : t :=
  Make (title f) (description f) (isPublic f) (promptType f) (content f)
       (systemPrompt f) (showConversationHelp f) d.

Definition with_error (e : jstr) (f : t) : t :=
  with_editor (Dialog (newTag (editor f)) (tags (editor f))
                      (conversationHistory (editor f)) e) f.

Definition with_history (h : jstr) (f : t) : t :=
  with_editor (Dialog (newTag (editor f)) (tags (editor f)) h
                      (conversationFormatError (editor f))) f.

Definition with_promptType (ty : jstr) (f : t) : t :=
  Make (title f) (description f) (isPublic f) ty (content f)
       (systemPrompt f) (showConversationHelp f) (editor f).

Definition with_title (x : jstr) (f : t) : t :=
  Make x (description f) (isPublic f) (promptType f) (content f)
       (systemPrompt f) (showConversationHelp f) (editor f).

Definition with_description (x : jstr) (f : t) : t :=
  Make (title f) x (isPublic f) (promptType f) (content f)
       (systemPrompt f) (showConversationHelp f) (editor f).

Definition with_content (x : jstr) (f : t) : t :=
  Make (title f) (description f) (isPublic f) (promptType f) x
       (systemPrompt f) (showConversationHelp f) (editor f).

Definition with_systemPrompt (x : jstr) (f : t) : t :=
  Make (title f) (description f) (isPublic f) (promptType f) (content f)
       x (showConversationHelp f) (editor f).

Definition with_isPublic (b : bool) (f : t) : t :=
  Make (title f) (description f) b (promptType f) (content f)
       (systemPrompt f) (showConversationHelp f) (editor f).

(** The state the script block sets up. *)
Definition initial : t :=
  Make [] [] false (lit "system") [] [] false (Dialog [] [] [] []).
End SaveForm.

(** The data of a [save] event. *)
Module SaveData.
Record t : Type := Make {
  title : jstr;
  description : jstr;
  tags : list jstr;
  isPublic : bool;
  promptType : jstr;
  content : jstr;
  systemPrompt : jstr;
  conversationHistory : jstr
}.
End SaveData.

(** What a click handler does to the outside: an [alert], or an emitted
    event. *)
Inductive effect : Type :=
| Alert (text : jstr)
| EmitSave (data : SaveData.t)
| EmitCancel.

Definition form_handler (A : Type) : Type :=
  SaveForm.t -> completion A * SaveForm.t.

(** A handler of the editor state, run on the whole state. *)
Definition on_editor (h : handler unit) : form_handler unit :=
  fun f =>
    let (c, d) := h (SaveForm.editor f) in (c, SaveForm.with_editor d f).

Section Watchers.
Variable syntaxErrorMessage : jstr -> jstr.
Variable typeErrorMessage : jstr.
Variable JSON_stringify : value -> nat -> jstr.
Variable today : jstr.

(** The callback of the watcher on [formData.value.conversationHistory]. *)
Definition onConversationHistory (newValue : jstr) : form_handler unit :=
  fun f =>
    if negb (jstr_eqb (SaveForm.promptType f) (lit "user"))
    then (Return tt, SaveForm.with_error [] f)
    else
      match validateConversationJson syntaxErrorMessage typeErrorMessage newValue with
      | Return e => (Return tt, SaveForm.with_error e f)
      | Throw x => (Throw x, f)
      end.

(** The callback of the watcher on [formData.value.promptType]. *)
Definition onPromptType (newType : jstr) : form_handler unit :=
  fun f =>
    if negb (jstr_eqb newType (lit "user"))
    then (Return tt, SaveForm.with_error [] f)
    else if truthy_str (conversationHistory (SaveForm.editor f)) then
      match validateConversationJson syntaxErrorMessage typeErrorMessage
              (conversationHistory (SaveForm.editor f)) with
      | Return e => (Return tt, SaveForm.with_error e f)
      | Throw x => (Throw x, f)
      end
    else (Return tt, f).

(** The callback of the watcher on [props.isOpen]: opening resets the
    form. The text of the tag input, [newTag], is not among what it
    resets. *)
Definition onIsOpen (p : props) (opened : bool) : form_handler unit :=
  fun f =>
    if opened then
      let title :=
        match initialTitle p with
        | Some t =>
            if truthy_str t then t
            else extractTitleFromContent today
                   (if truthy_str (promptContent p) then promptContent p else [])
        | None =>
            extractTitleFromContent today
              (if truthy_str (promptContent p) then promptContent p else [])
        end in
      (Return tt,
       SaveForm.Make title [] false (lit "system") [] [] false
                     (Dialog (newTag (SaveForm.editor f)) [] [] []))
    else (Return tt, f).

(** [handleSave]: it writes nothing; [None] is a return without effect. *)
Definition handleSave (p : props) (f : SaveForm.t) : option effect :=
  if negb (truthy_str (trim (SaveForm.title f))) then None
  else if negb (truthy_str (promptContent p))
          && negb (truthy_str (trim (SaveForm.content f)))
  then Some (Alert (lit "请输入提示词内容"))
  else if jstr_eqb (SaveForm.promptType f) (lit "user")
          && truthy_str (conversationFormatError (SaveForm.editor f))
  then Some (Alert (lit "请修正对话上下文JSON格式"))
  else
    Some (EmitSave
      (SaveData.Make
         (trim (SaveForm.title f))
         (trim (SaveForm.description f))
         (tags (SaveForm.editor f))
         (SaveForm.isPublic f)
         (SaveForm.promptType f)
         (trim (SaveForm.content f))
         (if jstr_eqb (SaveForm.promptType f) (lit "user")
          then trim (SaveForm.systemPrompt f) else [])
         (if jstr_eqb (SaveForm.promptType f) (lit "user")
          then trim (conversationHistory (SaveForm.editor f)) else []))).

Definition handleCancel : effect := EmitCancel.

(** The template shows the format button inside the block for the user
    type, in the paragraph shown when there is no error, and only for a
    non-empty history. *)
Definition formatVisible (f : SaveForm.t) : bool :=
  jstr_eqb (SaveForm.promptType f) (lit "user")
  && negb (truthy_str (conversationFormatError (SaveForm.editor f)))
  && truthy_str (conversationHistory (SaveForm.editor f)).

(** The Save button is disabled without a title or while saving. *)
Definition saveDisabled (p : props) (f : SaveForm.t) : bool :=
  negb (truthy_str (trim (SaveForm.title f))) || isSaving p.

(** What the user (or the parent, for [Opened]) does to the dialog. *)
Inductive event : Type :=
| InputTitle (s : jstr)
| InputDescription (s : jstr)
| InputContent (s : jstr)
| InputSystemPrompt (s : jstr)
| InputConversationHistory (s : jstr)
| ChoosePromptType (ty : jstr)
| CheckPublic (b : bool)
| ClickFormat
| OnTag (a : tag_action)
| Opened (p : props).

(** The watchers on the history and on the type, run in the order they
    were created, each only if its source changed during the event. Their
    callbacks write only the error, which no watcher observes. *)
Definition flush (before after : SaveForm.t) : SaveForm.t :=
  let f1 :=
    if jstr_eqb (conversationHistory (SaveForm.editor before))
                (conversationHistory (SaveForm.editor after))
    then after
    else snd (onConversationHistory (conversationHistory (SaveForm.editor after)) after) in
  if jstr_eqb (SaveForm.promptType before) (SaveForm.promptType after)
  then f1
  else snd (onPromptType (SaveForm.promptType after) f1).

(** One event: the handler or the model binding runs, then the watchers. *)
Definition step (e : event) (f : SaveForm.t) : SaveForm.t :=
  match e with
  | InputTitle s => SaveForm.with_title s f
  | InputDescription s => SaveForm.with_description s f
  | InputContent s => SaveForm.with_content s f
  | InputSystemPrompt s => SaveForm.with_systemPrompt s f
  | InputConversationHistory s => flush f (SaveForm.with_history s f)
  | ChoosePromptType ty => flush f (SaveForm.with_promptType ty f)
  | CheckPublic b => SaveForm.with_isPublic b f
  | ClickFormat =>
      if formatVisible f
      then flush f (snd (on_editor
                           (formatConversationJson syntaxErrorMessage JSON_stringify) f))
      else f
  | OnTag a => snd (on_editor (perform a) f)
  | Opened p => flush f (snd (onIsOpen p true f))
  end.

Fixpoint steps (events : list event) (f : SaveForm.t) : SaveForm.t :=
  match events with
  | [] => f
  | e :: others => steps others (step e f)
  end.

(** The error shown is the validator's verdict on the stored history for
    the user type, and empty for any other type. *)
Definition in_sync (f : SaveForm.t) : Prop :=
  if jstr_eqb (SaveForm.promptType f) (lit "user")
  then validateConversationJson syntaxErrorMessage typeErrorMessage
         (conversationHistory (SaveForm.editor f))
       = Return (conversationFormatError (SaveForm.editor f))
  else conversationFormatError (SaveForm.editor f) = [].

End Watchers.

(** A first character that no Markdown marker pattern of the extractor
    can start at, that is not white space and does not open a tag. *)
Definition plain_start (c : N) : bool :=
  negb ((c =? 35) || (c =? 42) || (c =? 45) || (c =? 60)
        || is_digit c || is_white_space c)%N.

(** The Markdown markers the extractor strips from the start of a line:
    one to six [#], a run of [*], a run of [-], or digits and a dot. *)
Inductive marker : jstr -> Prop :=
| heading_marker (k : nat) : 1 <= k <= 6 -> marker (repeat 35%N k)
| star_marker (k : nat) : 1 <= k -> marker (repeat 42%N k)
| dash_marker (k : nat) : 1 <= k -> marker (repeat 45%N k)
| number_marker (ds : jstr) :
    ds <> [] -> forallb is_digit ds = true -> marker (ds ++ [46%N]).

(** The input does not go on with a character the atom matches. *)
Definition stops (ic : bool) (a : atom) (rest : jstr) : Prop :=
  match rest with
  | c :: _ => atom_matches ic a c = false
  | [] => True
  end.

(** A number of repetitions within the quantifier's upper bound. *)
Definition fits (n : nat) (max : option nat) : Prop :=
  match max with
  | Some m => n <= m
  | None => True
  end.

(** What may follow a parsed value without changing how it parses: for a
    number the next character matters, for any other value nothing does. *)
Definition tail_ok (v : value) (x' x : jstr) : Prop :=
  match v with
  | VNumber _ => hd_error x' = hd_error x
  | _ => True
  end.

(** [a] occurs in [b] as a contiguous piece. *)
Definition infix (a b : jstr) : Prop := exists p q, b = p ++ a ++ q.

(** * Properties *)

(** ** Strings *)

Lemma truthy_str_false (s : jstr) : truthy_str s = false <-> s = [].
Proof. destruct s; simpl; split; congruence. Qed.

Lemma truthy_str_true (s : jstr) : truthy_str s = true <-> s <> [].
Proof. destruct s; simpl; split; congruence. Qed.

Lemma jstr_eqb_eq (a b : jstr) : jstr_eqb a b = true <-> a = b.
Proof.
  revert b; induction a as [|x a IH]; destruct b as [|y b]; simpl;
    try (split; congruence).
  rewrite andb_true_iff, N.eqb_eq, IH. split.
  - intros [-> ->]; reflexivity.
  - intros E; injection E; auto.
Qed.

Lemma jstr_eqb_refl (a : jstr) : jstr_eqb a a = true.
Proof. apply jstr_eqb_eq; reflexivity. Qed.

Lemma includes_In (x : jstr) (arr : list jstr) : includes x arr = true <-> In x arr.
Proof.
  unfold includes. rewrite existsb_exists. split.
  - intros [y [Hy E]]. apply jstr_eqb_eq in E. subst; assumption.
  - intros H. exists x. split; [assumption | apply jstr_eqb_refl].
Qed.

Lemma trimStart_nil (s : jstr) : trimStart s = [] <-> blank s = true.
Proof.
  induction s as [|c t IH]; simpl.
  - split; reflexivity.
  - destruct (is_white_space c); simpl; [exact IH | split; discriminate].
Qed.

Lemma trimEnd_nil (s : jstr) : trimEnd s = [] <-> blank s = true.
Proof.
  induction s as [|c t IH]; simpl.
  - split; reflexivity.
  - destruct (trimEnd t) as [|x t'] eqn:E.
    + destruct IH as [IH _]. rewrite (IH eq_refl), andb_true_r.
      destruct (is_white_space c); split; congruence.
    + assert (B : blank t = false).
      { destruct (blank t); [|reflexivity]. destruct IH as [_ IH].
        discriminate (IH eq_refl). }
      rewrite B, andb_false_r. split; discriminate.
Qed.

Lemma blank_trimStart (s : jstr) : blank (trimStart s) = blank s.
Proof.
  induction s as [|c t IH]; simpl; [reflexivity|].
  destruct (is_white_space c) eqn:E; simpl; [exact IH | rewrite E; reflexivity].
Qed.

Lemma trim_nil (s : jstr) : trim s = [] <-> blank s = true.
Proof. unfold trim. rewrite trimEnd_nil, blank_trimStart. reflexivity. Qed.

Lemma truthy_trim (s : jstr) : truthy_str (trim s) = negb (blank s).
Proof.
  destruct (blank s) eqn:B; simpl.
  - apply truthy_str_false, trim_nil; assumption.
  - apply truthy_str_true. intros E. apply trim_nil in E. congruence.
Qed.

Lemma trimStart_head (s : jstr) (c : N) (t : jstr) :
  trimStart s = c :: t -> is_white_space c = false.
Proof.
  induction s as [|x s IH]; simpl; [discriminate|].
  destruct (is_white_space x) eqn:E; [exact IH|].
  intros H; injection H as -> _; assumption.
Qed.

Lemma trimEnd_head (s : jstr) (c : N) (t : jstr) :
  is_white_space c = false -> exists t', trimEnd (c :: t) = c :: t'.
Proof.
  intros H. simpl. destruct (trimEnd t); [rewrite H|]; eauto.
Qed.

Lemma blank_trimEnd (s : jstr) : blank (trimEnd s) = blank s.
Proof.
  induction s as [|c t IH]; simpl; [reflexivity|].
  destruct (trimEnd t) as [|x t'] eqn:E.
  - apply trimEnd_nil in E. rewrite E, andb_true_r.
    destruct (is_white_space c) eqn:W; simpl; rewrite ?W; reflexivity.
  - simpl in *. rewrite IH. reflexivity.
Qed.

(** A trimmed string is blank only when the string itself is. *)
Lemma blank_trim (s : jstr) : blank (trim s) = blank s.
Proof. unfold trim. rewrite blank_trimEnd, blank_trimStart. reflexivity. Qed.

(** ** The title extractor *)

Section TitleProperties.
Variable today : jstr.

Lemma defaultTitle_cons : exists c t, defaultTitle today = c :: t.
Proof.
  unfold defaultTitle. destruct (lit "提示词_") as [|c t] eqn:E.
  - vm_compute in E. discriminate.
  - simpl. eauto.
Qed.

Lemma defaultTitle_length : length (defaultTitle today) = 4 + length today.
Proof. unfold defaultTitle. rewrite length_app. reflexivity. Qed.

Lemma fullTitle_nonempty (content : jstr) : fullTitle today content <> [].
Proof.
  unfold fullTitle. destruct (truthy_str (heuristicTitle content)) eqn:E; simpl.
  - apply truthy_str_true; assumption.
  - destruct defaultTitle_cons as [c [t ->]]; discriminate.
Qed.

Lemma limitTitle_short (t : jstr) : length t <= 50 -> limitTitle t = t.
Proof.
  intros H. unfold limitTitle.
  destruct (Nat.ltb_spec 50 (length t)); [lia | reflexivity].
Qed.

Lemma limitTitle_long (t : jstr) :
  50 < length t -> limitTitle t = firstn 50 t ++ lit "...".
Proof.
  intros H. unfold limitTitle, substring_to.
  destruct (Nat.ltb_spec 50 (length t)); [reflexivity | lia].
Qed.

Lemma limitTitle_nonempty (t : jstr) : t <> [] -> limitTitle t <> [].
Proof.
  intros H. unfold limitTitle. destruct (50 <? length t); [|assumption].
  intros E. apply app_eq_nil in E. destruct E as [_ E]. vm_compute in E.
  discriminate.
Qed.

Lemma extractTitle_blank (content : jstr) :
  blank content = true -> extractTitleFromContent today content = defaultTitle today.
Proof.
  intros B. unfold extractTitleFromContent. rewrite truthy_trim, B. reflexivity.
Qed.

Lemma extractTitle_not_blank (content : jstr) :
  blank content = false ->
  extractTitleFromContent today content = limitTitle (fullTitle today content).
Proof.
  intros B. unfold extractTitleFromContent. rewrite truthy_trim, B. reflexivity.
Qed.

Lemma extractTitle_no_heuristic (content : jstr) :
  blank content = false -> heuristicTitle content = [] ->
  fullTitle today content = defaultTitle today /\
  extractTitleFromContent today content = limitTitle (defaultTitle today).
Proof.
  intros B H.
  assert (F : fullTitle today content = defaultTitle today).
  { unfold fullTitle. rewrite H. reflexivity. }
  rewrite (extractTitle_not_blank _ B), F. split; reflexivity.
Qed.

(** C2. The extractor is a total function of the content (and of the
    day's date string) whose result is never the empty string. On empty
    or white-space-only content the result is the date-based default,
    the literal prefix of the source followed by the date string. When
    the content is not blank and no heuristic yields a non-empty title,
    the same default becomes the title and goes through the final length
    limit, which leaves it as it is for a date string of at most 46 code
    units. *)
Theorem extractTitle_never_empty (content : jstr) :
  extractTitleFromContent today content <> [] /\
  (blank content = true ->
   extractTitleFromContent today content = lit "提示词_" ++ today) /\
  (blank content = false -> heuristicTitle content = [] ->
   fullTitle today content = lit "提示词_" ++ today /\
   extractTitleFromContent today content = limitTitle (lit "提示词_" ++ today) /\
   (length today <= 46 ->
    extractTitleFromContent today content = lit "提示词_" ++ today)).
Proof.
  split; [|split].
  - destruct (blank content) eqn:B.
    + rewrite (extractTitle_blank _ B).
      destruct defaultTitle_cons as [c [t ->]]; discriminate.
    + rewrite (extractTitle_not_blank _ B).
      apply limitTitle_nonempty, fullTitle_nonempty.
  - apply extractTitle_blank.
  - intros B H. destruct (extractTitle_no_heuristic _ B H) as [F E].
    split; [exact F | split; [exact E|]].
    intros L. rewrite E. apply (limitTitle_short (defaultTitle today)).
    rewrite defaultTitle_length. lia.
Qed.

(** C3. Whenever the title the extractor arrives at is longer than 50
    code units, the result is its first 50 code units followed by three
    dots, 53 code units in all; a title of at most 50 code units is
    returned as it is. This holds for every content that is not blank,
    and for blank content too when the date string has at most 46 code
    units (the early return does not pass through the limit). *)
Theorem title_length_limit (content : jstr) :
  blank content = false \/ length today <= 46 ->
  (50 < length (extractedTitle today content) ->
   extractTitleFromContent today content
     = firstn 50 (extractedTitle today content) ++ lit "..." /\
   length (extractTitleFromContent today content) = 53) /\
  (length (extractedTitle today content) <= 50 ->
   extractTitleFromContent today content = extractedTitle today content).
Proof.
  intros H. unfold extractedTitle. destruct (blank content) eqn:B.
  - destruct H as [H|H]; [discriminate|].
    rewrite (extractTitle_blank _ B). split.
    + rewrite defaultTitle_length. lia.
    + reflexivity.
  - rewrite (extractTitle_not_blank _ B). split.
    + intros L. rewrite (limitTitle_long _ L). split; [reflexivity|].
      rewrite length_app, length_firstn. change (length (lit "...")) with 3. lia.
    + apply limitTitle_short.
Qed.

End TitleProperties.

Lemma extractTitle_never_empty_witness :
  extractTitleFromContent (lit "2026/11/2") (lit "   ") = lit "提示词_2026/11/2" /\
  extractTitleFromContent (lit "2026/11/2") (lit "<a></a>") = lit "提示词_2026/11/2".
Proof.
  split.
  - apply (proj1 (proj2 (extractTitle_never_empty (lit "2026/11/2") (lit "   ")))).
    reflexivity.
  - apply (proj2 (proj2 (extractTitle_never_empty (lit "2026/11/2") (lit "<a></a>")))).
    + reflexivity.
    + reflexivity.
    + vm_compute. lia.
Defined.

Lemma title_length_limit_witness :
  extractTitleFromContent (lit "2026/11/2")
    (lit "# A title that keeps going well past the fifty code units allowed")
  = lit "A title that keeps going well past the fifty code ...".
Proof.
  apply (proj1 (title_length_limit (lit "2026/11/2")
    (lit "# A title that keeps going well past the fifty code units allowed")
    (or_introl eq_refl))).
  vm_compute. lia.
Defined.

(** C5. A first line that starts with the heading [# Role:] and has no
    space after the colon loses the first code unit of the text that
    follows the heading: the source cuts eight code units where the
    heading has seven. With one space after the colon nothing is lost. *)
Theorem role_heading_cuts_eight (today : jstr) :
  extractTitleFromContent today (lit "# Role:Assistant") = lit "ssistant" /\
  extractTitleFromContent today (lit "# Role: Assistant") = lit "Assistant".
Proof. split; vm_compute; reflexivity. Qed.

(** C6. A [title='role'] attribute that is not the first attribute of its
    tag is not seen by the role patterns: the title then comes from the
    first text between tags. The same element with the attribute first
    gives its content. *)
Theorem role_attribute_only_first (today : jstr) :
  extractTitleFromContent today
    (lit "<doc><p>Intro</p><div class='x' title='role'>Helper</div></doc>")
  = lit "Intro" /\
  extractTitleFromContent today
    (lit "<doc><p>Intro</p><div title='role' class='x'>Helper</div></doc>")
  = lit "Helper".
Proof. split; vm_compute; reflexivity. Qed.

(** C7. Markup whose first text between tags is white space only (here
    the line break and indentation after the root tag) gets the default
    title although a later segment, [Hello], is not blank: only the first
    match of the pattern is looked at. *)
Theorem blank_first_segment_gives_default (today : jstr) :
  let content :=
    lit "<root>" ++ [10%N] ++ lit "  <a>Hello</a>" ++ [10%N] ++ lit "</root>" in
  match_all false Patterns.interTag content
    = Some [[62; 10; 32; 32; 60]; lit ">Hello<"; [62; 10; 60]]%N /\
  heuristicTitle content = [] /\
  extractTitleFromContent today content = limitTitle (lit "提示词_" ++ today) /\
  extractTitleFromContent (lit "2026/11/2") content = lit "提示词_2026/11/2".
Proof.
  intros content.
  assert (H : heuristicTitle content = []) by (vm_compute; reflexivity).
  split; [vm_compute; reflexivity | split; [exact H | split]].
  - apply (extractTitle_no_heuristic today content); [reflexivity | exact H].
  - vm_compute; reflexivity.
Qed.

(** ** JSON.parse *)

Module JsonFacts.
Import Json.

Lemma skip_ws_length (s : jstr) : length (skip_ws s) <= length s.
Proof.
  induction s as [|c t IH]; simpl; [lia|].
  destruct (is_ws c); simpl; lia.
Qed.

Lemma starts_length (c : N) (s : jstr) :
  starts c s = true -> length s = S (length (tl s)).
Proof. destruct s; simpl; [discriminate | reflexivity]. Qed.

Lemma string_body_length (n : nat) :
  forall s body rest,
    length s <= n -> string_body s = Some (body, rest) -> length rest < length s.
Proof.
  induction n as [|n IH]; intros s body rest L H.
  - destruct s; [discriminate | simpl in L; lia].
  - destruct s as [|c t]; [discriminate|]. simpl in L. simpl in H.
    destruct (c =? 34)%N.
    { injection H as _ <-. simpl. lia. }
    destruct (c =? 92)%N.
    { destruct t as [|e t1]; [discriminate|]. simpl in L.
      destruct (e =? 117)%N.
      - destruct t1 as [|h1 [|h2 [|h3 [|h4 t2]]]]; try discriminate.
        simpl in L. destruct (hex4 h1 h2 h3 h4); [|discriminate].
        destruct (string_body t2) as [[b r]|] eqn:E; [|discriminate].
        injection H as _ <-. apply IH in E; simpl; lia.
      - destruct (unescape e); [|discriminate].
        destruct (string_body t1) as [[b r]|] eqn:E; [|discriminate].
        injection H as _ <-. apply IH in E; simpl; lia. }
    destruct (c <? 32)%N; [discriminate|].
    destruct (string_body t) as [[b r]|] eqn:E; [|discriminate].
    injection H as _ <-. apply IH in E; simpl; lia.
Qed.

Lemma digits_length (s : jstr) : length (snd (digits s)) <= length s.
Proof.
  induction s as [|c t IH]; simpl; [lia|].
  destruct (is_digit c); simpl; [|lia].
  destruct (digits t); simpl in *; lia.
Qed.

Lemma sign_length (m : N) (p : option N) (s : jstr) :
  length (snd (sign m p s)) <= length s.
Proof.
  unfold sign. destruct s as [|c t]; simpl; [lia|].
  destruct (c =? m)%N; simpl; [lia|].
  destruct p as [q|]; simpl; [|lia]. destruct (c =? q)%N; simpl; lia.
Qed.

Lemma number_literal_length (s : jstr) (n : number) (rest : jstr) :
  number_literal s = Some (n, rest) -> length rest <= length s.
Proof.
  unfold number_literal. pose proof (sign_length 45 None s) as H0.
  destruct (sign 45 None s) as [neg s1]. simpl in H0.
  destruct (int_part s1) as [[ints s2]|] eqn:I; [|discriminate].
  assert (H1 : length s2 <= length s1).
  { unfold int_part in I. destruct s1 as [|c t]; [discriminate|].
    destruct (c =? 48)%N; [injection I as _ <-; simpl; lia|].
    destruct (is_digit c); [|discriminate].
    pose proof (digits_length (c :: t)) as D.
    destruct (digits (c :: t)) as [a b]. injection I as _ <-. exact D. }
  destruct (frac_part s2) as [[fracs s3]|] eqn:F; [|discriminate].
  assert (H2 : length s3 <= length s2).
  { unfold frac_part in F. destruct s2 as [|c t]; [injection F as _ <-; lia|].
    destruct (c =? 46)%N; [|injection F as _ <-; lia].
    pose proof (digits_length t) as D. destruct (digits t) as [[|f fs] r];
      [discriminate|]. injection F as _ <-. simpl in *. lia. }
  destruct (exp_part s3) as [[e s4]|] eqn:E; [|discriminate].
  assert (H3 : length s4 <= length s3).
  { unfold exp_part in E. destruct s3 as [|c t]; [injection E as _ <-; lia|].
    destruct ((c =? 69)%N || (c =? 101)%N); [|injection E as _ <-; lia].
    pose proof (sign_length 45 (Some 43%N) t) as S1.
    destruct (sign 45 (Some 43%N) t) as [eneg t1]. simpl in S1.
    pose proof (digits_length t1) as D. destruct (digits t1) as [[|d ds] r];
      [discriminate|]. injection E as _ <-. simpl in *. lia. }
  intros H. injection H as _ <-. lia.
Qed.

Lemma skipn_shorter (n : nat) (s : jstr) : length (skipn n s) <= length s.
Proof. rewrite length_skipn. lia. Qed.

Lemma scalar_length (s : jstr) (v : value) (rest : jstr) :
  scalar s = Parsed v rest -> length rest <= length s.
Proof.
  unfold scalar. destruct s as [|c t]; [discriminate|].
  destruct (c =? 34)%N.
  { destruct (string_body t) as [[b r]|] eqn:E; [|discriminate].
    intros H. injection H as _ <-.
    apply (string_body_length (length t)) in E; simpl; lia. }
  destruct (startsWith (lit "true") (c :: t)).
  { intros H. injection H as _ <-. exact (skipn_shorter 4 (c :: t)). }
  destruct (startsWith (lit "false") (c :: t)).
  { intros H. injection H as _ <-. exact (skipn_shorter 5 (c :: t)). }
  destruct (startsWith (lit "null") (c :: t)).
  { intros H. injection H as _ <-. exact (skipn_shorter 4 (c :: t)). }
  destruct (number_literal (c :: t)) as [[n r]|] eqn:E; [|discriminate].
  intros H. injection H as _ <-. apply number_literal_length in E. exact E.
Qed.

Lemma scalar_not_exhausted (s : jstr) : scalar s <> Exhausted.
Proof.
  unfold scalar. destruct s as [|c t]; [discriminate|].
  destruct (c =? 34)%N.
  { destruct (string_body t) as [[b r]|]; discriminate. }
  destruct (startsWith (lit "true") (c :: t)); [discriminate|].
  destruct (startsWith (lit "false") (c :: t)); [discriminate|].
  destruct (startsWith (lit "null") (c :: t)); [discriminate|].
  destruct (number_literal (c :: t)) as [[n r]|]; discriminate.
Qed.

Ltac measure x :=
  let H := fresh "W" in pose proof (skip_ws_length x) as H.

Ltac branch c x :=
  let E := fresh "E" in
  destruct (starts c x) eqn:E; [apply starts_length in E|].

Lemma fuel_adequate (fuel : nat) : adequate fuel.
Proof.
  induction fuel as [|f [IHv [IHe IHm]]].
  - repeat split; intros; simpl in *; try discriminate; lia.
  - split; [|split].
    + intros s. simpl json_value. cbv zeta. measure s.
      branch 91%N (skip_ws s).
      { measure (tl (skip_ws s)). branch 93%N (skip_ws (tl (skip_ws s))).
        - split; [discriminate|]. intros v r H. injection H as _ <-. lia.
        - destruct (IHe (skip_ws (tl (skip_ws s))) []) as [A B]. split.
          + intros L. apply A. lia.
          + intros v r H. apply B in H. lia. }
      branch 123%N (skip_ws s).
      { measure (tl (skip_ws s)). branch 125%N (skip_ws (tl (skip_ws s))).
        - split; [discriminate|]. intros v r H. injection H as _ <-. lia.
        - destruct (IHm (skip_ws (tl (skip_ws s))) []) as [A B]. split.
          + intros L. apply A. lia.
          + intros v r H. apply B in H. lia. }
      split; [intros _; apply scalar_not_exhausted|].
      intros v r H. apply scalar_length in H. lia.
    + intros s acc. simpl elements. cbv zeta.
      destruct (IHv s) as [A B].
      destruct (json_value f s) as [v rest| |] eqn:J.
      * specialize (B v rest eq_refl). measure rest.
        branch 44%N (skip_ws rest).
        { destruct (IHe (tl (skip_ws rest)) (acc ++ [v])) as [A' B']. split.
          - intros L. apply A'. lia.
          - intros v' r H. apply B' in H. lia. }
        branch 93%N (skip_ws rest).
        { split; [discriminate|]. intros v' r H. injection H as _ <-. lia. }
        split; discriminate.
      * split; discriminate.
      * split; [|discriminate]. intros L. apply A. lia.
    + intros s acc. simpl members. cbv zeta. measure s.
      branch 34%N (skip_ws s); [|split; discriminate].
      destruct (string_body (tl (skip_ws s))) as [[key rest]|] eqn:K;
        [|split; discriminate].
      apply (string_body_length (length (tl (skip_ws s)))) in K; [|lia].
      measure rest. branch 58%N (skip_ws rest); [|split; discriminate].
      destruct (IHv (tl (skip_ws rest))) as [A B].
      destruct (json_value f (tl (skip_ws rest))) as [v rest'| |] eqn:J.
      * specialize (B v rest' eq_refl). measure rest'.
        branch 44%N (skip_ws rest').
        { destruct (IHm (tl (skip_ws rest')) (define_property key v acc))
            as [A' B']. split.
          - intros L. apply A'. lia.
          - intros v' r H. apply B' in H. lia. }
        branch 125%N (skip_ws rest').
        { split; [discriminate|]. intros v' r H. injection H as _ <-. lia. }
        split; discriminate.
      * split; discriminate.
      * split; [|discriminate]. intros L. apply A. lia.
Qed.

(** The fuel [text] hands to the descent is never used up: a text is
    either parsed or malformed. *)
Theorem text_not_exhausted (s : jstr) : text s <> Exhausted.
Proof.
  unfold text. destruct (fuel_adequate (2 * length s + 2)) as [V _].
  destruct (V s) as [A _].
  destruct (json_value (2 * length s + 2) s) as [v rest| |] eqn:J.
  - destruct (skip_ws rest); discriminate.
  - discriminate.
  - apply A. lia.
Qed.
End JsonFacts.

(** ** The conversation validator *)

Lemma missingFieldMessage_nonempty (n : nat) : missingFieldMessage n <> [].
Proof.
  unfold missingFieldMessage. destruct (lit "第") eqn:E.
  - vm_compute in E. discriminate.
  - discriminate.
Qed.

Lemma badRoleMessage_nonempty (n : nat) : badRoleMessage n <> [].
Proof.
  unfold badRoleMessage. destruct (lit "第") eqn:E.
  - vm_compute in E. discriminate.
  - discriminate.
Qed.

Lemma arrayMessage_nonempty : lit "必须是数组格式" <> [].
Proof. vm_compute. discriminate. Qed.

Lemma has_truthy_read (x : value) (f : field) : has_truthy x f = truthy (read x f).
Proof.
  unfold has_truthy, read. destruct (own_property x (field_name f)); reflexivity.
Qed.

Lemma unknown_role_read (x : value) :
  unknown_role x = negb (includes_value roles (read x role)).
Proof.
  unfold unknown_role, read. change (field_name role) with (lit "role").
  destruct (own_property x (lit "role")) as [[]|]; reflexivity.
Qed.

Lemma turn_ok_well_formed (x : value) : turn_ok x = true <-> well_formed_turn x.
Proof.
  unfold turn_ok, lacks_field, well_formed_turn.
  rewrite !has_truthy_read, unknown_role_read. unfold read.
  change (field_name role) with (lit "role").
  change (field_name content) with (lit "content").
  split.
  - intros H. apply andb_true_iff in H. destruct H as [H1 H2].
    apply negb_true_iff, orb_false_iff in H1. destruct H1 as [Hr Hc].
    apply negb_false_iff in Hr, Hc. apply negb_true_iff, negb_false_iff in H2.
    destruct (own_property x (lit "role")) as [r|]; [|discriminate].
    destruct (own_property x (lit "content")) as [c|]; [|discriminate].
    exists r, c. repeat split; try assumption.
    destruct r; try discriminate.
    change (includes s roles = true) in H2. apply includes_In in H2.
    simpl in H2. intuition (subst; auto).
  - intros [r [c [-> [Tr [Hr [-> Tc]]]]]]. rewrite Tr, Tc. simpl.
    apply negb_true_iff, negb_false_iff.
    destruct Hr as [-> | [-> | ->]]; vm_compute; reflexivity.
Qed.

Section ValidatorProperties.
Variable syntaxErrorMessage : jstr -> jstr.
Variable typeErrorMessage : jstr.

Local Abbreviation validate :=
  (validateConversationJson syntaxErrorMessage typeErrorMessage).
Local Abbreviation parse := (JSON_parse syntaxErrorMessage).
Local Abbreviation check := (checkItems typeErrorMessage).

(** An element that is falsy is replaced by an empty object before it is
    read, so the read never throws. *)
Lemma get_item (x : value) (f : field) :
  get typeErrorMessage (if truthy x then x else VObject []) f = Return (read x f).
Proof.
  destruct x as [| |b|n|s|l|props]; simpl; try reflexivity.
  - destruct b; reflexivity.
  - destruct (number_is_zero n); reflexivity.
  - destruct s; reflexivity.
Qed.

Lemma check_cons (x : value) (others : list value) (i : nat) :
  check (x :: others) i =
  if lacks_field x then Return (missingFieldMessage (i + 1))
  else if unknown_role x then Return (badRoleMessage (i + 1))
  else check others (S i).
Proof.
  unfold lacks_field. rewrite !has_truthy_read, unknown_role_read.
  simpl checkItems. cbv zeta. rewrite !get_item. simpl bind.
  destruct (truthy (read x role)); reflexivity.
Qed.

Lemma check_total (items : list value) :
  forall i, exists e, check items i = Return e.
Proof.
  induction items as [|x others IH]; intros i.
  - exists []. reflexivity.
  - rewrite check_cons. destruct (lacks_field x); [eauto|].
    destruct (unknown_role x); [eauto | apply IH].
Qed.

Lemma check_accepts (items : list value) :
  forall i, check items i = Return [] <-> forallb turn_ok items = true.
Proof.
  induction items as [|x others IH]; intros i.
  - simpl. split; reflexivity.
  - rewrite check_cons. simpl forallb. unfold turn_ok at 1.
    destruct (lacks_field x); simpl.
    + split; [|discriminate]. intros E. injection E as E.
      destruct (missingFieldMessage_nonempty _ E).
    + destruct (unknown_role x); simpl.
      * split; [|discriminate]. intros E. injection E as E.
        destruct (badRoleMessage_nonempty _ E).
      * apply IH.
Qed.

Lemma check_nonempty (items : list value) :
  forall i e, check items i = Return e -> forallb turn_ok items = false -> e <> [].
Proof.
  intros i e H F ->. apply check_accepts in H. congruence.
Qed.

(** The loop stops at the first element that is not a well-formed turn. *)
Lemma check_first_violation (items : list value) :
  forall i k x,
    nth_error items k = Some x ->
    (forall j y, j < k -> nth_error items j = Some y -> turn_ok y = true) ->
    turn_ok x = false ->
    check items i =
    Return (if lacks_field x then missingFieldMessage (i + k + 1)
            else badRoleMessage (i + k + 1)).
Proof.
  induction items as [|a others IH]; intros i k x Hk Hbefore Hx.
  - destruct k; discriminate.
  - rewrite check_cons. destruct k as [|k]; simpl in Hk.
    + injection Hk as ->. rewrite Nat.add_0_r.
      unfold turn_ok in Hx. destruct (lacks_field x); [reflexivity|].
      simpl in Hx. apply negb_false_iff in Hx. rewrite Hx. reflexivity.
    + assert (Ha : turn_ok a = true) by (apply (Hbefore 0); [lia | reflexivity]).
      unfold turn_ok in Ha. apply andb_true_iff in Ha. destruct Ha as [L U].
      apply negb_true_iff in L, U. rewrite L, U.
      rewrite (IH (S i) k x Hk); [| |assumption].
      * replace (S i + k + 1) with (i + S k + 1) by lia. reflexivity.
      * intros j y Hj Hy. apply (Hbefore (S j)); [lia | exact Hy].
Qed.

Lemma parse_cases (raw : jstr) :
  (exists v, parse raw = Return v /\ Json.text raw = Json.Parsed v []) \/
  (parse raw = Throw (SyntaxError (syntaxErrorMessage raw)) /\
   forall v rest, Json.text raw <> Json.Parsed v rest).
Proof.
  unfold JSON_parse, Json.text.
  destruct (Json.json_value _ raw) as [v rest| |].
  - destruct (Json.skip_ws rest).
    + left. eauto.
    + right. split; [reflexivity | discriminate].
  - right. split; [reflexivity | discriminate].
  - right. split; [reflexivity | discriminate].
Qed.

Lemma validate_blank (raw : jstr) : blank raw = true -> validate raw = Return [].
Proof.
  intros B. unfold validateConversationJson.
  rewrite truthy_trim, B. reflexivity.
Qed.

Lemma validate_parsed (raw : jstr) (v : value) :
  blank raw = false -> parse raw = Return v ->
  validate raw =
  match v with
  | VArray items => check items 0
  | _ => Return (lit "必须是数组格式")
  end.
Proof.
  intros B P. unfold validateConversationJson.
  rewrite truthy_trim, B. simpl negb. cbv iota.
  rewrite P. simpl bind.
  destruct v; try reflexivity.
  destruct (check_total items 0) as [e ->]. reflexivity.
Qed.

Lemma validate_thrown (raw : jstr) (e : thrown) :
  blank raw = false -> parse raw = Throw e ->
  validate raw =
  Return (if truthy_str (message e) then message e else lit "JSON格式错误").
Proof.
  intros B P. unfold validateConversationJson.
  rewrite truthy_trim, B. simpl negb. cbv iota.
  rewrite P. reflexivity.
Qed.

Lemma well_formed_all (items : list value) :
  forallb turn_ok items = true <-> Forall well_formed_turn items.
Proof.
  rewrite forallb_forall, Forall_forall.
  split; intros H x Hx; apply turn_ok_well_formed, H, Hx.
Qed.

Lemma falsy_lacks_field (x : value) : truthy x = false -> lacks_field x = true.
Proof.
  intros T. unfold lacks_field, has_truthy.
  destruct x; try reflexivity. discriminate.
Qed.

Lemma error_text_nonempty (e : thrown) :
  (if truthy_str (message e) then message e else lit "JSON格式错误") <> [].
Proof.
  destruct (message e) eqn:M; simpl; [vm_compute|]; discriminate.
Qed.

(** Some element at or before a violating one stops the loop. *)
Lemma check_some_violation (items : list value) :
  forall i k x,
    nth_error items k = Some x -> turn_ok x = false ->
    exists j y,
      j <= k /\ nth_error items j = Some y /\
      check items i =
      Return (if lacks_field y then missingFieldMessage (i + j + 1)
              else badRoleMessage (i + j + 1)).
Proof.
  induction items as [|a others IH]; intros i k x Hk Hx.
  - destruct k; discriminate.
  - destruct (turn_ok a) eqn:Ha.
    + destruct k as [|k]; simpl in Hk; [injection Hk as ->; congruence|].
      destruct (IH (S i) k x Hk Hx) as [j [y [Hj [Hy E]]]].
      exists (S j), y. split; [lia | split; [exact Hy|]].
      rewrite check_cons. unfold turn_ok in Ha.
      apply andb_true_iff in Ha. destruct Ha as [L U].
      apply negb_true_iff in L, U. rewrite L, U, E.
      replace (S i + j + 1) with (i + S j + 1) by lia. reflexivity.
    + exists 0, a. split; [lia | split; [reflexivity|]].
      apply (check_first_violation (a :: others) i 0 a);
        [reflexivity | intros; lia | exact Ha].
Qed.

(** C1. The validator returns the empty string exactly when the input is
    blank, or parses as a JSON array all of whose elements have a truthy
    [role] that is one of the three role names and a truthy [content];
    on every other input it returns a string that is not empty. *)
Theorem validate_accepts_exactly (raw : jstr) :
  (validate raw = Return [] <->
   blank raw = true \/
   exists items,
     parse raw = Return (VArray items) /\ Forall well_formed_turn items) /\
  (~ (blank raw = true \/
      exists items,
        parse raw = Return (VArray items) /\ Forall well_formed_turn items) ->
   exists e, validate raw = Return e /\ e <> []).
Proof.
  assert (Fwd : validate raw = Return [] ->
                blank raw = true \/
                exists items,
                  parse raw = Return (VArray items) /\
                  Forall well_formed_turn items).
  { intros H. destruct (blank raw) eqn:B; [left; reflexivity | right].
    destruct (parse_cases raw) as [[v [P _]] | [P _]].
    - rewrite (validate_parsed raw v B P) in H.
      destruct v;
      try (injection H as H; destruct (arrayMessage_nonempty H)).
      exists items. split; [exact P|].
      apply well_formed_all, (check_accepts items 0), H.
    - rewrite (validate_thrown raw _ B P) in H. injection H as H.
      destruct (error_text_nonempty (SyntaxError (syntaxErrorMessage raw)) H). }
  split; [split; [exact Fwd|] |].
  - intros [B | [items [P W]]]; [apply validate_blank, B|].
    destruct (blank raw) eqn:B; [apply validate_blank, B|].
    rewrite (validate_parsed raw _ B P).
    apply check_accepts, well_formed_all, W.
  - intros NV.
    destruct (blank raw) eqn:B; [destruct NV; left; reflexivity|].
    destruct (parse_cases raw) as [[v [P _]] | [P _]].
    + rewrite (validate_parsed raw v B P).
      assert (A : forall items, v = VArray items ->
                  exists e, check items 0 = Return e /\ e <> []).
      { intros items ->. destruct (check_total items 0) as [e E].
        exists e. split; [exact E|]. intros ->.
        apply NV. right. exists items. split; [exact P|].
        apply well_formed_all, (check_accepts items 0), E. }
      destruct v;
      try (eexists; split; [reflexivity | exact arrayMessage_nonempty]).
      apply A. reflexivity.
    + rewrite (validate_thrown raw _ B P). eexists. split; [reflexivity|].
      apply error_text_nonempty.
Qed.

(** C4. On an input that is not blank the validator returns one string,
    chosen in this order: when parsing throws, the message of the thrown
    error (a fixed text when the message is empty); otherwise, when the
    parsed value is not an array, the array-shape message; otherwise the
    message for the first element, in order, that is not a well-formed
    turn, which is the missing-field message when [role] or [content] is
    absent or falsy and the role-value message only when both are
    present, and which carries the element's index counted from 1. *)
Theorem validate_reports_first_violation (raw : jstr) :
  blank raw = false ->
  (forall e, parse raw = Throw e ->
     validate raw =
     Return (if truthy_str (message e) then message e else lit "JSON格式错误")) /\
  (forall v, parse raw = Return v -> is_array v = false ->
     validate raw = Return (lit "必须是数组格式")) /\
  (forall items k x,
     parse raw = Return (VArray items) ->
     nth_error items k = Some x ->
     (forall j y, j < k -> nth_error items j = Some y -> turn_ok y = true) ->
     turn_ok x = false ->
     validate raw =
     Return (if lacks_field x
             then lit "第" ++ nat_to_jstr (k + 1) ++ lit "条消息缺少role或content字段"
             else lit "第" ++ nat_to_jstr (k + 1)
                  ++ lit "条消息的role必须是user、assistant或system")).
Proof.
  intros B. split; [|split].
  - intros e P. apply validate_thrown; assumption.
  - intros v P A. rewrite (validate_parsed raw v B P).
    destruct v; try reflexivity. discriminate.
  - intros items k x P Hk Hbefore Hx. rewrite (validate_parsed raw _ B P).
    apply (check_first_violation items 0 k x Hk Hbefore Hx).
Qed.

(** C10. The validator returns a string on every input and never
    throws: the loop over the parsed elements cannot throw at all, and
    the error [JSON.parse] throws is caught and its message returned (a
    fixed text when the message is empty). An element of the parsed
    array that is falsy is read as an object without properties: it counts
    as lacking [role] or [content], the validator returns a per-item
    message for an index no greater than this element's, and when every
    earlier element is a well-formed turn that message is the
    missing-field message with this element's index counted from 1. *)
Theorem validate_never_throws (raw : jstr) :
  (exists e, validate raw = Return e) /\
  (forall items i, exists e, check items i = Return e) /\
  (blank raw = false ->
   forall err, parse raw = Throw err ->
     validate raw =
     Return (if truthy_str (message err) then message err
             else lit "JSON格式错误")) /\
  (blank raw = false ->
   forall items k x,
     parse raw = Return (VArray items) ->
     nth_error items k = Some x -> truthy x = false ->
     (forall f, get typeErrorMessage (if truthy x then x else VObject []) f
                = Return VUndefined) /\
     (exists j y,
        j <= k /\ nth_error items j = Some y /\
        validate raw =
        Return (if lacks_field y then missingFieldMessage (j + 1)
                else badRoleMessage (j + 1))) /\
     ((forall j y, j < k -> nth_error items j = Some y -> turn_ok y = true) ->
      validate raw = Return (missingFieldMessage (k + 1)))).
Proof.
  split; [|split; [|split]].
  - destruct (blank raw) eqn:B; [exists []; apply validate_blank, B|].
    destruct (parse_cases raw) as [[v [P _]] | [P _]].
    + rewrite (validate_parsed raw v B P).
      destruct v; try (eexists; reflexivity). apply check_total.
    + rewrite (validate_thrown raw _ B P). eexists; reflexivity.
  - intros items i. apply check_total.
  - intros B err P. apply validate_thrown; assumption.
  - intros B items k x P Hk T.
    assert (L : lacks_field x = true) by (apply falsy_lacks_field, T).
    assert (X : turn_ok x = false) by (unfold turn_ok; rewrite L; reflexivity).
    split; [|split].
    + intros f. rewrite T. reflexivity.
    + destruct (check_some_violation items 0 k x Hk X) as [j [y [Hj [Hy E]]]].
      exists j, y. split; [exact Hj | split; [exact Hy|]].
      rewrite (validate_parsed raw _ B P). exact E.
    + intros Hbefore. rewrite (validate_parsed raw _ B P).
      rewrite (check_first_violation items 0 k x Hk Hbefore X), L. reflexivity.
Qed.

End ValidatorProperties.

Lemma validate_accepts_exactly_witness :
  validateConversationJson (fun _ => lit "Unexpected token") (lit "Cannot read properties")
    (json "[{'role':'user','content':'hi'},{'role':'assistant','content':'hello'}]")
  = Return [].
Proof.
  apply (proj1 (validate_accepts_exactly _ _ _)). right.
  exists [VObject [(lit "role", VString (lit "user"));
                   (lit "content", VString (lit "hi"))];
          VObject [(lit "role", VString (lit "assistant"));
                   (lit "content", VString (lit "hello"))]].
  split; [vm_compute; reflexivity|].
  apply well_formed_all. vm_compute. reflexivity.
Defined.

Lemma validate_reports_first_violation_witness :
  let validate :=
    validateConversationJson (fun _ => lit "Unexpected token")
                             (lit "Cannot read properties") in
  validate (json "[1,]") = Return (lit "Unexpected token") /\
  validate (json "{'not':'an array'}") = Return (lit "必须是数组格式") /\
  validate (json "[{'role':'user','content':'x'},{'role':'bogus','content':'x'}]")
    = Return (lit "第2条消息的role必须是user、assistant或system") /\
  validate (json "[{'content':'x'}]") = Return (lit "第1条消息缺少role或content字段").
Proof.
  intros validate. subst validate. split; [|split; [|split]].
  - etransitivity.
    + apply (proj1 (validate_reports_first_violation _ _ (json "[1,]")
                      ltac:(vm_compute; reflexivity))
                   (SyntaxError (lit "Unexpected token"))).
      vm_compute. reflexivity.
    + vm_compute. reflexivity.
  - etransitivity.
    + apply (proj1 (proj2 (validate_reports_first_violation _ _
                             (json "{'not':'an array'}")
                             ltac:(vm_compute; reflexivity)))
                   (VObject [(lit "not", VString (lit "an array"))])).
      * vm_compute. reflexivity.
      * reflexivity.
    + reflexivity.
  - etransitivity.
    + apply (proj2 (proj2 (validate_reports_first_violation _ _
               (json "[{'role':'user','content':'x'},{'role':'bogus','content':'x'}]")
               ltac:(vm_compute; reflexivity)))
               [VObject [(lit "role", VString (lit "user"));
                         (lit "content", VString (lit "x"))];
                VObject [(lit "role", VString (lit "bogus"));
                         (lit "content", VString (lit "x"))]]
               1
               (VObject [(lit "role", VString (lit "bogus"));
                         (lit "content", VString (lit "x"))])).
      * vm_compute. reflexivity.
      * reflexivity.
      * intros j y Hj Hy. destruct j as [|j]; [|lia].
        injection Hy as <-. vm_compute. reflexivity.
      * vm_compute. reflexivity.
    + vm_compute. reflexivity.
  - etransitivity.
    + apply (proj2 (proj2 (validate_reports_first_violation _ _
               (json "[{'content':'x'}]") ltac:(vm_compute; reflexivity)))
               [VObject [(lit "content", VString (lit "x"))]] 0
               (VObject [(lit "content", VString (lit "x"))])).
      * vm_compute. reflexivity.
      * reflexivity.
      * intros j y Hj. lia.
      * vm_compute. reflexivity.
    + vm_compute. reflexivity.
Defined.

Lemma validate_never_throws_witness :
  validateConversationJson (fun _ => lit "Unexpected token") (lit "Cannot read properties")
    (json "[{'role':'user','content':'x'}, null]")
  = Return (lit "第2条消息缺少role或content字段").
Proof.
  destruct (validate_never_throws (fun _ => lit "Unexpected token")
              (lit "Cannot read properties")
              (json "[{'role':'user','content':'x'}, null]")) as [_ [_ [_ H]]].
  assert (B : blank (json "[{'role':'user','content':'x'}, null]") = false)
    by (vm_compute; reflexivity).
  destruct (H B [VObject [(lit "role", VString (lit "user"));
                          (lit "content", VString (lit "x"))]; VNull]
              1 VNull) as [_ [_ H']].
  - vm_compute. reflexivity.
  - reflexivity.
  - reflexivity.
  - etransitivity.
    + apply H'. intros j y Hj Hy. destruct j as [|j]; [|lia].
      injection Hy as <-. vm_compute. reflexivity.
    + vm_compute. reflexivity.
Defined.

(** ** Formatting the conversation history *)

Section FormatProperties.
Variable syntaxErrorMessage : jstr -> jstr.
Variable JSON_stringify : value -> nat -> jstr.

Local Abbreviation format :=
  (formatConversationJson syntaxErrorMessage JSON_stringify).
Local Abbreviation parse := (JSON_parse syntaxErrorMessage).

Lemma format_blank (d : dialog) :
  blank (conversationHistory d) = true -> format d = (Return tt, d).
Proof.
  intros B. unfold formatConversationJson. rewrite truthy_trim, B. reflexivity.
Qed.

Lemma format_thrown (d : dialog) (e : thrown) :
  blank (conversationHistory d) = false ->
  parse (conversationHistory d) = Throw e ->
  format d =
  (Return tt,
   Dialog (newTag d) (tags d) (conversationHistory d) (lit "JSON格式错误，无法格式化")).
Proof.
  intros B P. unfold formatConversationJson. rewrite truthy_trim, B.
  simpl negb. cbv iota.
  unfold try_catch_handler, seq, eval. rewrite P. reflexivity.
Qed.

Lemma format_parsed (d : dialog) (v : value) :
  blank (conversationHistory d) = false ->
  parse (conversationHistory d) = Return v ->
  format d = (Return tt, Dialog (newTag d) (tags d) (JSON_stringify v 2) []).
Proof.
  intros B P. unfold formatConversationJson. rewrite truthy_trim, B.
  simpl negb. cbv iota.
  unfold try_catch_handler, seq, eval. rewrite P. reflexivity.
Qed.

(** C8. The formatting handler never throws. When the stored history is
    not blank and [JSON.parse] rejects it, the handler sets the
    formatting-error text and leaves the stored history, like the rest of
    the state, as it was. When [JSON.parse] accepts it, the history is
    replaced by [JSON.stringify] of the parsed value with indent 2 and the
    error is cleared. The stored history changes in no other case. *)
Theorem format_keeps_history_on_error (d : dialog) :
  (exists d', format d = (Return tt, d')) /\
  (blank (conversationHistory d) = false ->
   (forall v, parse (conversationHistory d) <> Return v) ->
   format d =
   (Return tt,
    Dialog (newTag d) (tags d) (conversationHistory d)
           (lit "JSON格式错误，无法格式化")) /\
   conversationHistory (snd (format d)) = conversationHistory d /\
   conversationFormatError (snd (format d)) <> []) /\
  (blank (conversationHistory d) = false ->
   forall v, parse (conversationHistory d) = Return v ->
   format d = (Return tt, Dialog (newTag d) (tags d) (JSON_stringify v 2) [])) /\
  (conversationHistory (snd (format d)) <> conversationHistory d ->
   exists v,
     parse (conversationHistory d) = Return v /\
     conversationHistory (snd (format d)) = JSON_stringify v 2).
Proof.
  destruct (blank (conversationHistory d)) eqn:B.
  - rewrite (format_blank d B). split; [eauto|].
    split; [discriminate|]. split; [discriminate|].
    intros H. destruct H. reflexivity.
  - destruct (parse (conversationHistory d)) as [v|e] eqn:P.
    + rewrite (format_parsed d v B P). split; [eauto|]. split; [|split].
      * intros _ H. destruct (H v eq_refl).
      * intros _ v' E. injection E as <-. reflexivity.
      * intros _. exists v. split; reflexivity.
    + rewrite (format_thrown d e B P). split; [eauto|]. split; [|split].
      * intros _ _. split; [reflexivity|]. split; [reflexivity|].
        simpl. intros E. vm_compute in E. discriminate.
      * intros _ v' E. discriminate.
      * simpl. intros H. destruct H. reflexivity.
Qed.

End FormatProperties.

Lemma format_keeps_history_on_error_witness :
  formatConversationJson (fun _ => lit "Unexpected token") (fun _ _ => lit "[]")
    (Dialog [] [lit "a"] (json "[{'role':'user',}]") [])
  = (Return tt,
     Dialog [] [lit "a"] (json "[{'role':'user',}]") (lit "JSON格式错误，无法格式化")).
Proof.
  apply (proj1 (proj2 (format_keeps_history_on_error
                         (fun _ => lit "Unexpected token") (fun _ _ => lit "[]")
                         (Dialog [] [lit "a"] (json "[{'role':'user',}]") [])))).
  - vm_compute. reflexivity.
  - intros v. vm_compute. discriminate.
Defined.

(** ** The tag editor *)

Lemma addTag_tags (d : dialog) :
  tags (snd (addTag d)) =
  if truthy_str (trim (newTag d)) && negb (includes (trim (newTag d)) (tags d))
     && (length (tags d) <? 10)
  then tags d ++ [trim (newTag d)]
  else tags d.
Proof.
  unfold addTag.
  destruct (truthy_str (trim (newTag d)) && negb (includes (trim (newTag d)) (tags d))
            && (length (tags d) <? 10)); reflexivity.
Qed.

Lemma addTag_preserves (d : dialog) : tags_ok (tags d) -> tags_ok (tags (snd (addTag d))).
Proof.
  intros [ND [NB LE]]. rewrite addTag_tags.
  destruct (truthy_str (trim (newTag d)) && negb (includes (trim (newTag d)) (tags d))
            && (length (tags d) <? 10)) eqn:C; [|repeat split; assumption].
  apply andb_true_iff in C. destruct C as [C L].
  apply andb_true_iff in C. destruct C as [T I].
  apply Nat.ltb_lt in L. apply negb_true_iff in I.
  rewrite truthy_trim in T. apply negb_true_iff in T.
  repeat split.
  - apply NoDup_app; [assumption | repeat constructor; intros [] |].
    intros a Ha [<-|[]]. apply includes_In in Ha. congruence.
  - apply Forall_app. split; [assumption|].
    constructor; [|constructor]. rewrite blank_trim. exact T.
  - rewrite length_app. simpl. lia.
Qed.

Lemma removeTag_preserves (tag : jstr) (d : dialog) :
  tags_ok (tags d) -> tags_ok (tags (snd (removeTag tag d))).
Proof.
  intros [ND [NB LE]]. simpl. repeat split.
  - apply NoDup_filter, ND.
  - rewrite Forall_forall in *. intros t Ht. apply filter_In in Ht. apply NB, Ht.
  - pose proof (filter_length_le (fun t => negb (jstr_eqb t tag)) (tags d)). lia.
Qed.

Lemma perform_preserves (a : tag_action) (d : dialog) :
  tags_ok (tags d) -> tags_ok (tags (snd (perform a d))).
Proof.
  destruct a; simpl perform.
  - intros H. exact H.
  - apply addTag_preserves.
  - apply removeTag_preserves.
Qed.

Lemma perform_all_preserves (actions : list tag_action) :
  forall d, tags_ok (tags d) -> tags_ok (tags (perform_all actions d)).
Proof.
  induction actions as [|a others IH]; intros d H; simpl.
  - exact H.
  - apply IH, perform_preserves, H.
Qed.

(** C9. Starting from an empty tag list, whatever the user types, adds and
    removes, the tag list has no duplicates, no blank entry and at most 10
    entries; from any state with such a list the same holds afterwards.
    Adding when the typed text is blank, or its trimmed form is already a
    tag, or there are 10 tags already, changes nothing in the state. No
    handler throws. *)
Theorem tags_invariant (actions : list tag_action) (d : dialog) :
  (tags d = [] -> tags_ok (tags (perform_all actions d))) /\
  (tags_ok (tags d) -> tags_ok (tags (perform_all actions d))) /\
  (blank (newTag d) = true \/ In (trim (newTag d)) (tags d)
   \/ 10 <= length (tags d) ->
   addTag d = (Return tt, d)) /\
  (forall a, fst (perform a d) = Return tt).
Proof.
  split; [|split; [|split]].
  - intros E. apply perform_all_preserves. rewrite E.
    repeat split; [constructor | constructor | simpl; lia].
  - apply perform_all_preserves.
  - intros H. unfold addTag.
    destruct (truthy_str (trim (newTag d)) && negb (includes (trim (newTag d)) (tags d))
              && (length (tags d) <? 10)) eqn:C; [|reflexivity].
    apply andb_true_iff in C. destruct C as [C L].
    apply andb_true_iff in C. destruct C as [T I].
    apply Nat.ltb_lt in L. apply negb_true_iff in I.
    rewrite truthy_trim in T. apply negb_true_iff in T.
    destruct H as [H|[H|H]]; [congruence | | lia].
    apply includes_In in H. congruence.
  - intros a. destruct a; simpl; [reflexivity | | reflexivity].
    unfold addTag.
    destruct (truthy_str (trim (newTag d)) && negb (includes (trim (newTag d)) (tags d))
              && (length (tags d) <? 10)); reflexivity.
Qed.

Lemma tags_invariant_witness :
  tags (perform_all [TypeNewTag (lit " a "); AddTag; TypeNewTag (lit "a"); AddTag;
                     TypeNewTag (lit "b"); AddTag; TypeNewTag (lit "  "); AddTag;
                     RemoveTag (lit "a")]
                    (Dialog [] [] [] []))
  = [lit "b"] /\
  tags_ok [lit "b"] /\
  addTag (Dialog (lit " a ") [lit "a"] [] []) = (Return tt, Dialog (lit " a ") [lit "a"] [] []).
Proof.
  split; [vm_compute; reflexivity | split].
  - apply (proj1 (tags_invariant
             [TypeNewTag (lit " a "); AddTag; TypeNewTag (lit "a"); AddTag;
              TypeNewTag (lit "b"); AddTag; TypeNewTag (lit "  "); AddTag;
              RemoveTag (lit "a")]
             (Dialog [] [] [] [])) eq_refl).
  - apply (proj1 (proj2 (proj2 (tags_invariant [] (Dialog (lit " a ") [lit "a"] [] []))))).
    right. left. vm_compute. left. reflexivity.
Defined.

(** * Further properties of the component *)

(** ** More on strings *)

Lemma trimEnd_idempotent (s : jstr) : trimEnd (trimEnd s) = trimEnd s.
Proof.
  induction s as [|c t IH]; simpl; [reflexivity|].
  destruct (trimEnd t) as [|x t'] eqn:E.
  - destruct (is_white_space c) eqn:W; simpl; [reflexivity|].
    rewrite W. reflexivity.
  - change (trimEnd (c :: x :: t')) with
      (match trimEnd (x :: t') with
       | [] => if is_white_space c then [] else [c]
       | u => c :: u
       end).
    rewrite IH. reflexivity.
Qed.

Lemma trimStart_unchanged (c : N) (t : jstr) :
  is_white_space c = false -> trimStart (c :: t) = c :: t.
Proof. intros W. simpl. rewrite W. reflexivity. Qed.

(** Trimming twice is trimming once. *)
Lemma trim_idempotent (s : jstr) : trim (trim s) = trim s.
Proof.
  unfold trim. destruct (trimStart s) as [|c t] eqn:E; [reflexivity|].
  pose proof (trimStart_head s c t E) as W.
  destruct (trimEnd_head [] c t W) as [t' H]. rewrite H.
  rewrite (trimStart_unchanged c t' W), <- H. apply trimEnd_idempotent.
Qed.

Lemma trim_not_blank (s : jstr) : trim s <> [] -> blank (trim s) = false.
Proof.
  intros H. rewrite blank_trim. destruct (blank s) eqn:B; [|reflexivity].
  destruct H. apply trim_nil, B.
Qed.

Lemma trimmed_not_blank (s : jstr) : trim s = s -> s <> [] -> blank s = false.
Proof. intros E H. rewrite <- E. apply trim_not_blank. rewrite E. exact H. Qed.

Lemma blank_app (a b : jstr) : blank (a ++ b) = blank a && blank b.
Proof. unfold blank. apply forallb_app. Qed.

Lemma trimEnd_app_solid (a b : jstr) :
  trimEnd b <> [] -> trimEnd (a ++ b) = a ++ trimEnd b.
Proof.
  intros H. induction a as [|c a IH]; simpl; [reflexivity|].
  rewrite IH. destruct (a ++ trimEnd b) eqn:E; [|reflexivity].
  apply app_eq_nil in E. destruct E as [_ E]. contradiction.
Qed.

(** A string that starts with a solid character and ends with a trimmed,
    non-empty tail is itself trimmed. *)
Lemma trim_cons_app (c : N) (a b : jstr) :
  is_white_space c = false -> trimEnd b = b -> b <> [] ->
  trim ((c :: a) ++ b) = (c :: a) ++ b.
Proof.
  intros W E H. unfold trim. simpl app at 1.
  rewrite (trimStart_unchanged c (a ++ b) W).
  change (c :: a ++ b) with ((c :: a) ++ b).
  rewrite trimEnd_app_solid; rewrite E; [reflexivity | exact H].
Qed.

Lemma trimStart_length (s : jstr) : length (trimStart s) <= length s.
Proof.
  induction s as [|c t IH]; simpl; [lia|].
  destruct (is_white_space c); simpl; lia.
Qed.

Lemma trimEnd_length (s : jstr) : length (trimEnd s) <= length s.
Proof.
  induction s as [|c t IH]; simpl; [lia|].
  destruct (trimEnd t); [destruct (is_white_space c)|]; simpl in *; lia.
Qed.

Lemma trimmed_head (c : N) (t : jstr) :
  trim (c :: t) = c :: t -> is_white_space c = false.
Proof.
  intros E. destruct (is_white_space c) eqn:W; [|reflexivity].
  unfold trim in E. simpl in E. rewrite W in E.
  pose proof (trimEnd_length (trimStart t)) as L1.
  pose proof (trimStart_length t) as L2.
  rewrite E in L1. simpl in L1. lia.
Qed.

Lemma trimmed_trimEnd (s : jstr) : trim s = s -> trimEnd s = s.
Proof. intros E. rewrite <- E at 1. unfold trim. rewrite trimEnd_idempotent. exact E. Qed.

(** ** More on the title extractor *)

(** The normalisation of a line that is not a role heading. *)
Lemma scanLines_cons (line : jstr) (others : list jstr) (autoTitle : jstr) :
  scanLines (line :: others) autoTitle =
  if truthy_str (trim line) then
    if startsWith (lit "# Role:") (trim line) then
      if truthy_str (trim (substring_from 8 (trim line)))
      then trim (substring_from 8 (trim line))
      else scanLines others autoTitle
    else
      if truthy_str
           (trim (replace false Patterns.numbered []
                   (replace false Patterns.dashBullet []
                     (replace false Patterns.starBullet []
                       (replace false Patterns.heading [] (trim line))))))
      then trim (replace false Patterns.numbered []
                  (replace false Patterns.dashBullet []
                    (replace false Patterns.starBullet []
                      (replace false Patterns.heading [] (trim line)))))
      else scanLines others
             (trim (replace false Patterns.numbered []
                     (replace false Patterns.dashBullet []
                       (replace false Patterns.starBullet []
                         (replace false Patterns.heading [] (trim line))))))
  else scanLines others autoTitle.
Proof. reflexivity. Qed.

Lemma tryRolePatterns_cons (pattern : regex) (others : list regex)
      (content autoTitle : jstr) :
  tryRolePatterns (pattern :: others) content autoTitle =
  match truthy_capture 1 (match_first true pattern content) with
  | Some g =>
      if truthy_str (trim (replace true Patterns.roleLabel [] (trim g)))
      then trim (replace true Patterns.roleLabel [] (trim g))
      else tryRolePatterns others content
             (trim (replace true Patterns.roleLabel [] (trim g)))
  | None => tryRolePatterns others content autoTitle
  end.
Proof. reflexivity. Qed.

Lemma scanLines_trimmed (lines : list jstr) :
  forall autoTitle, trim autoTitle = autoTitle ->
  trim (scanLines lines autoTitle) = scanLines lines autoTitle.
Proof.
  induction lines as [|line others IH]; intros a Ha; [exact Ha|].
  rewrite scanLines_cons.
  destruct (truthy_str (trim line)); [|apply IH, Ha].
  destruct (startsWith (lit "# Role:") (trim line)).
  - destruct (truthy_str (trim (substring_from 8 (trim line))));
      [apply trim_idempotent | apply IH, Ha].
  - destruct (truthy_str _); [apply trim_idempotent | apply IH, trim_idempotent].
Qed.

Lemma tryRolePatterns_trimmed (patterns : list regex) (content : jstr) :
  forall autoTitle, trim autoTitle = autoTitle ->
  trim (tryRolePatterns patterns content autoTitle)
  = tryRolePatterns patterns content autoTitle.
Proof.
  induction patterns as [|pattern others IH]; intros a Ha; [exact Ha|].
  rewrite tryRolePatterns_cons.
  destruct (truthy_capture 1 (match_first true pattern content)) as [g|];
    [|apply IH, Ha].
  destruct (truthy_str _); [apply trim_idempotent | apply IH, trim_idempotent].
Qed.

Lemma xmlTitle_trimmed (content : jstr) : trim (xmlTitle content) = xmlTitle content.
Proof.
  unfold xmlTitle.
  set (a1 := match truthy_capture 1 (match_first true Patterns.title content) with
             | Some g => trim (replace true Patterns.rolePrefix [] (trim g))
             | None => []
             end).
  assert (H1 : trim a1 = a1).
  { unfold a1. destruct (truthy_capture 1 _); [apply trim_idempotent | reflexivity]. }
  set (a2 := if negb (truthy_str a1)
             then tryRolePatterns Patterns.rolePatterns content a1 else a1).
  assert (H2 : trim a2 = a2).
  { unfold a2. destruct (negb (truthy_str a1));
      [apply tryRolePatterns_trimmed, H1 | exact H1]. }
  destruct (negb (truthy_str a2)); [|exact H2].
  destruct (match_all false Patterns.interTag content) as [[|first more']|];
    try exact H2.
  destruct (truthy_str first); [apply trim_idempotent | exact H2].
Qed.

(** What the heuristics produce has no white space at either end. *)
Lemma heuristicTitle_trimmed (content : jstr) :
  trim (heuristicTitle content) = heuristicTitle content.
Proof.
  unfold heuristicTitle. destruct (startsWith (lit "<") (trim content)).
  - apply xmlTitle_trimmed.
  - unfold markdownTitle. apply scanLines_trimmed. reflexivity.
Qed.

Section MoreTitleProperties.
Variable today : jstr.

Lemma defaultTitle_not_blank : blank (defaultTitle today) = false.
Proof.
  destruct (defaultTitle_cons today) as [c [t E]].
  unfold defaultTitle in *. destruct (lit "提示词_") as [|x l] eqn:L.
  - vm_compute in L. discriminate.
  - vm_compute in L. injection L as <- _. reflexivity.
Qed.

Lemma limitTitle_not_blank (t : jstr) : blank t = false -> blank (limitTitle t) = false.
Proof.
  intros B. unfold limitTitle. destruct (50 <? length t); [|exact B].
  rewrite blank_app. apply andb_false_iff. right. vm_compute. reflexivity.
Qed.

Lemma fullTitle_not_blank (content : jstr) : blank (fullTitle today content) = false.
Proof.
  unfold fullTitle. destruct (truthy_str (heuristicTitle content)) eqn:T; simpl.
  - apply trimmed_not_blank; [apply heuristicTitle_trimmed|].
    apply truthy_str_true, T.
  - apply defaultTitle_not_blank.
Qed.

(** The extracted title is never blank: it is not the empty string and not
    made of white space only, whatever the content and the date string.
    So the title guard of [handleSave] and of the Save button,
    [!formData.title.trim()], does not hold for a title the extractor made. *)
Theorem extracted_title_not_blank (content : jstr) :
  blank (extractTitleFromContent today content) = false /\
  truthy_str (trim (extractTitleFromContent today content)) = true.
Proof.
  assert (B : blank (extractTitleFromContent today content) = false).
  { destruct (blank content) eqn:C.
    - rewrite (extractTitle_blank today content C). apply defaultTitle_not_blank.
    - rewrite (extractTitle_not_blank today content C).
      apply limitTitle_not_blank, fullTitle_not_blank. }
  split; [exact B|]. rewrite truthy_trim, B. reflexivity.
Qed.

(** For content that is not blank the result has at most 53 code units:
    at most 50 of the title and the three dots. For blank content it has
    the four code units of the prefix and those of the date string. *)
Theorem extracted_title_length (content : jstr) :
  (blank content = false -> length (extractTitleFromContent today content) <= 53) /\
  (blank content = true ->
   length (extractTitleFromContent today content) = 4 + length today).
Proof.
  split; intros C.
  - rewrite (extractTitle_not_blank today content C). unfold limitTitle.
    destruct (Nat.ltb_spec 50 (length (fullTitle today content))); [|lia].
    unfold substring_to. rewrite length_app, length_firstn.
    change (length (lit "...")) with 3. lia.
  - rewrite (extractTitle_blank today content C). apply defaultTitle_length.
Qed.

(** When a heuristic found the title, the result has no white space at
    either end, cut or not: trimming it, as [handleSave] does before it
    emits, gives it back unchanged. *)
Theorem extracted_title_trimmed (content : jstr) :
  blank content = false -> heuristicTitle content <> [] ->
  trim (extractTitleFromContent today content) = extractTitleFromContent today content.
Proof.
  intros C H. rewrite (extractTitle_not_blank today content C).
  unfold fullTitle. apply truthy_str_true in H. rewrite H. simpl negb. cbv iota.
  pose proof (heuristicTitle_trimmed content) as T.
  destruct (heuristicTitle content) as [|c t] eqn:E; [discriminate|].
  unfold limitTitle. destruct (50 <? length (c :: t)); [|exact T].
  unfold substring_to. change (firstn 50 (c :: t)) with (c :: firstn 49 t).
  apply trim_cons_app.
  - apply (trimmed_head c t T).
  - vm_compute. reflexivity.
  - vm_compute. discriminate.
Qed.

End MoreTitleProperties.

Lemma extracted_title_length_witness :
  length (extractTitleFromContent (lit "2026/11/2")
            (lit "# A title that keeps going well past the fifty code units allowed"))
  <= 53.
Proof.
  apply (proj1 (extracted_title_length (lit "2026/11/2")
    (lit "# A title that keeps going well past the fifty code units allowed"))).
  vm_compute. reflexivity.
Defined.

Lemma extracted_title_trimmed_witness :
  trim (extractTitleFromContent (lit "2026/11/2") (lit "  ## Review helper  "))
  = lit "Review helper".
Proof.
  etransitivity.
  - apply (extracted_title_trimmed (lit "2026/11/2") (lit "  ## Review helper  ")).
    + vm_compute. reflexivity.
    + vm_compute. discriminate.
  - vm_compute. reflexivity.
Defined.

(** ** Anchored patterns *)

Section AnchoredPatterns.
Variable ic : bool.

(** A pattern that begins with [^] matches at index 0 or nowhere. *)
Lemma attempt_anchored_later (r : regex) (pos : nat) (rest : jstr) :
  attempt ic (Cat Bol r) (S pos) rest = None.
Proof. reflexivity. Qed.

Lemma exec_from_eq (r : regex) (pos : nat) (rest : jstr) :
  exec_from ic r pos rest =
  match attempt ic r pos rest with
  | Some m => Some m
  | None =>
      match rest with
      | [] => None
      | _ :: t => exec_from ic r (S pos) t
      end
  end.
Proof. destruct rest; reflexivity. Qed.

Lemma exec_from_anchored_later (r : regex) (rest : jstr) :
  forall pos, exec_from ic (Cat Bol r) (S pos) rest = None.
Proof.
  induction rest as [|c t IH]; intros pos; rewrite exec_from_eq;
    rewrite attempt_anchored_later; [reflexivity | apply IH].
Qed.

Lemma match_first_anchored (r : regex) (s : jstr) :
  match_first ic (Cat Bol r) s = attempt ic (Cat Bol r) 0 s.
Proof.
  unfold match_first. rewrite exec_from_eq.
  destruct (attempt ic (Cat Bol r) 0 s); [reflexivity|].
  destruct s as [|c t]; [reflexivity | apply exec_from_anchored_later].
Qed.

Lemma attempt_index (r : regex) (pos : nat) (rest : jstr) (m : match_result) :
  attempt ic r pos rest = Some m -> index m = pos.
Proof.
  unfold attempt. destruct (run ic r Some (MState pos rest [])); [|discriminate].
  intros H. injection H as <-. reflexivity.
Qed.

(** Removing the match of an anchored pattern removes a prefix. *)
Lemma replace_anchored (r : regex) (s : jstr) :
  replace ic (Cat Bol r) [] s =
  match attempt ic (Cat Bol r) 0 s with
  | Some m => skipn (length (matched m)) s
  | None => s
  end.
Proof.
  unfold replace. rewrite match_first_anchored.
  destruct (attempt ic (Cat Bol r) 0 s) as [m|] eqn:E; [|reflexivity].
  rewrite (attempt_index _ _ _ _ E). reflexivity.
Qed.

Lemma replace_anchored_suffix (r : regex) (s : jstr) :
  exists n, replace ic (Cat Bol r) [] s = skipn n s.
Proof.
  rewrite replace_anchored. destruct (attempt ic (Cat Bol r) 0 s) as [m|].
  - eexists. reflexivity.
  - exists 0. reflexivity.
Qed.

(** An anchored pattern that asks for one or more of an atom leaves alone
    a string whose first character the atom does not match. *)
Lemma replace_anchored_miss (a : atom) (min : nat) (max : option nat)
      (greedy : bool) (r : regex) (c : N) (t : jstr) :
  atom_matches ic a c = false ->
  replace ic (Cat Bol (Cat (Rep a (S min) max greedy) r)) [] (c :: t) = c :: t.
Proof.
  intros M. rewrite replace_anchored. unfold attempt. simpl run.
  rewrite M, andb_false_r. destruct greedy; reflexivity.
Qed.

End AnchoredPatterns.

Lemma trim_head (s : jstr) (c : N) (t : jstr) :
  trim s = c :: t -> is_white_space c = false.
Proof.
  intros E. apply (trimmed_head c t). rewrite <- E. apply trim_idempotent.
Qed.

Lemma split_head (sep c : N) (t : jstr) :
  N.eqb c sep = false -> exists piece more, split sep (c :: t) = (c :: piece) :: more.
Proof.
  intros H. simpl. rewrite H. destruct (split sep t) as [|piece more]; eauto.
Qed.

Lemma plain_start_facts (c : N) :
  plain_start c = true ->
  N.eqb c 35 = false /\ N.eqb c 42 = false /\ N.eqb c 45 = false /\
  N.eqb c 60 = false /\ is_digit c = false /\ is_white_space c = false.
Proof.
  unfold plain_start. intros H. apply negb_true_iff in H.
  repeat (apply orb_false_iff in H; destruct H as [H ?]). auto 10.
Qed.

(** The four marker patterns leave a line with a plain first character as
    it is. *)
Lemma markers_leave_plain (c : N) (t : jstr) :
  plain_start c = true ->
  replace false Patterns.numbered []
    (replace false Patterns.dashBullet []
      (replace false Patterns.starBullet []
        (replace false Patterns.heading [] (c :: t)))) = c :: t.
Proof.
  intros P. destruct (plain_start_facts c P) as [H1 [H2 [H3 [_ [H5 _]]]]].
  unfold Patterns.heading, Patterns.starBullet, Patterns.dashBullet,
    Patterns.numbered, plus.
  rewrite (replace_anchored_miss false (One (CChar (chr "#"))) 0 (Some 6) true
             (star Patterns.space) c t);
    [|change (N.eqb 35 c = false); rewrite N.eqb_sym; exact H1].
  rewrite (replace_anchored_miss false (One (CChar (chr "*"))) 0 None true
             (star Patterns.space) c t);
    [|change (N.eqb 42 c = false); rewrite N.eqb_sym; exact H2].
  rewrite (replace_anchored_miss false (One (CChar (chr "-"))) 0 None true
             (star Patterns.space) c t);
    [|change (N.eqb 45 c = false); rewrite N.eqb_sym; exact H3].
  apply replace_anchored_miss. exact H5.
Qed.

(** Plain text whose first line, trimmed, begins with a character that is
    no marker ([#], [*], [-], a digit), no [<] and no white space: the
    title is that trimmed first line, under the length limit. *)
Theorem plain_first_line_is_title (today content line : jstr)
        (others : list jstr) (c : N) (t : jstr) :
  split 10 (trim content) = line :: others ->
  trim line = c :: t ->
  plain_start c = true ->
  heuristicTitle content = c :: t /\
  extractTitleFromContent today content = limitTitle (c :: t).
Proof.
  intros S L P.
  destruct (plain_start_facts c P) as [H1 [_ [_ [H4 [_ H6]]]]].
  destruct (trim content) as [|x rest] eqn:T.
  { simpl in S. injection S as <- _. discriminate L. }
  pose proof (trim_head content x rest T) as Wx.
  assert (Nx : N.eqb x 10 = false).
  { destruct (N.eqb_spec x 10) as [->|]; [discriminate Wx | reflexivity]. }
  destruct (split_head 10 x rest Nx) as [piece [more' Sx]].
  rewrite Sx in S. injection S as <- <-.
  assert (C : x = c).
  { unfold trim in L. rewrite (trimStart_unchanged x piece Wx) in L.
    destruct (trimEnd_head [] x piece Wx) as [t' Ht]. rewrite Ht in L.
    injection L as -> _. reflexivity. }
  subst x.
  assert (B : blank content = false).
  { destruct (blank content) eqn:B; [|reflexivity].
    apply trim_nil in B. rewrite B in T. discriminate. }
  assert (H : heuristicTitle content = c :: t).
  { unfold heuristicTitle. rewrite T.
    change (startsWith (lit "<") (c :: rest)) with (N.eqb 60 c && true).
    rewrite N.eqb_sym, H4. simpl andb. cbv iota.
    unfold markdownTitle. rewrite T, Sx, scanLines_cons, L.
    change (truthy_str (c :: t)) with true. cbv iota.
    change (startsWith (lit "# Role:") (c :: t))
      with (N.eqb 35 c && startsWith (lit " Role:") t).
    rewrite N.eqb_sym, H1. simpl andb. cbv iota.
    rewrite (markers_leave_plain c t P).
    assert (E : trim (c :: t) = c :: t) by (rewrite <- L; apply trim_idempotent).
    rewrite E. reflexivity. }
  split; [exact H|].
  rewrite (extractTitle_not_blank today content B). unfold fullTitle.
  rewrite H. reflexivity.
Qed.

Lemma plain_first_line_is_title_witness :
  extractTitleFromContent (lit "2026/11/2")
    (lit "  You are a careful reviewer.  " ++ [10%N] ++ lit "Second line")
  = lit "You are a careful reviewer.".
Proof.
  etransitivity.
  - apply (proj2 (plain_first_line_is_title (lit "2026/11/2")
             (lit "  You are a careful reviewer.  " ++ [10%N] ++ lit "Second line")
             (lit "You are a careful reviewer.  ") [lit "Second line"]
             89%N (lit "ou are a careful reviewer.")
             ltac:(vm_compute; reflexivity) ltac:(vm_compute; reflexivity)
             ltac:(vm_compute; reflexivity))).
  - vm_compute. reflexivity.
Defined.

(** ** Marker lines *)

Section GreedyRuns.
Variable ic : bool.

(** A greedy quantifier takes a whole run of matching characters when the
    continuation accepts what follows the run. *)
Lemma rep_greedy_run (a : atom) (k : nat -> jstr -> option mstate) (y : mstate)
      (chars_ : jstr) (rest : jstr) :
  forall min max pos,
    forallb (atom_matches ic a) chars_ = true ->
    stops ic a rest ->
    min <= length chars_ ->
    fits (length chars_) max ->
    k (pos + length chars_) rest = Some y ->
    rep ic a true k min max pos (chars_ ++ rest) = Some y.
Proof.
  induction chars_ as [|x l IH]; intros min max pos A St M F K.
  - simpl in *. rewrite Nat.add_0_r in K.
    assert (min = 0) by lia. subst min.
    destruct rest as [|c t]; simpl.
    + exact K.
    + simpl in St. rewrite St, andb_false_r. exact K.
  - simpl in A. apply andb_true_iff in A. destruct A as [Ax Al].
    simpl app. simpl rep. rewrite Ax.
    assert (Mo : more max = true).
    { destruct max as [[|m]|]; simpl in *; try reflexivity. lia. }
    rewrite Mo. simpl andb. cbv iota.
    rewrite (IH (pred min) (option_map pred max) (S pos)); try assumption.
    + reflexivity.
    + simpl in M. lia.
    + destruct max as [m|]; simpl in *; [lia | exact I].
    + simpl in K. rewrite <- K. f_equal. lia.
Qed.

End GreedyRuns.

Lemma blank_stops_hash (ws : jstr) (c : N) (t : jstr) (h : N) :
  blank ws = true -> is_white_space h = false -> N.eqb c h = false ->
  stops false (One (CChar h)) (ws ++ c :: t).
Proof.
  intros B W C. destruct ws as [|w ws']; simpl.
  - rewrite N.eqb_sym. exact C.
  - simpl in B. apply andb_true_iff in B. destruct B as [Bw _].
    destruct (N.eqb_spec h w) as [->|]; [congruence | reflexivity].
Qed.

(** [\s*] at the end of a pattern takes the white space before a solid
    character. *)
Lemma trailing_spaces (ws : jstr) (c : N) (t : jstr) (pos : nat)
      (caps : list (nat * jstr)) :
  blank ws = true -> is_white_space c = false ->
  run false (star Patterns.space) Some (MState pos (ws ++ c :: t) caps)
  = Some (MState (pos + length ws) (c :: t) caps).
Proof.
  intros B W. unfold star. simpl run.
  apply (rep_greedy_run false Patterns.space
           (fun p r => Some (MState p r caps)) _ ws (c :: t) 0 None pos).
  - exact B.
  - simpl. exact W.
  - lia.
  - exact I.
  - reflexivity.
Qed.

Lemma forallb_repeat (f : N -> bool) (x : N) (k : nat) :
  f x = true -> forallb f (repeat x k) = true.
Proof. intros H. induction k; simpl; [reflexivity | rewrite H; exact IHk]. Qed.

(** A run of one marker character and the white space after it, removed
    by the pattern for that character. *)
Lemma replace_char_marker (h : N) (k : nat) (max : option nat)
      (ws : jstr) (c : N) (t : jstr) :
  1 <= k -> fits k max ->
  is_white_space h = false -> N.eqb c h = false ->
  blank ws = true -> is_white_space c = false ->
  replace false (Cat Bol (Cat (Rep (One (CChar h)) 1 max true) (star Patterns.space)))
          [] (repeat h k ++ ws ++ c :: t) = c :: t.
Proof.
  intros K F Wh C B W. rewrite replace_anchored. unfold attempt.
  change (run false
            (Cat Bol (Cat (Rep (One (CChar h)) 1 max true) (star Patterns.space)))
            Some (MState 0 (repeat h k ++ ws ++ c :: t) []))
    with (rep false (One (CChar h)) true
              (fun pos rest => run false (star Patterns.space) Some (MState pos rest []))
              1 max 0 (repeat h k ++ ws ++ c :: t)).
  rewrite (rep_greedy_run false (One (CChar h)) _
             (MState (k + length ws) (c :: t) [])
             (repeat h k) (ws ++ c :: t) 1 max 0).
  - cbv beta iota delta [matched m_pos]. rewrite Nat.sub_0_r.
    rewrite length_firstn, Nat.min_l.
    + rewrite app_assoc, skipn_app.
      rewrite skipn_all2 by (rewrite length_app, repeat_length; lia).
      rewrite length_app, repeat_length, Nat.sub_diag. reflexivity.
    + rewrite !length_app, repeat_length. lia.
  - apply forallb_repeat. simpl. apply N.eqb_refl.
  - apply blank_stops_hash; assumption.
  - rewrite repeat_length. exact K.
  - rewrite repeat_length. exact F.
  - rewrite repeat_length. simpl Nat.add. apply trailing_spaces; assumption.
Qed.

Lemma digits_stop_at_dot (rest : jstr) : stops false (One CDigit) (46%N :: rest).
Proof. reflexivity. Qed.

(** Digits, a dot and the white space after it, removed by the pattern for
    numbered items. *)
Lemma replace_number_marker (ds ws : jstr) (c : N) (t : jstr) :
  ds <> [] -> forallb is_digit ds = true ->
  blank ws = true -> is_white_space c = false ->
  replace false Patterns.numbered [] ((ds ++ [46%N]) ++ ws ++ c :: t) = c :: t.
Proof.
  intros D A B W. unfold Patterns.numbered, plus, chr. rewrite replace_anchored.
  unfold attempt. rewrite <- app_assoc. simpl app.
  change (run false
            (Cat Bol (Cat (Rep (One CDigit) 1 None true)
                          (Cat (Atom (One (CChar (N_of_ascii ".")))) (star Patterns.space))))
            Some (MState 0 (ds ++ 46%N :: ws ++ c :: t) []))
    with (rep false (One CDigit) true
              (fun pos rest =>
                 run false (Cat (Atom (One (CChar 46%N))) (star Patterns.space))
                     Some (MState pos rest []))
              1 None 0 (ds ++ 46%N :: ws ++ c :: t)).
  rewrite (rep_greedy_run false (One CDigit) _
             (MState (S (length ds) + length ws) (c :: t) [])
             ds (46%N :: ws ++ c :: t) 1 None 0).
  - cbv beta iota delta [matched m_pos]. rewrite Nat.sub_0_r.
    rewrite length_firstn, Nat.min_l.
    + change (ds ++ 46%N :: ws ++ c :: t) with (ds ++ [46%N] ++ ws ++ c :: t).
      rewrite !app_assoc, skipn_app.
      rewrite skipn_all2 by (rewrite !length_app; simpl; lia).
      rewrite !length_app. simpl length.
      replace (S (length ds) + length ws - (length ds + 1 + length ws)) with 0 by lia.
      reflexivity.
    + rewrite !length_app. simpl. rewrite length_app. simpl. lia.
  - exact A.
  - apply digits_stop_at_dot.
  - destruct ds; [contradiction | simpl; lia].
  - exact I.
  - simpl Nat.add.
    change (run false (Cat (Atom (One (CChar 46%N))) (star Patterns.space)) Some
              (MState (length ds) (46%N :: ws ++ c :: t) []))
      with (run false (star Patterns.space) Some
              (MState (S (length ds)) (ws ++ c :: t) [])).
    apply trailing_spaces; assumption.
Qed.

(** Plain-text mode and the loop over the lines, for content whose first
    line does not open a tag. *)
Lemma first_line_setup (content line : jstr) (others : list jstr) (x : N) (l : jstr) :
  split 10 (trim content) = line :: others ->
  trim line = x :: l ->
  N.eqb x 60 = false ->
  blank content = false /\
  heuristicTitle content = scanLines (line :: others) [].
Proof.
  intros S L X.
  destruct (trim content) as [|y rest] eqn:T.
  { simpl in S. injection S as <- _. discriminate L. }
  pose proof (trim_head content y rest T) as Wy.
  assert (Ny : N.eqb y 10 = false).
  { destruct (N.eqb_spec y 10) as [->|]; [discriminate Wy | reflexivity]. }
  destruct (split_head 10 y rest Ny) as [piece [more' Sy]].
  rewrite Sy in S. injection S as <- <-.
  assert (C : y = x).
  { unfold trim in L. rewrite (trimStart_unchanged y piece Wy) in L.
    destruct (trimEnd_head [] y piece Wy) as [t' Ht]. rewrite Ht in L.
    injection L as -> _. reflexivity. }
  subst y. split.
  - destruct (blank content) eqn:B; [|reflexivity].
    apply trim_nil in B. rewrite B in T. discriminate.
  - unfold heuristicTitle. rewrite T.
    change (startsWith (lit "<") (x :: rest)) with (N.eqb 60 x && true).
    rewrite N.eqb_sym, X. simpl andb. cbv iota.
    unfold markdownTitle. rewrite T, Sy. reflexivity.
Qed.

Lemma trimmed_tail (a : jstr) (c : N) (t : jstr) :
  trim (a ++ c :: t) = a ++ c :: t -> is_white_space c = false ->
  trim (c :: t) = c :: t.
Proof.
  intros E W. apply trimmed_trimEnd in E.
  destruct (trimEnd_head [] c t W) as [t' Ht].
  rewrite trimEnd_app_solid in E by (rewrite Ht; discriminate).
  apply app_inv_head in E.
  unfold trim. rewrite (trimStart_unchanged c t W). exact E.
Qed.

Ltac marker_side :=
  solve [assumption | reflexivity | exact I | lia | simpl; lia].

Lemma markers_strip (m ws : jstr) (c : N) (t : jstr) :
  marker m -> blank ws = true -> plain_start c = true ->
  (exists x l, m = x :: l /\ N.eqb x 60 = false) /\
  replace false Patterns.numbered []
    (replace false Patterns.dashBullet []
      (replace false Patterns.starBullet []
        (replace false Patterns.heading [] (m ++ ws ++ c :: t)))) = c :: t.
Proof.
  intros M B P.
  destruct (plain_start_facts c P) as [H1 [H2 [H3 [_ [H5 H6]]]]].
  unfold Patterns.heading, Patterns.starBullet, Patterns.dashBullet, plus, chr in *.
  change (N_of_ascii "#") with 35%N in *.
  change (N_of_ascii "*") with 42%N in *.
  change (N_of_ascii "-") with 45%N in *.
  destruct M as [k K|k K|k K|ds D A].
  - split; [destruct k; [lia | simpl; eauto]|].
    rewrite (replace_char_marker 35 k (Some 6) ws c t) by marker_side.
    rewrite (replace_anchored_miss false (One (CChar 42%N)) 0 None true
               (star Patterns.space) c t)
      by (change (N.eqb 42 c = false); rewrite N.eqb_sym; exact H2).
    rewrite (replace_anchored_miss false (One (CChar 45%N)) 0 None true
               (star Patterns.space) c t)
      by (change (N.eqb 45 c = false); rewrite N.eqb_sym; exact H3).
    apply replace_anchored_miss. exact H5.
  - split; [destruct k; [lia | simpl; eauto]|].
    destruct k as [|k]; [lia|]. simpl repeat. simpl app.
    rewrite (replace_anchored_miss false (One (CChar 35%N)) 0 (Some 6) true
               (star Patterns.space) 42%N _) by reflexivity.
    change (42%N :: repeat 42%N k ++ ws ++ c :: t)
      with (repeat 42%N (S k) ++ ws ++ c :: t).
    rewrite (replace_char_marker 42 (S k) None ws c t) by marker_side.
    rewrite (replace_anchored_miss false (One (CChar 45%N)) 0 None true
               (star Patterns.space) c t)
      by (change (N.eqb 45 c = false); rewrite N.eqb_sym; exact H3).
    apply replace_anchored_miss. exact H5.
  - split; [destruct k; [lia | simpl; eauto]|].
    destruct k as [|k]; [lia|]. simpl repeat. simpl app.
    rewrite (replace_anchored_miss false (One (CChar 35%N)) 0 (Some 6) true
               (star Patterns.space) 45%N _) by reflexivity.
    rewrite (replace_anchored_miss false (One (CChar 42%N)) 0 None true
               (star Patterns.space) 45%N _) by reflexivity.
    change (45%N :: repeat 45%N k ++ ws ++ c :: t)
      with (repeat 45%N (S k) ++ ws ++ c :: t).
    rewrite (replace_char_marker 45 (S k) None ws c t) by marker_side.
    apply replace_anchored_miss. exact H5.
  - destruct ds as [|d ds]; [contradiction|].
    simpl in A. apply andb_true_iff in A. destruct A as [Ad Ads].
    assert (Fd : N.eqb d 35 = false /\ N.eqb d 42 = false /\ N.eqb d 45 = false
                 /\ N.eqb d 60 = false).
    { unfold is_digit in Ad. apply andb_true_iff in Ad. destruct Ad as [Lo Hi].
      apply N.leb_le in Lo, Hi.
      repeat split; apply N.eqb_neq; lia. }
    destruct Fd as [F1 [F2 [F3 F4]]].
    split; [simpl; eauto|].
    change (((d :: ds) ++ [46%N]) ++ ws ++ c :: t)
      with (d :: (ds ++ [46%N]) ++ ws ++ c :: t).
    rewrite (replace_anchored_miss false (One (CChar 35%N)) 0 (Some 6) true
               (star Patterns.space) d _)
      by (change (N.eqb 35 d = false); rewrite N.eqb_sym; exact F1).
    rewrite (replace_anchored_miss false (One (CChar 42%N)) 0 None true
               (star Patterns.space) d _)
      by (change (N.eqb 42 d = false); rewrite N.eqb_sym; exact F2).
    rewrite (replace_anchored_miss false (One (CChar 45%N)) 0 None true
               (star Patterns.space) d _)
      by (change (N.eqb 45 d = false); rewrite N.eqb_sym; exact F3).
    change (d :: (ds ++ [46%N]) ++ ws ++ c :: t)
      with (((d :: ds) ++ [46%N]) ++ ws ++ c :: t).
    apply replace_number_marker; [discriminate | | exact B | exact H6].
    simpl. rewrite Ad. exact Ads.
Qed.

(** Plain text whose first line, trimmed, is a marker (one to six [#], a
    run of [*], a run of [-], or digits and a dot), optional white space,
    and then text that begins with a plain character: unless the line
    starts with the role heading, the title is the text after the marker
    and the white space, under the length limit. *)
Theorem marker_line_is_title (today content line : jstr) (others : list jstr)
        (m ws : jstr) (c : N) (t : jstr) :
  split 10 (trim content) = line :: others ->
  trim line = m ++ ws ++ c :: t ->
  marker m -> blank ws = true -> plain_start c = true ->
  startsWith (lit "# Role:") (trim line) = false ->
  heuristicTitle content = c :: t /\
  extractTitleFromContent today content = limitTitle (c :: t).
Proof.
  intros S L M B P R.
  destruct (markers_strip m ws c t M B P) as [[x [l [Em X]]] Strip].
  destruct (plain_start_facts c P) as [_ [_ [_ [_ [_ W]]]]].
  assert (L' : trim line = x :: (l ++ ws ++ c :: t)) by (rewrite L, Em; reflexivity).
  destruct (first_line_setup content line others x _ S L' X) as [Bc H].
  assert (E : trim (c :: t) = c :: t).
  { apply (trimmed_tail (m ++ ws) c t); [|exact W].
    rewrite <- app_assoc, <- L. apply trim_idempotent. }
  assert (Hh : heuristicTitle content = c :: t).
  { rewrite H, scanLines_cons, R.
    replace (truthy_str (trim line)) with true by (rewrite L'; reflexivity).
    cbv iota. rewrite L, Strip, E. reflexivity. }
  split; [exact Hh|].
  rewrite (extractTitle_not_blank today content Bc). unfold fullTitle.
  rewrite Hh. reflexivity.
Qed.

Lemma marker_line_is_title_witness :
  extractTitleFromContent (lit "2026/11/2")
    (lit "## Code review helper" ++ [10%N] ++ lit "You review code.")
  = lit "Code review helper" /\
  extractTitleFromContent (lit "2026/11/2") (lit "12. Steps to follow")
  = lit "Steps to follow".
Proof.
  split.
  - etransitivity.
    + apply (proj2 (marker_line_is_title (lit "2026/11/2")
               (lit "## Code review helper" ++ [10%N] ++ lit "You review code.")
               (lit "## Code review helper") [lit "You review code."]
               (repeat 35%N 2) (lit " ") 67%N (lit "ode review helper")
               ltac:(vm_compute; reflexivity) ltac:(vm_compute; reflexivity)
               (heading_marker 2 ltac:(lia))
               ltac:(vm_compute; reflexivity) ltac:(vm_compute; reflexivity)
               ltac:(vm_compute; reflexivity))).
    + vm_compute. reflexivity.
  - etransitivity.
    + apply (proj2 (marker_line_is_title (lit "2026/11/2")
               (lit "12. Steps to follow")
               (lit "12. Steps to follow") []
               (lit "12" ++ [46%N]) (lit " ") 83%N (lit "teps to follow")
               ltac:(vm_compute; reflexivity) ltac:(vm_compute; reflexivity)
               (number_marker (lit "12") ltac:(vm_compute; discriminate)
                              ltac:(vm_compute; reflexivity))
               ltac:(vm_compute; reflexivity) ltac:(vm_compute; reflexivity)
               ltac:(vm_compute; reflexivity))).
    + vm_compute. reflexivity.
Defined.

(** ** The plain-text title is a piece of the content *)

Lemma infix_refl (a : jstr) : infix a a.
Proof. exists [], []. rewrite app_nil_r. reflexivity. Qed.

Lemma infix_nil (b : jstr) : infix [] b.
Proof. exists [], b. reflexivity. Qed.

Lemma infix_trans (a b c : jstr) : infix a b -> infix b c -> infix a c.
Proof.
  intros [p [q ->]] [p' [q' ->]]. exists (p' ++ p), (q ++ q').
  rewrite <- !app_assoc. reflexivity.
Qed.

Lemma infix_cons (a b : jstr) (c : N) : infix a b -> infix a (c :: b).
Proof. intros [p [q ->]]. exists (c :: p), q. reflexivity. Qed.

Lemma infix_skipn (n : nat) (s : jstr) : infix (skipn n s) s.
Proof.
  exists (firstn n s), []. rewrite app_nil_r. symmetry. apply firstn_skipn.
Qed.

Lemma trimStart_suffix (s : jstr) : exists p, s = p ++ trimStart s.
Proof.
  induction s as [|c t [p IH]]; simpl.
  - exists []. reflexivity.
  - destruct (is_white_space c).
    + exists (c :: p). simpl. f_equal. exact IH.
    + exists []. reflexivity.
Qed.

Lemma trimEnd_prefix (s : jstr) : exists q, s = trimEnd s ++ q.
Proof.
  induction s as [|c t [q IH]]; simpl.
  - exists []. reflexivity.
  - destruct (trimEnd t) as [|x t'] eqn:E.
    + destruct (is_white_space c).
      * exists (c :: t). reflexivity.
      * exists t. reflexivity.
    + exists q. simpl. f_equal. exact IH.
Qed.

Lemma infix_trim (s : jstr) : infix (trim s) s.
Proof.
  unfold trim. destruct (trimStart_suffix s) as [p Hp].
  destruct (trimEnd_prefix (trimStart s)) as [q Hq].
  exists p, q. rewrite <- Hq. exact Hp.
Qed.

Lemma split_pieces (sep : N) (s : jstr) :
  exists first more,
    split sep s = first :: more /\
    (exists q, s = first ++ q) /\
    (forall x, In x more -> infix x s).
Proof.
  induction s as [|c t [first [more' [E [[q Hq] Hm]]]]].
  - exists [], []. repeat split; [exists []; reflexivity | intros x []].
  - simpl. destruct (N.eqb c sep).
    + exists [], (split sep t). repeat split; [exists (c :: t); reflexivity|].
      intros x Hx. apply infix_cons. rewrite E in Hx. destruct Hx as [<-|Hx].
      * exists [], q. exact Hq.
      * apply Hm, Hx.
    + rewrite E. exists (c :: first), more'. repeat split.
      * exists q. simpl. f_equal. exact Hq.
      * intros x Hx. apply infix_cons, Hm, Hx.
Qed.

Lemma infix_split (sep : N) (s x : jstr) : In x (split sep s) -> infix x s.
Proof.
  destruct (split_pieces sep s) as [first [more' [E [[q Hq] Hm]]]].
  rewrite E. intros [<-|Hx]; [exists [], q; exact Hq | apply Hm, Hx].
Qed.

Lemma infix_replace_anchored (ic : bool) (r : regex) (s : jstr) :
  infix (replace ic (Cat Bol r) [] s) s.
Proof.
  destruct (replace_anchored_suffix ic r s) as [n ->]. apply infix_skipn.
Qed.

Lemma scanLines_infix (s : jstr) (lines : list jstr) :
  forall autoTitle,
    (forall line, In line lines -> infix line s) ->
    infix autoTitle s ->
    infix (scanLines lines autoTitle) s.
Proof.
  induction lines as [|line others IH]; intros a Hl Ha; [exact Ha|].
  rewrite scanLines_cons.
  assert (Hline : infix (trim line) s).
  { apply (infix_trans _ line); [apply infix_trim | apply Hl; left; reflexivity]. }
  assert (Hothers : forall l, In l others -> infix l s).
  { intros l Hin. apply Hl. right. exact Hin. }
  destruct (truthy_str (trim line)); [|apply IH; assumption].
  destruct (startsWith (lit "# Role:") (trim line)).
  - assert (Hr : infix (trim (substring_from 8 (trim line))) s).
    { apply (infix_trans _ (trim line)); [|exact Hline].
      apply (infix_trans _ (substring_from 8 (trim line)));
        [apply infix_trim | apply infix_skipn]. }
    destruct (truthy_str _); [exact Hr | apply IH; assumption].
  - assert (Hn : infix
                   (trim (replace false Patterns.numbered []
                           (replace false Patterns.dashBullet []
                             (replace false Patterns.starBullet []
                               (replace false Patterns.heading [] (trim line)))))) s).
    { apply (infix_trans _ (trim line)); [|exact Hline].
      eapply infix_trans; [apply infix_trim|].
      eapply infix_trans; [apply infix_replace_anchored|].
      eapply infix_trans; [apply infix_replace_anchored|].
      eapply infix_trans; [apply infix_replace_anchored|].
      apply infix_replace_anchored. }
    destruct (truthy_str _); [exact Hn | apply IH; assumption].
Qed.

(** In plain-text mode the extractor invents nothing: the title the loop
    over the lines arrives at is a contiguous piece of the content, and
    when it is not empty the result is that piece under the length limit. *)
Theorem plain_title_is_piece_of_content (today content : jstr) :
  startsWith (lit "<") (trim content) = false ->
  infix (heuristicTitle content) content /\
  (heuristicTitle content <> [] ->
   extractTitleFromContent today content = limitTitle (heuristicTitle content)).
Proof.
  intros M.
  assert (H : heuristicTitle content = scanLines (split 10 (trim content)) []).
  { unfold heuristicTitle. rewrite M. reflexivity. }
  split.
  - rewrite H. apply scanLines_infix; [|apply infix_nil].
    intros line Hin. apply (infix_trans _ (trim content));
      [apply (infix_split 10), Hin | apply infix_trim].
  - intros Ne.
    assert (B : blank content = false).
    { destruct (blank content) eqn:B; [|reflexivity].
      apply trim_nil in B. rewrite H, B in Ne. destruct Ne. reflexivity. }
    rewrite (extractTitle_not_blank today content B). unfold fullTitle.
    apply truthy_str_true in Ne. rewrite Ne. reflexivity.
Qed.

Lemma plain_title_is_piece_of_content_witness :
  infix (heuristicTitle (lit "notes" ++ [10%N] ++ lit "- [ ] todo"))
        (lit "notes" ++ [10%N] ++ lit "- [ ] todo").
Proof.
  apply (proj1 (plain_title_is_piece_of_content (lit "2026/11/2")
                  (lit "notes" ++ [10%N] ++ lit "- [ ] todo")
                  ltac:(vm_compute; reflexivity))).
Defined.

(** ** The title element *)

Lemma canonicalize_lt (c : N) :
  N.eqb (canonicalize 60) (canonicalize c) = N.eqb 60 c.
Proof.
  change (canonicalize 60) with 60%N. unfold canonicalize.
  destruct ((97 <=? c) && (c <=? 122))%N eqn:R; [|reflexivity].
  apply andb_true_iff in R. destruct R as [Lo Hi].
  apply N.leb_le in Lo, Hi.
  destruct (N.eqb_spec 60 (c - 32)) as [E1|E1], (N.eqb_spec 60 c) as [E2|E2];
    try reflexivity; exfalso; lia.
Qed.

Lemma canonicalize_gt (c : N) :
  N.eqb (canonicalize 62) (canonicalize c) = N.eqb 62 c.
Proof.
  change (canonicalize 62) with 62%N. unfold canonicalize.
  destruct ((97 <=? c) && (c <=? 122))%N eqn:R; [|reflexivity].
  apply andb_true_iff in R. destruct R as [Lo Hi].
  apply N.leb_le in Lo, Hi.
  destruct (N.eqb_spec 62 (c - 32)) as [E1|E1], (N.eqb_spec 62 c) as [E2|E2];
    try reflexivity; exfalso; lia.
Qed.

Lemma forallb_same (f g : N -> bool) (l : jstr) :
  (forall x, f x = g x) -> forallb f l = forallb g l.
Proof.
  intros H. induction l as [|x l IH]; simpl; [reflexivity|].
  rewrite H, IH. reflexivity.
Qed.

(** The characters of a literal piece of a pattern, matched without regard
    to case. *)
Lemma run_chars (p : jstr) :
  forall (s rest : jstr) (pos : nat) (caps : list (nat * jstr))
         (k : mstate -> option mstate),
    map canonicalize s = map canonicalize p ->
    run true (chars p) k (MState pos (s ++ rest) caps)
    = k (MState (pos + length p) rest caps).
Proof.
  induction p as [|x p IH]; intros s rest pos caps k E.
  - destruct s; [|discriminate]. simpl. rewrite Nat.add_0_r. reflexivity.
  - destruct s as [|c s]; [discriminate|]. simpl in E. injection E as Ec Es.
    simpl chars. simpl app.
    change (run true (Cat (Atom (One (CChar x))) (chars p)) k
              (MState pos (c :: s ++ rest) caps))
      with (if N.eqb (canonicalize x) (canonicalize c)
            then run true (chars p) k (MState (S pos) (s ++ rest) caps)
            else None).
    rewrite Ec, N.eqb_refl, (IH s rest (S pos) caps k Es).
    simpl length. rewrite Nat.add_succ_r. reflexivity.
Qed.

(** A literal piece does not match where the first character differs. *)
Lemma run_chars_miss (x : N) (p : jstr) (c : N) (t : jstr) (pos : nat)
      (caps : list (nat * jstr)) (k : mstate -> option mstate) :
  N.eqb (canonicalize x) (canonicalize c) = false ->
  run true (chars (x :: p)) k (MState pos (c :: t) caps) = None.
Proof.
  intros H.
  change (run true (chars (x :: p)) k (MState pos (c :: t) caps))
    with (if N.eqb (canonicalize x) (canonicalize c)
          then run true (chars p) k (MState (S pos) t caps)
          else None).
  rewrite H. reflexivity.
Qed.

(** A lazy quantifier goes on exactly as long as the continuation fails. *)
Lemma rep_lazy_run (ic : bool) (a : atom) (k : nat -> jstr -> option mstate)
      (y : mstate) (body rest : jstr) :
  forall pos,
    forallb (atom_matches ic a) body = true ->
    (forall p c t, In c body -> k p (c :: t) = None) ->
    k (pos + length body) rest = Some y ->
    rep ic a false k 0 None pos (body ++ rest) = Some y.
Proof.
  induction body as [|x l IH]; intros pos A F K.
  - simpl in *. rewrite Nat.add_0_r in K.
    destruct rest; simpl; rewrite K; reflexivity.
  - simpl in A. apply andb_true_iff in A. destruct A as [Ax Al].
    simpl app. simpl rep. rewrite (F pos x (l ++ rest) (or_introl eq_refl)), Ax.
    simpl. apply IH.
    + exact Al.
    + intros p c t Hc. apply F. right. exact Hc.
    + simpl in K. rewrite <- K. f_equal. lia.
Qed.

Lemma exec_from_skip (ic : bool) (r : regex) (ws : jstr) :
  forall pos s,
    (forall p c t, In c ws -> attempt ic r p (c :: t) = None) ->
    exec_from ic r pos (ws ++ s) = exec_from ic r (pos + length ws) s.
Proof.
  induction ws as [|w ws IH]; intros pos s F.
  - simpl. rewrite Nat.add_0_r. reflexivity.
  - simpl app. rewrite exec_from_eq, (F pos w (ws ++ s) (or_introl eq_refl)).
    rewrite IH.
    + simpl length. rewrite Nat.add_succ_r. reflexivity.
    + intros p c t Hc. apply F. right. exact Hc.
Qed.

Lemma trimStart_blank_prefix (ws : jstr) (c : N) (t : jstr) :
  blank ws = true -> is_white_space c = false ->
  trimStart (ws ++ c :: t) = c :: t.
Proof.
  intros B W. induction ws as [|w ws IH]; simpl.
  - rewrite W. reflexivity.
  - simpl in B. apply andb_true_iff in B. destruct B as [Bw Bws].
    rewrite Bw. apply IH, Bws.
Qed.

Lemma white_space_not_lt (c : N) : is_white_space c = true -> N.eqb 60 c = false.
Proof.
  intros W. destruct (N.eqb_spec 60 c) as [<-|]; [discriminate W | reflexivity].
Qed.

(** The title pattern on content that begins, after white space, with a
    title element whose text holds no [<] and no line terminator: the
    capture is that text. *)
Lemma title_pattern_match (ws0 opening attrs body closing post : jstr) :
  blank ws0 = true ->
  map canonicalize opening = map canonicalize (lit "<title") ->
  forallb (fun c => negb (N.eqb c 62)) attrs = true ->
  forallb (fun c => negb (N.eqb c 60) && negb (is_line_terminator c)) body = true ->
  map canonicalize closing = map canonicalize (lit "</title>") ->
  exists m,
    match_first true Patterns.title
      (ws0 ++ opening ++ attrs ++ [62%N] ++ body ++ closing ++ post) = Some m /\
    group 1 m = Some body.
Proof.
  intros B O A Bd C.
  set (s := opening ++ attrs ++ [62%N] ++ body ++ closing ++ post).
  set (p0 := 0 + length ws0).
  set (x3 := MState (S (p0 + length (lit "<title") + length attrs))
                    (body ++ closing ++ post) []).
  set (y := MState (m_pos x3 + length body + length (lit "</title>")) post
                   [(1, body)]).
  assert (R : run true Patterns.title Some (MState p0 s []) = Some y).
  { unfold Patterns.title, text, star, lazy_star, not_char, s.
    change (run true
              (Cat (chars (lit "<title"))
                 (Cat (Rep (Bracket true [CChar (chr ">")]) 0 None true)
                    (Cat (chars (lit ">"))
                       (Cat (Group 1 (Rep Dot 0 None false))
                            (chars (lit "</title>"))))))
              Some
              (MState p0 (opening ++ attrs ++ [62%N] ++ body ++ closing ++ post) []))
      with (run true (chars (lit "<title"))
              (run true
                 (Cat (Rep (Bracket true [CChar (chr ">")]) 0 None true)
                    (Cat (chars (lit ">"))
                       (Cat (Group 1 (Rep Dot 0 None false))
                            (chars (lit "</title>")))))
                 Some)
              (MState p0 (opening ++ attrs ++ [62%N] ++ body ++ closing ++ post) [])).
    rewrite (run_chars (lit "<title") opening _ p0 [] _ O).
    change (run true
              (Cat (Rep (Bracket true [CChar (chr ">")]) 0 None true)
                 (Cat (chars (lit ">"))
                    (Cat (Group 1 (Rep Dot 0 None false))
                         (chars (lit "</title>")))))
              Some
              (MState (p0 + length (lit "<title"))
                      (attrs ++ [62%N] ++ body ++ closing ++ post) []))
      with (rep true (Bracket true [CChar (chr ">")]) true
              (fun pos rest =>
                 run true
                   (Cat (chars (lit ">"))
                      (Cat (Group 1 (Rep Dot 0 None false))
                           (chars (lit "</title>"))))
                   Some (MState pos rest []))
              0 None (p0 + length (lit "<title"))
              (attrs ++ [62%N] ++ body ++ closing ++ post)).
    apply rep_greedy_run.
    - rewrite (forallb_same _ (fun c => negb (N.eqb c 62))); [exact A|].
      intros c.
      change (atom_matches true (Bracket true [CChar (chr ">")]) c)
        with (xorb true (N.eqb (canonicalize 62) (canonicalize c) || false)).
      rewrite orb_false_r, canonicalize_gt, N.eqb_sym. reflexivity.
    - reflexivity.
    - lia.
    - exact I.
    - change (run true
                (Cat (chars (lit ">"))
                   (Cat (Group 1 (Rep Dot 0 None false)) (chars (lit "</title>"))))
                Some
                (MState (p0 + length (lit "<title") + length attrs)
                        ([62%N] ++ body ++ closing ++ post) []))
        with (rep true Dot false
                (fun pos rest =>
                   run true (chars (lit "</title>")) Some
                       (capture 1 x3 (MState pos rest [])))
                0 None (m_pos x3) (body ++ closing ++ post)).
      apply rep_lazy_run.
      + rewrite forallb_forall in *. intros c Hc. specialize (Bd c Hc).
        apply andb_true_iff in Bd. destruct Bd as [_ Bd]. exact Bd.
      + intros p c t Hc. unfold capture. simpl m_pos. simpl m_rest. simpl m_caps.
        apply run_chars_miss.
        rewrite canonicalize_lt. rewrite forallb_forall in Bd.
        specialize (Bd c Hc). apply andb_true_iff in Bd. destruct Bd as [Bd _].
        apply negb_true_iff in Bd. rewrite N.eqb_sym. exact Bd.
      + unfold capture. simpl m_pos. simpl m_rest. simpl m_caps.
        rewrite (run_chars (lit "</title>") closing post _ _ Some C).
        unfold y. simpl m_pos. f_equal. f_equal.
        match goal with
        | |- [(1, firstn ?n _)] = _ =>
            replace n with (length body + 0) by lia
        end.
        rewrite firstn_app_2. simpl. rewrite app_nil_r. reflexivity. }
  exists (MatchResult p0 (firstn (m_pos y - p0) s) [(1, body)]). split.
  - unfold match_first. rewrite exec_from_skip.
    + rewrite exec_from_eq. unfold attempt. fold p0. rewrite R. reflexivity.
    + intros p c t Hc. unfold attempt, Patterns.title, text.
      change (lit "<title") with (60%N :: lit "title").
      change (run true
                (Cat (chars (60%N :: lit "title")) ?r) Some (MState p (c :: t) []))
        with (run true (chars (60%N :: lit "title")) (run true r Some)
                  (MState p (c :: t) [])).
      rewrite run_chars_miss; [reflexivity|].
      rewrite canonicalize_lt. apply white_space_not_lt.
      unfold blank in B. rewrite forallb_forall in B. apply B, Hc.
  - reflexivity.
Qed.

Lemma canonical_lt (o : N) : canonicalize o = canonicalize 60 -> o = 60%N.
Proof.
  intros E. pose proof (canonicalize_lt o) as H. rewrite E, N.eqb_refl in H.
  symmetry in H. apply N.eqb_eq in H. symmetry. exact H.
Qed.

(** [\s*] at the end of a pattern with the [i] flag. *)
Lemma trailing_spaces_ic (ws : jstr) (c : N) (t : jstr) (pos : nat)
      (caps : list (nat * jstr)) :
  blank ws = true -> is_white_space c = false ->
  run true (star Patterns.space) Some (MState pos (ws ++ c :: t) caps)
  = Some (MState (pos + length ws) (c :: t) caps).
Proof.
  intros B W. unfold star. simpl run.
  apply (rep_greedy_run true Patterns.space
           (fun p r => Some (MState p r caps)) _ ws (c :: t) 0 None pos).
  - exact B.
  - simpl. exact W.
  - lia.
  - exact I.
  - reflexivity.
Qed.

(** The prefix pattern of the title heuristic removes a leading [Role:],
    in any case, and the white space after it. *)
Lemma role_prefix_stripped (label ws : jstr) (c : N) (t : jstr) :
  map canonicalize label = map canonicalize (lit "Role:") ->
  blank ws = true -> is_white_space c = false ->
  replace true Patterns.rolePrefix [] (label ++ ws ++ c :: t) = c :: t.
Proof.
  intros L B W. unfold Patterns.rolePrefix, text. rewrite replace_anchored.
  unfold attempt.
  change (run true (Cat Bol (Cat (chars (lit "Role:")) (star Patterns.space))) Some
            (MState 0 (label ++ ws ++ c :: t) []))
    with (run true (chars (lit "Role:")) (run true (star Patterns.space) Some)
              (MState 0 (label ++ ws ++ c :: t) [])).
  rewrite (run_chars (lit "Role:") label _ 0 [] _ L).
  rewrite trailing_spaces_ic by assumption.
  cbv beta iota delta [matched m_pos]. rewrite Nat.sub_0_r.
  assert (Ll : length label = 5).
  { rewrite <- (length_map canonicalize), L. reflexivity. }
  rewrite length_firstn, Nat.min_l.
  - rewrite app_assoc, skipn_app.
    rewrite skipn_all2 by (rewrite length_app; simpl; lia).
    rewrite length_app. simpl length at 1. rewrite Ll.
    replace (0 + 5 + length ws - (5 + length ws)) with 0 by lia. reflexivity.
  - rewrite !length_app. simpl. lia.
Qed.

Lemma title_element_core (today ws0 opening attrs body closing post : jstr) :
  blank ws0 = true ->
  map canonicalize opening = map canonicalize (lit "<title") ->
  forallb (fun c => negb (N.eqb c 62)) attrs = true ->
  forallb (fun c => negb (N.eqb c 60) && negb (is_line_terminator c)) body = true ->
  map canonicalize closing = map canonicalize (lit "</title>") ->
  trim (replace true Patterns.rolePrefix [] (trim body)) <> [] ->
  heuristicTitle (ws0 ++ opening ++ attrs ++ [62%N] ++ body ++ closing ++ post)
  = trim (replace true Patterns.rolePrefix [] (trim body)) /\
  extractTitleFromContent today
    (ws0 ++ opening ++ attrs ++ [62%N] ++ body ++ closing ++ post)
  = limitTitle (trim (replace true Patterns.rolePrefix [] (trim body))).
Proof.
  intros B O A Bd C Ne.
  set (content := ws0 ++ opening ++ attrs ++ [62%N] ++ body ++ closing ++ post).
  destruct (title_pattern_match ws0 opening attrs body closing post B O A Bd C)
    as [m [Hm Hg]].
  fold content in Hm.
  destruct opening as [|o opening']; [discriminate O|].
  assert (Eo : o = 60%N).
  { apply canonical_lt. simpl in O. injection O as O _. exact O. }
  subst o.
  assert (Ts : trimStart content = 60%N :: opening' ++ attrs ++ [62%N] ++ body
                                   ++ closing ++ post).
  { unfold content. apply (trimStart_blank_prefix ws0 60 _ B). reflexivity. }
  assert (Bc : blank content = false).
  { rewrite <- blank_trimStart, Ts. reflexivity. }
  assert (M : startsWith (lit "<") (trim content) = true).
  { unfold trim. rewrite Ts.
    destruct (trimEnd_head [] 60 (opening' ++ attrs ++ [62%N] ++ body
                                  ++ closing ++ post) eq_refl) as [t' ->].
    reflexivity. }
  assert (Tb : truthy_str body = true).
  { destruct body; [|reflexivity]. destruct Ne. reflexivity. }
  assert (H : heuristicTitle content
              = trim (replace true Patterns.rolePrefix [] (trim body))).
  { unfold heuristicTitle. rewrite M. unfold xmlTitle. rewrite Hm.
    unfold truthy_capture. rewrite Hg, Tb.
    apply truthy_str_true in Ne. rewrite Ne. simpl negb. cbv iota.
    rewrite Ne. reflexivity. }
  split; [exact H|].
  rewrite (extractTitle_not_blank today content Bc). unfold fullTitle.
  rewrite H. apply truthy_str_true in Ne. rewrite Ne. reflexivity.
Qed.

(** Markup that begins, after white space, with a title element (tag name
    in any case, any attributes) whose text holds no [<] and no line
    terminator: the title is that text, trimmed, without a leading
    [Role:], trimmed again, when this is not empty; no later heuristic is
    consulted. *)
Theorem title_element_is_title (today ws0 opening attrs body closing post : jstr) :
  blank ws0 = true ->
  map canonicalize opening = map canonicalize (lit "<title") ->
  forallb (fun c => negb (N.eqb c 62)) attrs = true ->
  forallb (fun c => negb (N.eqb c 60) && negb (is_line_terminator c)) body = true ->
  map canonicalize closing = map canonicalize (lit "</title>") ->
  trim (replace true Patterns.rolePrefix [] (trim body)) <> [] ->
  heuristicTitle (ws0 ++ opening ++ attrs ++ [62%N] ++ body ++ closing ++ post)
  = trim (replace true Patterns.rolePrefix [] (trim body)) /\
  extractTitleFromContent today
    (ws0 ++ opening ++ attrs ++ [62%N] ++ body ++ closing ++ post)
  = limitTitle (trim (replace true Patterns.rolePrefix [] (trim body))).
Proof. apply title_element_core. Qed.

(** The same, for a title text that reads [Role:] (in any case), optional
    white space, and then the name: the title is the name. *)
Theorem title_element_role_prefix
        (today ws0 opening attrs body closing post label ws : jstr)
        (c : N) (t : jstr) :
  blank ws0 = true ->
  map canonicalize opening = map canonicalize (lit "<title") ->
  forallb (fun c => negb (N.eqb c 62)) attrs = true ->
  forallb (fun c => negb (N.eqb c 60) && negb (is_line_terminator c)) body = true ->
  map canonicalize closing = map canonicalize (lit "</title>") ->
  trim body = label ++ ws ++ c :: t ->
  map canonicalize label = map canonicalize (lit "Role:") ->
  blank ws = true -> is_white_space c = false ->
  extractTitleFromContent today
    (ws0 ++ opening ++ attrs ++ [62%N] ++ body ++ closing ++ post)
  = limitTitle (c :: t).
Proof.
  intros B O A Bd C Tb L Bw W.
  assert (E : trim (replace true Patterns.rolePrefix [] (trim body)) = c :: t).
  { rewrite Tb, (role_prefix_stripped label ws c t L Bw W).
    apply (trimmed_tail (label ++ ws) c t); [|exact W].
    rewrite <- app_assoc, <- Tb. apply trim_idempotent. }
  rewrite <- E.
  apply (title_element_core today ws0 opening attrs body closing post B O A Bd C).
  rewrite E. discriminate.
Qed.

Lemma title_element_role_prefix_witness :
  extractTitleFromContent (lit "2026/11/2")
    ([] ++ lit "<title" ++ [] ++ [62%N] ++ lit "Role: Foo" ++ lit "</title>" ++ [])
  = lit "Foo".
Proof.
  etransitivity.
  - apply (title_element_role_prefix (lit "2026/11/2")
             [] (lit "<title") [] (lit "Role: Foo") (lit "</title>") []
             (lit "Role:") (lit " ") 70%N (lit "oo")
             ltac:(vm_compute; reflexivity) ltac:(vm_compute; reflexivity)
             ltac:(vm_compute; reflexivity) ltac:(vm_compute; reflexivity)
             ltac:(vm_compute; reflexivity) ltac:(vm_compute; reflexivity)
             ltac:(vm_compute; reflexivity) ltac:(vm_compute; reflexivity)
             ltac:(vm_compute; reflexivity)).
  - vm_compute. reflexivity.
Defined.

Lemma title_element_is_title_witness :
  extractTitleFromContent (lit "2026/11/2")
    (lit "  " ++ lit "<TITLE" ++ lit " lang='en'" ++ [62%N]
     ++ lit " role:  Code Reviewer " ++ lit "</Title>"
     ++ lit "<p>You review code.</p>")
  = lit "Code Reviewer".
Proof.
  etransitivity.
  - apply (proj2 (title_element_is_title (lit "2026/11/2")
             (lit "  ") (lit "<TITLE") (lit " lang='en'")
             (lit " role:  Code Reviewer ") (lit "</Title>")
             (lit "<p>You review code.</p>")
             ltac:(vm_compute; reflexivity) ltac:(vm_compute; reflexivity)
             ltac:(vm_compute; reflexivity) ltac:(vm_compute; reflexivity)
             ltac:(vm_compute; reflexivity) ltac:(vm_compute; discriminate))).
  - vm_compute. reflexivity.
Defined.

(** ** More on the tag editor *)

Lemma filter_keeps_all (tag : jstr) (l : list jstr) :
  ~ In tag l -> filter (fun t => negb (jstr_eqb t tag)) l = l.
Proof.
  intros H. induction l as [|x l IH]; simpl; [reflexivity|].
  destruct (jstr_eqb x tag) eqn:E.
  - apply jstr_eqb_eq in E. subst x. destruct H. left. reflexivity.
  - simpl. rewrite IH; [reflexivity|]. intros Hin. apply H. right. exact Hin.
Qed.

(** The condition under which [addTag] adds. *)
Lemma addTag_accepts (d : dialog) :
  blank (newTag d) = false -> ~ In (trim (newTag d)) (tags d) ->
  length (tags d) < 10 ->
  addTag d = (Return tt, Dialog [] (tags d ++ [trim (newTag d)])
                                (conversationHistory d) (conversationFormatError d)).
Proof.
  intros B I L. unfold addTag. rewrite truthy_trim, B.
  destruct (includes (trim (newTag d)) (tags d)) eqn:E.
  - apply includes_In in E. contradiction.
  - apply Nat.ltb_lt in L. rewrite L. reflexivity.
Qed.

(** Adding a tag and then removing it gives back the list of tags there
    was, in the same order, when the tag was really added: the typed text
    is not blank, its trimmed form is not yet a tag, and there are fewer
    than 10 tags. *)
Theorem add_then_remove_tag (d : dialog) :
  blank (newTag d) = false -> ~ In (trim (newTag d)) (tags d) ->
  length (tags d) < 10 ->
  tags (snd (addTag d)) = tags d ++ [trim (newTag d)] /\
  newTag (snd (addTag d)) = [] /\
  tags (snd (removeTag (trim (newTag d)) (snd (addTag d)))) = tags d.
Proof.
  intros B I L. rewrite (addTag_accepts d B I L). simpl.
  split; [reflexivity | split; [reflexivity|]].
  rewrite filter_app. simpl. rewrite jstr_eqb_refl. simpl.
  rewrite app_nil_r. apply filter_keeps_all, I.
Qed.

Lemma add_then_remove_tag_witness :
  tags (snd (removeTag (lit "draft")
               (snd (addTag (Dialog (lit " draft ") [lit "qa"; lit "ops"] [] [])))))
  = [lit "qa"; lit "ops"].
Proof.
  apply (proj2 (proj2 (add_then_remove_tag
                         (Dialog (lit " draft ") [lit "qa"; lit "ops"] [] [])
                         ltac:(vm_compute; reflexivity)
                         ltac:(vm_compute; intuition discriminate)
                         ltac:(vm_compute; lia)))).
Defined.



(** Calling [addTag] twice in a row, as a double click or a repeated
    Enter does, is the same as calling it once. *)
Theorem addTag_twice (d : dialog) :
  addTag (snd (addTag d)) = addTag d.
Proof.
  unfold addTag at 2 3.
  destruct (truthy_str (trim (newTag d))
            && negb (includes (trim (newTag d)) (tags d))
            && (length (tags d) <? 10)) eqn:C.
  - reflexivity.
  - simpl snd. unfold addTag. rewrite C. reflexivity.
Qed.

(** Every tag is stored trimmed: from a list of trimmed tags, and so from
    the empty list, no sequence of typing, adding and removing leaves a
    tag with white space at either end. *)
Theorem tags_stay_trimmed (actions : list tag_action) (d : dialog) :
  Forall (fun t => trim t = t) (tags d) ->
  Forall (fun t => trim t = t) (tags (perform_all actions d)).
Proof.
  revert d. induction actions as [|a others IH]; intros d H; [exact H|].
  simpl. apply IH. destruct a; simpl.
  - exact H.
  - rewrite addTag_tags. destruct (_ && _); [|exact H].
    apply Forall_app. split; [exact H|].
    constructor; [apply trim_idempotent | constructor].
  - rewrite Forall_forall in *. intros t Ht. apply filter_In in Ht. apply H, Ht.
Qed.

Lemma tags_stay_trimmed_witness :
  Forall (fun t => trim t = t)
    (tags (perform_all [TypeNewTag (lit "  to do  "); AddTag] (Dialog [] [] [] []))).
Proof.
  apply (tags_stay_trimmed [TypeNewTag (lit "  to do  "); AddTag]
                           (Dialog [] [] [] [])).
  constructor.
Defined.

(** ** Watchers, the format button and saving *)

Section DialogProperties.
Variable syntaxErrorMessage : jstr -> jstr.
Variable typeErrorMessage : jstr.
Variable JSON_stringify : value -> nat -> jstr.
Variable today : jstr.

Local Abbreviation validate :=
  (validateConversationJson syntaxErrorMessage typeErrorMessage).
Local Abbreviation parse := (JSON_parse syntaxErrorMessage).
Local Abbreviation synced := (in_sync syntaxErrorMessage typeErrorMessage).
Local Abbreviation historyOf f := (conversationHistory (SaveForm.editor f)).
Local Abbreviation errorOf f := (conversationFormatError (SaveForm.editor f)).
Local Abbreviation run_step :=
  (step syntaxErrorMessage typeErrorMessage JSON_stringify today).
Local Abbreviation run_steps :=
  (steps syntaxErrorMessage typeErrorMessage JSON_stringify today).

Lemma validate_returns (raw : jstr) : exists e, validate raw = Return e.
Proof.
  destruct (blank raw) eqn:B; [exists []; apply validate_blank, B|].
  destruct (parse_cases syntaxErrorMessage raw) as [[v [P _]] | [P _]].
  - rewrite (validate_parsed _ _ raw v B P).
    destruct v; try (eexists; reflexivity). apply check_total.
  - rewrite (validate_thrown _ _ raw _ B P). eexists; reflexivity.
Qed.

(** What [in_sync] looks at. *)
Lemma synced_same (f g : SaveForm.t) :
  SaveForm.promptType f = SaveForm.promptType g ->
  historyOf f = historyOf g -> errorOf f = errorOf g ->
  synced f -> synced g.
Proof.
  unfold in_sync. intros T H E. rewrite T, H, E. intros S. exact S.
Qed.

(** The history watcher's callback, run on the current history, brings
    the error in line with it. *)
Lemma history_callback_syncs (g : SaveForm.t) :
  synced (snd (onConversationHistory syntaxErrorMessage typeErrorMessage
                 (historyOf g) g)).
Proof.
  unfold onConversationHistory, in_sync.
  destruct (jstr_eqb (SaveForm.promptType g) (lit "user")) eqn:T; simpl.
  - destruct (validate_returns (historyOf g)) as [e E]. rewrite E. simpl.
    rewrite T. exact E.
  - rewrite T. reflexivity.
Qed.

Lemma history_callback_type (s : jstr) (g : SaveForm.t) :
  SaveForm.promptType
    (snd (onConversationHistory syntaxErrorMessage typeErrorMessage s g))
  = SaveForm.promptType g.
Proof.
  unfold onConversationHistory.
  destruct (negb (jstr_eqb (SaveForm.promptType g) (lit "user"))); [reflexivity|].
  destruct (validate s); reflexivity.
Qed.

(** The type watcher's callback, run on the current type, brings the
    error in line unless the type is the user type, the history is empty
    and a stale error is present. *)
Lemma type_callback_syncs (g : SaveForm.t) :
  jstr_eqb (SaveForm.promptType g) (lit "user") = false
  \/ historyOf g <> [] \/ errorOf g = [] ->
  synced (snd (onPromptType syntaxErrorMessage typeErrorMessage
                 (SaveForm.promptType g) g)).
Proof.
  intros H. unfold onPromptType, in_sync.
  destruct (jstr_eqb (SaveForm.promptType g) (lit "user")) eqn:T; simpl.
  - destruct (historyOf g) as [|c h] eqn:Hh; simpl.
    + rewrite T, Hh. destruct H as [H|[H|H]]; [discriminate | congruence|].
      rewrite H. reflexivity.
    + destruct (validate_returns (c :: h)) as [e E]. rewrite E. simpl.
      rewrite T, Hh. exact E.
  - rewrite T. reflexivity.
Qed.

Lemma synced_error_free (g : SaveForm.t) :
  synced g -> synced g ->
  jstr_eqb (SaveForm.promptType g) (lit "user") = false
  \/ historyOf g <> [] \/ errorOf g = [] .
Proof.
  intros S _. unfold in_sync in S.
  destruct (jstr_eqb (SaveForm.promptType g) (lit "user")) eqn:T;
    [|left; reflexivity].
  destruct (historyOf g) as [|c h] eqn:Hh; [|right; left; discriminate].
  right. right. rewrite (validate_blank _ _ [] eq_refl) in S.
  injection S as S. symmetry. exact S.
Qed.

(** The watchers after an event. *)
Lemma flush_syncs (before after : SaveForm.t) :
  (jstr_eqb (historyOf before) (historyOf after) = true -> 
   jstr_eqb (SaveForm.promptType before) (SaveForm.promptType after) = true ->
   synced after) ->
  (jstr_eqb (historyOf before) (historyOf after) = true -> 
   jstr_eqb (SaveForm.promptType before) (SaveForm.promptType after) = false ->
   jstr_eqb (SaveForm.promptType after) (lit "user") = false
   \/ historyOf after <> [] \/ errorOf after = []) ->
  synced (flush syntaxErrorMessage typeErrorMessage before after).
Proof.
  intros Same Changed. unfold flush.
  destruct (jstr_eqb (historyOf before) (historyOf after)) eqn:H.
  - destruct (jstr_eqb (SaveForm.promptType before) (SaveForm.promptType after)) eqn:T.
    + apply Same; reflexivity.
    + apply type_callback_syncs, Changed; reflexivity.
  - pose proof (history_callback_syncs after) as S1.
    pose proof (history_callback_type (historyOf after) after) as T1.
    destruct (jstr_eqb (SaveForm.promptType before) (SaveForm.promptType after));
      [exact S1|].
    rewrite <- T1. apply type_callback_syncs.
    apply synced_error_free; exact S1.
Qed.

Lemma perform_keeps_history (a : tag_action) (d : dialog) :
  conversationHistory (snd (perform a d)) = conversationHistory d /\
  conversationFormatError (snd (perform a d)) = conversationFormatError d.
Proof.
  destruct a; simpl; try (split; reflexivity).
  unfold addTag. destruct (_ && _); split; reflexivity.
Qed.

(** With the error in line and the button shown, the history is blank or
    parses, so the handler's [catch] is not reached. *)
Lemma format_button_parses (f : SaveForm.t) :
  synced f ->
  formatVisible f = true ->
  blank (historyOf f) = false ->
  exists items, parse (historyOf f) = Return (VArray items).
Proof.
  intros S V B. unfold formatVisible in V.
  apply andb_true_iff in V. destruct V as [V _].
  apply andb_true_iff in V. destruct V as [T E].
  apply negb_true_iff, truthy_str_false in E.
  unfold in_sync in S. rewrite T, E in S.
  destruct (parse_cases syntaxErrorMessage (historyOf f)) as [[v [P _]] | [P _]].
  - rewrite (validate_parsed _ _ _ v B P) in S.
    destruct v; try (injection S as S; destruct (arrayMessage_nonempty S)).
    exists items. exact P.
  - rewrite (validate_thrown _ _ _ _ B P) in S. injection S as S.
    destruct (error_text_nonempty (SyntaxError (syntaxErrorMessage (historyOf f))) S).
Qed.

Lemma step_syncs (e : event) (f : SaveForm.t) : synced f -> synced (run_step e f).
Proof.
  intros S. destruct e; simpl step;
    try (apply (synced_same f); [reflexivity | reflexivity | reflexivity | exact S]).
  - (* the history textarea *)
    apply flush_syncs; simpl.
    + intros H _. apply jstr_eqb_eq in H.
      apply (synced_same f); simpl; [reflexivity | exact H | reflexivity | exact S].
    + intros _ T. rewrite jstr_eqb_refl in T. discriminate.
  - (* the type radio *)
    apply flush_syncs; simpl.
    + intros _ T. apply jstr_eqb_eq in T.
      apply (synced_same f); simpl; [exact T | reflexivity | reflexivity | exact S].
    + intros _ T.
      destruct (jstr_eqb ty (lit "user")) eqn:U; [|left; reflexivity].
      apply jstr_eqb_eq in U. subst ty. right.
      destruct (historyOf f) as [|c h] eqn:Hh; [right | left; discriminate].
      unfold in_sync in S. rewrite T in S. exact S.
  - (* the format button *)
    destruct (formatVisible f) eqn:V; [|exact S].
    destruct (blank (historyOf f)) eqn:B.
    + unfold on_editor. rewrite (format_blank _ _ _ B). simpl.
      apply flush_syncs.
      * intros _ _. apply (synced_same f); try reflexivity. exact S.
      * intros _ T. rewrite jstr_eqb_refl in T. discriminate.
    + destruct (format_button_parses f S V B) as [items P].
      unfold on_editor. rewrite (format_parsed _ _ _ _ B P). simpl.
      apply flush_syncs; simpl.
      * intros H _. apply jstr_eqb_eq in H.
        unfold formatVisible in V.
        apply andb_true_iff in V. destruct V as [V _].
        apply andb_true_iff in V. destruct V as [T E].
        apply negb_true_iff, truthy_str_false in E.
        unfold in_sync in *. simpl. rewrite T in *. rewrite <- H, <- E. exact S.
      * intros _ T. rewrite jstr_eqb_refl in T. discriminate.
  - (* the tag editor *)
    unfold on_editor.
    destruct (perform_keeps_history a (SaveForm.editor f)) as [H E].
    destruct (perform a (SaveForm.editor f)) as [c d] eqn:Pf. simpl in *.
    apply (synced_same f); simpl; [reflexivity | symmetry; exact H
                                  | symmetry; exact E | exact S].
  - (* opening *)
    apply flush_syncs; simpl.
    + intros _ _. unfold in_sync. reflexivity.
    + intros _ _. left. reflexivity.
Qed.

Lemma steps_sync (events : list event) :
  forall f, synced f -> synced (run_steps events f).
Proof.
  induction events as [|e others IH]; intros f S; [exact S|].
  simpl. apply IH, step_syncs, S.
Qed.

Lemma initial_synced : synced SaveForm.initial.
Proof. unfold in_sync. reflexivity. Qed.

(** Whatever the user does (typing in any field, choosing the type,
    formatting, editing tags, the dialog being opened again), once the
    watchers have run the error shown for the user type is exactly what
    the validator returns on the stored history, and there is no error for
    any other type. *)
Theorem error_follows_history (events : list event) (f : SaveForm.t) :
  in_sync syntaxErrorMessage typeErrorMessage f ->
  in_sync syntaxErrorMessage typeErrorMessage (run_steps events f) /\
  in_sync syntaxErrorMessage typeErrorMessage (run_steps events SaveForm.initial).
Proof.
  intros S. split; apply steps_sync; [exact S | apply initial_synced].
Qed.

(** When the format button is shown and the error is in line with the
    history, a click never ends in the formatting error: the history is
    blank and nothing happens, or it parses as an array and is replaced by
    its re-serialization. *)
Theorem format_button_never_fails (f : SaveForm.t) :
  in_sync syntaxErrorMessage typeErrorMessage f ->
  formatVisible f = true ->
  (blank (historyOf f) = true /\
   formatConversationJson syntaxErrorMessage JSON_stringify (SaveForm.editor f)
   = (Return tt, SaveForm.editor f)) \/
  (exists items,
     parse (historyOf f) = Return (VArray items) /\
     formatConversationJson syntaxErrorMessage JSON_stringify (SaveForm.editor f)
     = (Return tt,
        Dialog (newTag (SaveForm.editor f)) (tags (SaveForm.editor f))
               (JSON_stringify (VArray items) 2) [])).
Proof.
  intros S V. destruct (blank (historyOf f)) eqn:B.
  - left. split; [reflexivity | apply format_blank, B].
  - right. destruct (format_button_parses f S V B) as [items P].
    exists items. split; [exact P | apply format_parsed; assumption].
Qed.

(** A save of the user type that gets through [handleSave] after any
    sequence of events carries the trimmed form of a history the validator
    accepts. *)
Theorem saved_history_is_accepted (events : list event) (p : props)
        (data : SaveData.t) :
  handleSave p (run_steps events SaveForm.initial) = Some (EmitSave data) ->
  SaveData.promptType data = lit "user" ->
  validate (historyOf (run_steps events SaveForm.initial)) = Return [] /\
  SaveData.conversationHistory data
  = trim (historyOf (run_steps events SaveForm.initial)).
Proof.
  pose proof (steps_sync events SaveForm.initial initial_synced) as S.
  set (f := run_steps events SaveForm.initial) in *.
  unfold handleSave. intros H U.
  destruct (negb (truthy_str (trim (SaveForm.title f)))); [discriminate|].
  destruct (negb (truthy_str (promptContent p))
            && negb (truthy_str (trim (SaveForm.content f)))); [discriminate|].
  destruct (jstr_eqb (SaveForm.promptType f) (lit "user")) eqn:T.
  - destruct (truthy_str (errorOf f)) eqn:E; [discriminate|].
    injection H as <-. simpl. split; [|reflexivity].
    unfold in_sync in S. rewrite T in S.
    apply truthy_str_false in E. rewrite E in S. exact S.
  - simpl in H. injection H as <-. simpl in U.
    rewrite U, jstr_eqb_refl in T. discriminate.
Qed.

End DialogProperties.

(** ** What a save event carries *)

Lemma title_pass (today content : jstr) :
  truthy_str (trim (extractTitleFromContent today content)) = true.
Proof.
  rewrite truthy_trim. apply negb_true_iff.
  destruct (blank content) eqn:C.
  - rewrite (extractTitle_blank today content C). apply defaultTitle_not_blank.
  - rewrite (extractTitle_not_blank today content C).
    apply limitTitle_not_blank, fullTitle_not_blank.
Qed.

(** Every save event that [handleSave] emits has a title that is not
    empty; its title, description, content, system prompt and history have
    no white space at either end; for a type other than the user type the
    system prompt and the history are empty; for the user type there is no
    shown error; without a prompt passed in by the parent the content is
    not empty; the tags are those of the form. *)
Theorem save_data_well_formed (p : props) (f : SaveForm.t) (data : SaveData.t) :
  handleSave p f = Some (EmitSave data) ->
  SaveData.title data <> [] /\
  trim (SaveData.title data) = SaveData.title data /\
  trim (SaveData.description data) = SaveData.description data /\
  trim (SaveData.content data) = SaveData.content data /\
  trim (SaveData.systemPrompt data) = SaveData.systemPrompt data /\
  trim (SaveData.conversationHistory data) = SaveData.conversationHistory data /\
  (SaveData.promptType data <> lit "user" ->
   SaveData.systemPrompt data = [] /\ SaveData.conversationHistory data = []) /\
  (SaveData.promptType data = lit "user" ->
   conversationFormatError (SaveForm.editor f) = []) /\
  (promptContent p = [] -> SaveData.content data <> []) /\
  SaveData.tags data = tags (SaveForm.editor f).
Proof.
  unfold handleSave.
  destruct (truthy_str (trim (SaveForm.title f))) eqn:T; [|discriminate].
  simpl negb. cbv iota.
  destruct (negb (truthy_str (promptContent p))
            && negb (truthy_str (trim (SaveForm.content f)))) eqn:C;
    [discriminate|].
  destruct (jstr_eqb (SaveForm.promptType f) (lit "user")) eqn:U.
  - destruct (truthy_str (conversationFormatError (SaveForm.editor f))) eqn:E;
      [discriminate|].
    simpl. intros H. injection H as <-. simpl.
    apply jstr_eqb_eq in U. apply truthy_str_false in E.
    split; [apply truthy_str_true, T|].
    split; [apply trim_idempotent|]. split; [apply trim_idempotent|].
    split; [apply trim_idempotent|]. split; [apply trim_idempotent|].
    split; [apply trim_idempotent|].
    split; [intros N; destruct (N U)|].
    split; [intros _; exact E|].
    split; [|reflexivity].
    intros Pc. rewrite Pc in C. simpl in C.
    apply negb_false_iff in C. apply truthy_str_true, C.
  - simpl. intros H. injection H as <-. simpl.
    split; [apply truthy_str_true, T|].
    split; [apply trim_idempotent|]. split; [apply trim_idempotent|].
    split; [apply trim_idempotent|]. split; [reflexivity|].
    split; [reflexivity|].
    split; [intros _; split; reflexivity|].
    split; [intros N; rewrite N, jstr_eqb_refl in U; discriminate|].
    split; [|reflexivity].
    intros Pc. rewrite Pc in C. simpl in C.
    apply negb_false_iff in C. apply truthy_str_true, C.
Qed.

Lemma save_data_well_formed_witness :
  SaveData.title
    (SaveData.Make (lit "Plan") [] [lit "qa"] false (lit "system") (lit "text") [] [])
  <> [].
Proof.
  apply (proj1 (save_data_well_formed
                  (Props true [] false None)
                  (SaveForm.Make (lit " Plan ") [] false (lit "system") (lit " text ")
                                 (lit "ignored") false
                                 (Dialog [] [lit "qa"] (lit "[1") [])) _
                  ltac:(vm_compute; reflexivity))).
Defined.

Section OpenAndSave.
Variable syntaxErrorMessage : jstr -> jstr.
Variable typeErrorMessage : jstr.
Variable JSON_stringify : value -> nat -> jstr.
Variable today : jstr.

(** The state after the dialog has been opened: everything is reset but
    the text of the tag input. *)
Lemma opened_state (p : props) (f : SaveForm.t) :
  step syntaxErrorMessage typeErrorMessage JSON_stringify today (Opened p) f =
  SaveForm.Make
    (match initialTitle p with
     | Some t =>
         if truthy_str t then t
         else extractTitleFromContent today
                (if truthy_str (promptContent p) then promptContent p else [])
     | None =>
         extractTitleFromContent today
           (if truthy_str (promptContent p) then promptContent p else [])
     end)
    [] false (lit "system") [] [] false
    (Dialog (newTag (SaveForm.editor f)) [] [] []).
Proof.
  simpl step. unfold flush. simpl.
  destruct (jstr_eqb _ []); simpl;
    destruct (jstr_eqb (SaveForm.promptType f) (lit "system")); reflexivity.
Qed.

(** Opening the dialog on a prompt that is not empty, without an initial
    title, and pressing Save at once emits a save event: its title is the
    title extracted from the prompt (trimmed), its type is the system
    type, and everything else is empty. The text left in the tag input is
    kept across the reset but is not part of the event. *)
Theorem open_then_save (p : props) (f : SaveForm.t) :
  initialTitle p = None \/ initialTitle p = Some [] ->
  promptContent p <> [] ->
  handleSave p
    (step syntaxErrorMessage typeErrorMessage JSON_stringify today (Opened p) f)
  = Some (EmitSave
            (SaveData.Make (trim (extractTitleFromContent today (promptContent p)))
                           [] [] false (lit "system") [] [] [])) /\
  newTag (SaveForm.editor
            (step syntaxErrorMessage typeErrorMessage JSON_stringify today (Opened p) f))
  = newTag (SaveForm.editor f).
Proof.
  intros I C. rewrite opened_state.
  assert (T : match initialTitle p with
              | Some t =>
                  if truthy_str t then t
                  else extractTitleFromContent today
                         (if truthy_str (promptContent p) then promptContent p else [])
              | None =>
                  extractTitleFromContent today
                    (if truthy_str (promptContent p) then promptContent p else [])
              end = extractTitleFromContent today (promptContent p)).
  { apply truthy_str_true in C. rewrite C.
    destruct I as [-> | ->]; reflexivity. }
  rewrite T. split; [|reflexivity].
  unfold handleSave. simpl SaveForm.title. rewrite title_pass.
  apply truthy_str_true in C. rewrite C. reflexivity.
Qed.

End OpenAndSave.

Lemma open_then_save_witness :
  handleSave (Props true (lit "# Role: Tutor") false None)
    (step (fun _ => lit "Unexpected token") (lit "Cannot read properties")
          (fun _ _ => lit "[]") (lit "2026/11/2")
          (Opened (Props true (lit "# Role: Tutor") false None))
          (SaveForm.Make (lit "old") (lit "old") true (lit "user") [] [] true
                         (Dialog (lit "x") [lit "a"] (lit "[1") (lit "bad"))))
  = Some (EmitSave (SaveData.Make (lit "Tutor") [] [] false (lit "system") [] [] [])).
Proof.
  etransitivity.
  - apply (proj1 (open_then_save (fun _ => lit "Unexpected token")
                    (lit "Cannot read properties") (fun _ _ => lit "[]")
                    (lit "2026/11/2")
                    (Props true (lit "# Role: Tutor") false None) _
                    (or_introl eq_refl) ltac:(vm_compute; discriminate))).
  - vm_compute. reflexivity.
Defined.

Lemma error_follows_history_witness :
  in_sync (fun _ => lit "Unexpected token") (lit "Cannot read properties")
    (steps (fun _ => lit "Unexpected token") (lit "Cannot read properties")
           (fun _ _ => lit "[]") (lit "2026/11/2")
           [ChoosePromptType (lit "user"); InputConversationHistory (json "[1,");
            OnTag (TypeNewTag (lit "a")); OnTag AddTag; ClickFormat;
            ChoosePromptType (lit "system")]
           (SaveForm.Make [] [] false (lit "user") [] [] false
                          (Dialog [] [] (json "{}") (lit "必须是数组格式")))).
Proof.
  apply (proj1 (error_follows_history
                  (fun _ => lit "Unexpected token") (lit "Cannot read properties")
                  (fun _ _ => lit "[]") (lit "2026/11/2")
                  [ChoosePromptType (lit "user"); InputConversationHistory (json "[1,");
                   OnTag (TypeNewTag (lit "a")); OnTag AddTag; ClickFormat;
                   ChoosePromptType (lit "system")]
                  (SaveForm.Make [] [] false (lit "user") [] [] false
                                 (Dialog [] [] (json "{}") (lit "必须是数组格式")))
                  ltac:(vm_compute; reflexivity))).
Defined.

Lemma format_button_never_fails_witness :
  let f := SaveForm.Make (lit "t") [] false (lit "user") [] [] false
             (Dialog [] [] (json "[{'role':'user','content':'hi'}]") []) in
  (blank (conversationHistory (SaveForm.editor f)) = true /\
   formatConversationJson (fun _ => lit "Unexpected token") (fun _ _ => lit "[]")
     (SaveForm.editor f)
   = (Return tt, SaveForm.editor f)) \/
  (exists items,
     JSON_parse (fun _ => lit "Unexpected token")
                (conversationHistory (SaveForm.editor f)) = Return (VArray items) /\
     formatConversationJson (fun _ => lit "Unexpected token") (fun _ _ => lit "[]")
       (SaveForm.editor f)
     = (Return tt,
        Dialog (newTag (SaveForm.editor f)) (tags (SaveForm.editor f))
               ((fun _ _ => lit "[]") (VArray items) 2) [])).
Proof.
  intros f.
  apply (format_button_never_fails
           (fun _ => lit "Unexpected token") (lit "Cannot read properties")
           (fun _ _ => lit "[]") f).
  - vm_compute. reflexivity.
  - vm_compute. reflexivity.
Defined.

Lemma saved_history_is_accepted_witness :
  validateConversationJson (fun _ => lit "Unexpected token") (lit "Cannot read properties")
    (json " [{'role':'user','content':'hi'}] ")
  = Return [].
Proof.
  apply (proj1 (saved_history_is_accepted
                  (fun _ => lit "Unexpected token") (lit "Cannot read properties")
                  (fun _ _ => lit "[]") (lit "2026/11/2")
                  [InputTitle (lit "Greeting"); ChoosePromptType (lit "user");
                   InputConversationHistory (json " [{'role':'user','content':'hi'}] ")]
                  (Props true (lit "Say hi") false None)
                  (SaveData.Make (lit "Greeting") [] [] false (lit "user") [] []
                                 (json "[{'role':'user','content':'hi'}]"))
                  ltac:(vm_compute; reflexivity) eq_refl)).
Defined.

(** ** The history that is saved

    [handleSave] emits the trimmed history, while the watcher validated
    the history as typed. The parser reads each value from a piece of the
    input that parses the same way whatever follows it, so an accepted
    history is still accepted once trimmed. *)


(** ** The validator and trimming *)

Module JsonLocality.
Import Json.

Lemma same_head_app (a x x' : jstr) :
  hd_error x' = hd_error x -> hd_error (a ++ x') = hd_error (a ++ x).
Proof. destruct a; simpl; auto. Qed.

Lemma same_head_solid (a x x' : jstr) :
  a <> [] -> hd_error (a ++ x') = hd_error (a ++ x).
Proof. destruct a; [contradiction | reflexivity]. Qed.

Lemma skip_ws_split (s : jstr) :
  exists w, s = w ++ skip_ws s /\ forallb is_ws w = true.
Proof.
  induction s as [|c t [w [E W]]]; simpl.
  - exists []. split; reflexivity.
  - destruct (is_ws c) eqn:C.
    + exists (c :: w). simpl. rewrite C, W. split; [f_equal; exact E | reflexivity].
    + exists []. split; reflexivity.
Qed.

Lemma skip_ws_solid (s : jstr) (c : N) (t : jstr) :
  skip_ws s = c :: t -> is_ws c = false.
Proof.
  induction s as [|x s IH]; simpl; [discriminate|].
  destruct (is_ws x) eqn:X; [exact IH|].
  intros E. injection E as <- _. exact X.
Qed.

Lemma skip_ws_prefix (w x : jstr) :
  forallb is_ws w = true -> skip_ws (w ++ x) = skip_ws x.
Proof.
  intros W. induction w as [|c w IH]; simpl; [reflexivity|].
  simpl in W. apply andb_true_iff in W. destruct W as [C W].
  rewrite C. apply IH, W.
Qed.

Lemma skip_ws_head (c : N) (t : jstr) : is_ws c = false -> skip_ws (c :: t) = c :: t.
Proof. intros C. simpl. rewrite C. reflexivity. Qed.

Lemma digits_local (s : jstr) :
  s = fst (digits s) ++ snd (digits s) /\
  forall x', hd_error x' = hd_error (snd (digits s)) ->
             digits (fst (digits s) ++ x') = (fst (digits s), x').
Proof.
  induction s as [|c t [E L]]; simpl.
  - split; [reflexivity|]. intros [|y x'] H; [reflexivity | discriminate].
  - destruct (is_digit c) eqn:C.
    + destruct (digits t) as [ds rest] eqn:D. simpl in *. split; [f_equal; exact E|].
      intros x' H. rewrite C, (L x' H). reflexivity.
    + simpl. split; [reflexivity|].
      intros [|y x'] H; [discriminate|]. simpl in H. injection H as ->.
      simpl. rewrite C. reflexivity.
Qed.

Lemma sign_local (m : N) (p : option N) (s : jstr) :
  exists a,
    s = a ++ snd (sign m p s) /\
    forall x', hd_error x' = hd_error (snd (sign m p s)) ->
               sign m p (a ++ x') = (fst (sign m p s), x').
Proof.
  unfold sign. destruct s as [|c t].
  - exists []. split; [reflexivity|].
    intros [|y x'] H; [reflexivity | discriminate].
  - destruct (c =? m)%N eqn:M.
    + exists [c]. split; [reflexivity|]. intros x' _. simpl. rewrite M. reflexivity.
    + destruct p as [q|].
      * destruct (c =? q)%N eqn:Q.
        -- exists [c]. split; [reflexivity|]. intros x' _. simpl.
           rewrite M, Q. reflexivity.
        -- exists []. split; [reflexivity|].
           intros [|y x'] H; [discriminate|]. simpl in H. injection H as ->.
           simpl. rewrite M, Q. reflexivity.
      * exists []. split; [reflexivity|].
        intros [|y x'] H; [discriminate|]. simpl in H. injection H as ->.
        simpl. rewrite M. reflexivity.
Qed.

Lemma int_part_local (s ints rest : jstr) :
  int_part s = Some (ints, rest) ->
  s = ints ++ rest /\ ints <> [] /\
  forall x', hd_error x' = hd_error rest -> int_part (ints ++ x') = Some (ints, x').
Proof.
  unfold int_part. destruct s as [|c t]; [discriminate|].
  destruct (c =? 48)%N eqn:Z.
  - intros H. injection H as <- <-. split; [reflexivity|]. split; [discriminate|].
    intros x' _. simpl. rewrite Z. reflexivity.
  - destruct (is_digit c) eqn:C; [|discriminate].
    destruct (digits_local (c :: t)) as [E L].
    destruct (digits (c :: t)) as [ds0 r0] eqn:Dg.
    cbv beta iota delta [fst snd] in E, L.
    intros H. injection H as <- <-.
    assert (Hi : exists ds, ds0 = c :: ds).
    { simpl in Dg. rewrite C in Dg. destruct (digits t). injection Dg as <- _. eauto. }
    destruct Hi as [ds ->].
    split; [exact E|]. split; [discriminate|].
    intros x' Hx. simpl app. cbv beta iota. rewrite Z, C.
    change (c :: ds ++ x') with ((c :: ds) ++ x'). rewrite (L x' Hx). reflexivity.
Qed.

Lemma frac_part_local (s fracs rest : jstr) :
  frac_part s = Some (fracs, rest) ->
  exists a,
    s = a ++ rest /\
    forall x', hd_error x' = hd_error rest -> frac_part (a ++ x') = Some (fracs, x').
Proof.
  unfold frac_part. destruct s as [|c t].
  - intros H. injection H as <- <-. exists []. split; [reflexivity|].
    intros [|y x'] Hx; [reflexivity | discriminate].
  - destruct (c =? 46)%N eqn:D.
    + destruct (digits_local t) as [E L].
      destruct (digits t) as [[|f fs] r] eqn:Dt; [discriminate|].
      intros H. injection H as <- <-. cbv beta iota delta [fst snd] in E, L.
      exists (c :: f :: fs). split; [simpl; f_equal; exact E|].
      intros x' Hx. simpl app. cbv beta iota. rewrite D.
      change (f :: fs ++ x') with ((f :: fs) ++ x'). rewrite (L x' Hx). reflexivity.
    + intros H. injection H as <- <-. exists []. split; [reflexivity|].
      intros [|y x'] Hx; [discriminate|]. simpl in Hx. injection Hx as ->.
      simpl. rewrite D. reflexivity.
Qed.

Lemma exp_part_local (s : jstr) (e : Z) (rest : jstr) :
  exp_part s = Some (e, rest) ->
  exists a,
    s = a ++ rest /\
    forall x', hd_error x' = hd_error rest -> exp_part (a ++ x') = Some (e, x').
Proof.
  unfold exp_part. destruct s as [|c t].
  - intros H. injection H as <- <-. exists []. split; [reflexivity|].
    intros [|y x'] Hx; [reflexivity | discriminate].
  - destruct ((c =? 69)%N || (c =? 101)%N) eqn:D.
    + destruct (sign_local 45 (Some 43%N) t) as [a0 [E0 L0]].
      destruct (sign 45 (Some 43%N) t) as [eneg t1] eqn:Sg. simpl in E0, L0.
      destruct (digits_local t1) as [E1 L1].
      destruct (digits t1) as [[|d ds] r] eqn:Dt; [discriminate|].
      intros H. injection H as <- <-. cbv beta iota delta [fst snd] in E1, L1.
      exists (c :: a0 ++ d :: ds). split.
      * simpl. f_equal. rewrite <- app_assoc. rewrite E0 at 1. f_equal. exact E1.
      * intros x' Hx. simpl app. cbv beta iota. rewrite D.
        rewrite <- app_assoc.
        rewrite (L0 ((d :: ds) ++ x')) by (rewrite E1; reflexivity).
        rewrite (L1 x' Hx). reflexivity.
    + intros H. injection H as <- <-. exists []. split; [reflexivity|].
      intros [|y x'] Hx; [discriminate|]. simpl in Hx. injection Hx as ->.
      simpl. rewrite D. reflexivity.
Qed.

Lemma number_literal_local (s : jstr) (n : number) (rest : jstr) :
  number_literal s = Some (n, rest) ->
  exists a,
    s = a ++ rest /\ a <> [] /\
    (exists c t, a = c :: t /\ (c = 45%N \/ is_digit c = true)) /\
    forall x', hd_error x' = hd_error rest ->
               number_literal (a ++ x') = Some (n, x').
Proof.
  unfold number_literal.
  destruct (sign_local 45 None s) as [a0 [E0 L0]].
  destruct (sign 45 None s) as [neg s1] eqn:Sg. simpl in E0, L0.
  destruct (int_part s1) as [[ints s2]|] eqn:I; [|discriminate].
  destruct (int_part_local s1 ints s2 I) as [E1 [N1 L1]].
  destruct (frac_part s2) as [[fracs s3]|] eqn:F; [|discriminate].
  destruct (frac_part_local s2 fracs s3 F) as [a2 [E2 L2]].
  destruct (exp_part s3) as [[e s4]|] eqn:X; [|discriminate].
  destruct (exp_part_local s3 e s4 X) as [a3 [E3 L3]].
  intros H. injection H as <- <-.
  exists (a0 ++ ints ++ a2 ++ a3). split; [|split; [|split]].
  - rewrite <- !app_assoc, <- E3, <- E2, <- E1. exact E0.
  - destruct ints; [contradiction|]. destruct a0; discriminate.
  - unfold sign in Sg. destruct s as [|c t].
    + injection Sg as _ <-. discriminate I.
    + destruct (c =? 45)%N eqn:M.
      * injection Sg as _ <-.
        assert (a0 = [c]).
        { apply (app_inv_tail t). simpl. exact (eq_sym E0). }
        subst a0. apply N.eqb_eq in M. simpl. eauto.
      * injection Sg as _ <-.
        assert (a0 = []).
        { apply (app_inv_tail (c :: t)). simpl. exact (eq_sym E0). }
        subst a0. simpl.
        unfold int_part in I. destruct (c =? 48)%N eqn:Z.
        -- injection I as <- _. apply N.eqb_eq in Z. subst c. simpl. eauto.
        -- destruct (is_digit c) eqn:C; [|discriminate].
           destruct ints as [|i ints']; [contradiction|].
           simpl in E1. injection E1 as <- _. simpl. eauto.
  - intros x' Hx. rewrite <- !app_assoc.
    rewrite (L0 (ints ++ a2 ++ a3 ++ x')).
    + rewrite (L1 (a2 ++ a3 ++ x')).
      * rewrite (L2 (a3 ++ x')).
        -- rewrite (L3 x' Hx). reflexivity.
        -- rewrite E3. apply same_head_app, Hx.
      * rewrite E2, E3. apply same_head_app, same_head_app, Hx.
    + rewrite E1. apply same_head_solid, N1.
Qed.

Lemma string_body_local (n : nat) :
  forall s body rest,
    length s <= n -> string_body s = Some (body, rest) ->
    exists a, s = a ++ rest /\
              forall x', string_body (a ++ x') = Some (body, x').
Proof.
  induction n as [|n IH]; intros s body rest L H.
  - destruct s; [discriminate | simpl in L; lia].
  - destruct s as [|c t]; [discriminate|]. simpl in L. simpl in H.
    destruct (c =? 34)%N eqn:Q.
    { injection H as <- <-. exists [c]. split; [reflexivity|].
      intros x'. simpl. rewrite Q. reflexivity. }
    destruct (c =? 92)%N eqn:B.
    { destruct t as [|e t1]; [discriminate|]. simpl in L.
      destruct (e =? 117)%N eqn:U.
      - destruct t1 as [|h1 [|h2 [|h3 [|h4 t2]]]]; try discriminate.
        simpl in L. destruct (hex4 h1 h2 h3 h4) as [u|] eqn:Hx; [|discriminate].
        destruct (string_body t2) as [[b r]|] eqn:E; [|discriminate].
        injection H as <- <-.
        destruct (IH t2 b r ltac:(lia) E) as [a [Ea La]].
        exists (c :: e :: h1 :: h2 :: h3 :: h4 :: a). split.
        + simpl. rewrite Ea. reflexivity.
        + intros x'. simpl. rewrite Q, B, U, Hx, (La x'). reflexivity.
      - destruct (unescape e) as [u|] eqn:Ue; [|discriminate].
        destruct (string_body t1) as [[b r]|] eqn:E; [|discriminate].
        injection H as <- <-.
        destruct (IH t1 b r ltac:(lia) E) as [a [Ea La]].
        exists (c :: e :: a). split.
        + simpl. rewrite Ea. reflexivity.
        + intros x'. simpl. rewrite Q, B, U, Ue, (La x'). reflexivity. }
    destruct (c <? 32)%N eqn:Lo; [discriminate|].
    destruct (string_body t) as [[b r]|] eqn:E; [|discriminate].
    injection H as <- <-.
    destruct (IH t b r ltac:(lia) E) as [a [Ea La]].
    exists (c :: a). split.
    + simpl. rewrite Ea. reflexivity.
    + intros x'. simpl. rewrite Q, B, Lo, (La x'). reflexivity.
Qed.

Lemma startsWith_split (p s : jstr) :
  startsWith p s = true -> s = p ++ skipn (length p) s.
Proof.
  revert s. induction p as [|x p IH]; intros s H; [reflexivity|].
  destruct s as [|c t]; [discriminate|]. simpl in H.
  apply andb_true_iff in H. destruct H as [E H]. apply N.eqb_eq in E. subst c.
  simpl. f_equal. apply IH, H.
Qed.

Lemma number_head_not_letter (c : N) :
  c = 45%N \/ is_digit c = true ->
  N.eqb c 34 = false /\ N.eqb 116 c = false /\ N.eqb 102 c = false
  /\ N.eqb 110 c = false /\ N.eqb c 91 = false /\ N.eqb c 123 = false.
Proof.
  intros [->|D]; [repeat split; reflexivity|].
  unfold is_digit in D. apply andb_true_iff in D. destruct D as [Lo Hi].
  apply N.leb_le in Lo, Hi. repeat split; apply N.eqb_neq; lia.
Qed.

Lemma scalar_local (s : jstr) (v : value) (rest : jstr) :
  scalar s = Parsed v rest ->
  is_array v = false /\
  exists a,
    s = a ++ rest /\ a <> [] /\
    starts 91 a = false /\ starts 123 a = false /\
    forall x', tail_ok v x' rest -> scalar (a ++ x') = Parsed v x'.
Proof.
  unfold scalar. destruct s as [|c t]; [discriminate|].
  destruct (c =? 34)%N eqn:Q.
  { destruct (string_body t) as [[b r]|] eqn:E; [|discriminate].
    intros H. injection H as <- <-. split; [reflexivity|].
    destruct (string_body_local (length t) t b r (le_n _) E) as [a [Ea La]].
    apply N.eqb_eq in Q. subst c.
    exists (34%N :: a). split; [simpl; rewrite Ea; reflexivity|].
    split; [discriminate|]. split; [reflexivity|]. split; [reflexivity|].
    intros x' _. simpl. rewrite (La x'). reflexivity. }
  destruct (startsWith (lit "true") (c :: t)) eqn:T.
  { intros H. injection H as <- <-. split; [reflexivity|].
    exists (lit "true"). split; [apply startsWith_split, T|].
    split; [discriminate|]. split; [reflexivity|]. split; [reflexivity|].
    intros x' _. reflexivity. }
  destruct (startsWith (lit "false") (c :: t)) eqn:F.
  { intros H. injection H as <- <-. split; [reflexivity|].
    exists (lit "false"). split; [apply startsWith_split, F|].
    split; [discriminate|]. split; [reflexivity|]. split; [reflexivity|].
    intros x' _. reflexivity. }
  destruct (startsWith (lit "null") (c :: t)) eqn:Nl.
  { intros H. injection H as <- <-. split; [reflexivity|].
    exists (lit "null"). split; [apply startsWith_split, Nl|].
    split; [discriminate|]. split; [reflexivity|]. split; [reflexivity|].
    intros x' _. reflexivity. }
  destruct (number_literal (c :: t)) as [[n r]|] eqn:E; [|discriminate].
  intros H. injection H as <- <-. split; [reflexivity|].
  destruct (number_literal_local (c :: t) n r E) as [a [Ea [Na [[c' [t' [Ec Hc]]] La]]]].
  subst a. simpl in Ea. injection Ea as <- Et.
  destruct (number_head_not_letter c Hc) as [H1 [H2 [H3 [H4 [H5 H6]]]]].
  exists (c :: t'). split; [simpl; f_equal; exact Et|].
  split; [discriminate|]. split; [exact H5|]. split; [exact H6|].
  intros x' Hx. simpl in Hx. simpl app. cbv beta iota. rewrite Q.
  change (startsWith (lit "true") (c :: t' ++ x'))
    with (N.eqb 116 c && startsWith (lit "rue") (t' ++ x')).
  change (startsWith (lit "false") (c :: t' ++ x'))
    with (N.eqb 102 c && startsWith (lit "alse") (t' ++ x')).
  change (startsWith (lit "null") (c :: t' ++ x'))
    with (N.eqb 110 c && startsWith (lit "ull") (t' ++ x')).
  rewrite H2, H3, H4. simpl andb. cbv iota.
  change (c :: t' ++ x') with ((c :: t') ++ x'). rewrite (La x' Hx). reflexivity.
Qed.

Lemma starts_cons (c : N) (s : jstr) : starts c s = true -> exists t, s = c :: t.
Proof.
  destruct s as [|x t]; [discriminate|]. simpl. intros E.
  apply N.eqb_eq in E. subst x. exists t. reflexivity.
Qed.

(** What [skip_ws] returned starts solid, and so does anything with the
    same first piece. *)
Lemma skip_ws_same (t a rest x' : jstr) :
  skip_ws t = a ++ rest -> a <> [] ->
  skip_ws (a ++ x') = a ++ x' /\
  forall c, starts c (a ++ x') = starts c (a ++ rest).
Proof.
  intros E Na. destruct a as [|c a]; [contradiction|].
  split; [|reflexivity].
  apply skip_ws_head, (skip_ws_solid t c (a ++ rest)), E.
Qed.

Lemma json_value_S (f : nat) (s : jstr) :
  json_value (S f) s =
  let s1 := skip_ws s in
  if starts 91 s1 then
    let s2 := skip_ws (tl s1) in
    if starts 93 s2 then Parsed (VArray []) (tl s2) else elements f s2 []
  else if starts 123 s1 then
    let s2 := skip_ws (tl s1) in
    if starts 125 s2 then Parsed (VObject []) (tl s2) else members f s2 []
  else scalar s1.
Proof. reflexivity. Qed.

Lemma elements_S (f : nat) (s : jstr) (acc : list value) :
  elements (S f) s acc =
  match json_value f s with
  | Parsed v rest =>
      let s1 := skip_ws rest in
      if starts 44 s1 then elements f (tl s1) (acc ++ [v])
      else if starts 93 s1 then Parsed (VArray (acc ++ [v])) (tl s1)
      else Malformed
  | Malformed => Malformed
  | Exhausted => Exhausted
  end.
Proof. reflexivity. Qed.

Lemma members_S (f : nat) (s : jstr) (acc : list (jstr * value)) :
  members (S f) s acc =
  let s1 := skip_ws s in
  if starts 34 s1 then
    match string_body (tl s1) with
    | Some (key, rest) =>
        let s2 := skip_ws rest in
        if starts 58 s2 then
          match json_value f (tl s2) with
          | Parsed v rest' =>
              let s3 := skip_ws rest' in
              if starts 44 s3
              then members f (tl s3) (define_property key v acc)
              else if starts 125 s3
              then Parsed (VObject (define_property key v acc)) (tl s3)
              else Malformed
          | Malformed => Malformed
          | Exhausted => Exhausted
          end
        else Malformed
    | None => Malformed
    end
  else Malformed.
Proof. reflexivity. Qed.

Lemma tail_ok_after (v : value) (w : jstr) (c : N) (p q : jstr) :
  tail_ok v (w ++ c :: p) (w ++ c :: q).
Proof. destruct v; simpl; trivial. destruct w; reflexivity. Qed.

Ltac flat := repeat (progress (rewrite <- ?app_assoc; cbn [app])).

Lemma json_local (f : nat) :
  (forall s v rest,
     json_value f s = Parsed v rest ->
     exists a,
       s = a ++ rest /\
       (is_array v = true ->
        exists w mid, a = w ++ 91%N :: mid ++ [93%N] /\ forallb is_ws w = true) /\
       forall x', tail_ok v x' rest -> json_value f (a ++ x') = Parsed v x') /\
  (forall s acc v rest,
     elements f s acc = Parsed v rest ->
     exists mid,
       s = (mid ++ [93%N]) ++ rest /\
       forall x', elements f ((mid ++ [93%N]) ++ x') acc = Parsed v x') /\
  (forall s acc v rest,
     members f s acc = Parsed v rest ->
     is_array v = false /\
     exists a,
       s = a ++ rest /\ a <> [] /\
       forall x', members f (a ++ x') acc = Parsed v x').
Proof.
  induction f as [|f [IHv [IHe IHm]]];
    [split; [|split]; intros; discriminate|].
  split; [|split].
  - intros s v rest. rewrite json_value_S. cbv zeta.
    destruct (skip_ws_split s) as [w [Es W]].
    destruct (starts 91 (skip_ws s)) eqn:A.
    { destruct (starts_cons _ _ A) as [t1 E1]. rewrite E1 in *. cbn [tl].
      destruct (skip_ws_split t1) as [w2 [E2 W2]].
      destruct (starts 93 (skip_ws t1)) eqn:B.
      - destruct (starts_cons _ _ B) as [t2 E3]. rewrite E3 in *. cbn [tl].
        intros H. injection H as <- <-.
        exists (w ++ 91%N :: w2 ++ [93%N]). split; [|split].
        + rewrite Es at 1. rewrite E2 at 1. flat. reflexivity.
        + intros _. exists w, w2. split; [reflexivity | exact W].
        + intros x' _. rewrite json_value_S. cbv zeta. flat.
          rewrite (skip_ws_prefix w) by exact W.
          rewrite (skip_ws_head 91) by reflexivity. cbn [starts tl N.eqb Pos.eqb].
          rewrite (skip_ws_prefix w2) by exact W2.
          rewrite (skip_ws_head 93) by reflexivity. reflexivity.
      - intros H. destruct (IHe _ _ _ _ H) as [mid [Em Lm]].
        assert (Nm : mid ++ [93%N] <> []) by (destruct mid; discriminate).
        exists (w ++ 91%N :: (w2 ++ mid) ++ [93%N]). split; [|split].
        + rewrite Es at 1. rewrite E2 at 1. rewrite Em. flat. reflexivity.
        + intros _. exists w, (w2 ++ mid). split; [reflexivity | exact W].
        + intros x' _. rewrite json_value_S. cbv zeta. flat.
          rewrite (skip_ws_prefix w) by exact W.
          rewrite (skip_ws_head 91) by reflexivity. cbn [starts tl N.eqb Pos.eqb].
          rewrite (skip_ws_prefix w2) by exact W2.
          destruct (skip_ws_same t1 _ rest x' Em Nm) as [K1 K2].
          rewrite <- app_assoc in K1, K2. cbn [app] in K1, K2.
          rewrite K1, (K2 93%N), <- Em, B.
          specialize (Lm x'). rewrite <- app_assoc in Lm. exact Lm. }
    destruct (starts 123 (skip_ws s)) eqn:C.
    { destruct (starts_cons _ _ C) as [t1 E1]. rewrite E1 in *. cbn [tl].
      destruct (skip_ws_split t1) as [w2 [E2 W2]].
      destruct (starts 125 (skip_ws t1)) eqn:B.
      - destruct (starts_cons _ _ B) as [t2 E3]. rewrite E3 in *. cbn [tl].
        intros H. injection H as <- <-.
        exists (w ++ 123%N :: w2 ++ [125%N]). split; [|split].
        + rewrite Es at 1. rewrite E2 at 1. flat. reflexivity.
        + discriminate.
        + intros x' _. rewrite json_value_S. cbv zeta. flat.
          rewrite (skip_ws_prefix w) by exact W.
          rewrite (skip_ws_head 123) by reflexivity. cbn [starts tl N.eqb Pos.eqb].
          rewrite (skip_ws_prefix w2) by exact W2.
          rewrite (skip_ws_head 125) by reflexivity. reflexivity.
      - intros H. destruct (IHm _ _ _ _ H) as [Nv [a [Em [Na Lm]]]].
        exists (w ++ 123%N :: w2 ++ a). split; [|split].
        + rewrite Es at 1. rewrite E2 at 1. rewrite Em. flat. reflexivity.
        + rewrite Nv. discriminate.
        + intros x' _. rewrite json_value_S. cbv zeta. flat.
          rewrite (skip_ws_prefix w) by exact W.
          rewrite (skip_ws_head 123) by reflexivity. cbn [starts tl N.eqb Pos.eqb].
          rewrite (skip_ws_prefix w2) by exact W2.
          destruct (skip_ws_same t1 _ rest x' Em Na) as [K1 K2].
          rewrite K1, (K2 125%N), <- Em, B. apply Lm. }
    intros H. destruct (scalar_local _ _ _ H) as [Nv [a [Ea [Na [A' [C' La]]]]]].
    exists (w ++ a). split; [|split].
    + rewrite Es at 1. rewrite Ea. flat. reflexivity.
    + rewrite Nv. discriminate.
    + intros x' T. rewrite json_value_S. cbv zeta. flat.
      rewrite (skip_ws_prefix w) by exact W.
      destruct (skip_ws_same s _ rest x' Ea Na) as [K1 K2].
      rewrite K1, (K2 91%N), (K2 123%N), <- Ea, A, C. apply La, T.
  - intros s acc v rest. rewrite elements_S.
    destruct (json_value f s) as [v0 rest0| |] eqn:V; try discriminate.
    destruct (IHv _ _ _ V) as [a0 [E0 [_ L0]]]. cbv zeta.
    destruct (skip_ws_split rest0) as [w1 [E1 W1]].
    destruct (starts 44 (skip_ws rest0)) eqn:A.
    { destruct (starts_cons _ _ A) as [t1 Et]. rewrite Et in *. cbn [tl].
      intros H. destruct (IHe _ _ _ _ H) as [mid [Em Lm]].
      exists (a0 ++ w1 ++ 44%N :: mid). split.
      - rewrite E0, E1, Em. flat. reflexivity.
      - intros x'. rewrite elements_S. flat.
        rewrite (L0 (w1 ++ 44%N :: mid ++ 93%N :: x')).
        2:{ rewrite E1. apply tail_ok_after. }
        cbv zeta. rewrite (skip_ws_prefix w1) by exact W1.
        rewrite (skip_ws_head 44) by reflexivity. cbn [starts tl N.eqb Pos.eqb].
        specialize (Lm x'). rewrite <- app_assoc in Lm. exact Lm. }
    destruct (starts 93 (skip_ws rest0)) eqn:B; [|discriminate].
    destruct (starts_cons _ _ B) as [t1 Et]. rewrite Et in *. cbn [tl].
    intros H. injection H as <- <-.
    exists (a0 ++ w1). split.
    + rewrite E0, E1. flat. reflexivity.
    + intros x'. rewrite elements_S. flat.
      rewrite (L0 (w1 ++ 93%N :: x')).
      2:{ rewrite E1. apply tail_ok_after. }
      cbv zeta. rewrite (skip_ws_prefix w1) by exact W1.
      rewrite (skip_ws_head 93) by reflexivity. reflexivity.
  - intros s acc v rest. rewrite members_S. cbv zeta.
    destruct (skip_ws_split s) as [w [Es W]].
    destruct (starts 34 (skip_ws s)) eqn:Q; [|discriminate].
    destruct (starts_cons _ _ Q) as [t1 E1]. rewrite E1 in *. cbn [tl].
    destruct (string_body t1) as [[key r1]|] eqn:K; [|discriminate].
    destruct (string_body_local _ _ _ _ (le_n _) K) as [ak [Ek Lk]].
    destruct (skip_ws_split r1) as [w2 [E2 W2]].
    destruct (starts 58 (skip_ws r1)) eqn:Cl; [|discriminate].
    destruct (starts_cons _ _ Cl) as [t2 Et2]. rewrite Et2 in *. cbn [tl].
    destruct (json_value f t2) as [v0 rest0| |] eqn:V; try discriminate.
    destruct (IHv _ _ _ V) as [a0 [E0 [_ L0]]].
    destruct (skip_ws_split rest0) as [w3 [E3 W3]].
    destruct (starts 44 (skip_ws rest0)) eqn:A.
    { destruct (starts_cons _ _ A) as [t3 Et3]. rewrite Et3 in *. cbn [tl].
      intros H. destruct (IHm _ _ _ _ H) as [Nv [am [Em [_ Lm]]]].
      split; [exact Nv|].
      exists (w ++ 34%N :: ak ++ w2 ++ 58%N :: a0 ++ w3 ++ 44%N :: am).
      split; [|split].
      - rewrite Es at 1. rewrite Ek at 1. rewrite E2 at 1. rewrite E0 at 1.
        rewrite E3 at 1. rewrite Em. flat. reflexivity.
      - destruct w; discriminate.
      - intros x'. rewrite members_S. cbv zeta. flat.
        rewrite (skip_ws_prefix w) by exact W.
        rewrite (skip_ws_head 34) by reflexivity. cbn [starts tl N.eqb Pos.eqb].
        rewrite Lk. rewrite (skip_ws_prefix w2) by exact W2.
        rewrite (skip_ws_head 58) by reflexivity. cbn [starts tl N.eqb Pos.eqb].
        rewrite (L0 (w3 ++ 44%N :: am ++ x')).
        2:{ rewrite E3. apply tail_ok_after. }
        rewrite (skip_ws_prefix w3) by exact W3.
        rewrite (skip_ws_head 44) by reflexivity. cbn [starts tl N.eqb Pos.eqb].
        apply Lm. }
    destruct (starts 125 (skip_ws rest0)) eqn:B; [|discriminate].
    destruct (starts_cons _ _ B) as [t3 Et3]. rewrite Et3 in *. cbn [tl].
    intros H. injection H as <- <-. split; [reflexivity|].
    exists (w ++ 34%N :: ak ++ w2 ++ 58%N :: a0 ++ w3 ++ [125%N]).
    split; [|split].
    + rewrite Es at 1. rewrite Ek at 1. rewrite E2 at 1. rewrite E0 at 1.
      rewrite E3 at 1. flat. reflexivity.
    + destruct w; discriminate.
    + intros x'. rewrite members_S. cbv zeta. flat.
      rewrite (skip_ws_prefix w) by exact W.
      rewrite (skip_ws_head 34) by reflexivity. cbn [starts tl N.eqb Pos.eqb].
      rewrite Lk. rewrite (skip_ws_prefix w2) by exact W2.
      rewrite (skip_ws_head 58) by reflexivity. cbn [starts tl N.eqb Pos.eqb].
      rewrite (L0 (w3 ++ 125%N :: x')).
      2:{ rewrite E3. apply tail_ok_after. }
      rewrite (skip_ws_prefix w3) by exact W3.
      rewrite (skip_ws_head 125) by reflexivity. reflexivity.
Qed.

(** More fuel changes no answer that was reached. *)
Lemma fuel_step (f : nat) :
  (forall s, json_value f s <> Exhausted -> json_value (S f) s = json_value f s) /\
  (forall s acc, elements f s acc <> Exhausted ->
                 elements (S f) s acc = elements f s acc) /\
  (forall s acc, members f s acc <> Exhausted ->
                 members (S f) s acc = members f s acc).
Proof.
  induction f as [|f [IHv [IHe IHm]]];
    [split; [|split]; intros; exfalso; auto|].
  split; [|split].
  - intros s. rewrite (json_value_S (S f)), (json_value_S f). cbv zeta.
    destruct (starts 91 (skip_ws s)).
    { destruct (starts 93 _); [reflexivity | apply IHe]. }
    destruct (starts 123 (skip_ws s)); [|reflexivity].
    destruct (starts 125 _); [reflexivity | apply IHm].
  - intros s acc. rewrite (elements_S (S f)), (elements_S f).
    destruct (json_value f s) as [v rest| |] eqn:V.
    + rewrite IHv, V by (rewrite V; discriminate). cbv zeta.
      destruct (starts 44 _); [apply IHe | reflexivity].
    + rewrite IHv, V by (rewrite V; discriminate). reflexivity.
    + intros H. exfalso. auto.
  - intros s acc. rewrite (members_S (S f)), (members_S f). cbv zeta.
    destruct (starts 34 _); [|reflexivity].
    destruct (string_body _) as [[key rest]|]; [|reflexivity].
    destruct (starts 58 _); [|reflexivity].
    destruct (json_value f _) as [v rest'| |] eqn:V.
    + rewrite IHv, V by (rewrite V; discriminate).
      destruct (starts 44 _); [apply IHm | reflexivity].
    + rewrite IHv, V by (rewrite V; discriminate). reflexivity.
    + intros H. exfalso. auto.
Qed.

Lemma fuel_more (f f' : nat) (s : jstr) :
  f <= f' -> json_value f s <> Exhausted -> json_value f' s = json_value f s.
Proof.
  intros L H. induction L as [|g L IH]; [reflexivity|].
  rewrite <- IH. apply fuel_step. rewrite IH. exact H.
Qed.

Lemma json_value_ws (f : nat) (w s : jstr) :
  forallb is_ws w = true -> json_value f (w ++ s) = json_value f s.
Proof.
  intros W. destruct f; [reflexivity|].
  rewrite !json_value_S. cbv zeta. rewrite (skip_ws_prefix w s W). reflexivity.
Qed.

Lemma is_ws_white_space (c : N) : is_ws c = true -> is_white_space c = true.
Proof.
  unfold is_ws. intros H.
  repeat (apply orb_true_iff in H; destruct H as [H|H]);
    apply N.eqb_eq in H; subst c; reflexivity.
Qed.

Lemma ws_blank (w : jstr) : forallb is_ws w = true -> blank w = true.
Proof.
  induction w as [|c w IH]; simpl; [reflexivity|]. intros H.
  apply andb_true_iff in H. destruct H as [C W].
  rewrite (is_ws_white_space c C). apply IH, W.
Qed.

(** An array between white space: [trim] leaves exactly the array. *)
Lemma trim_array (w mid w' : jstr) :
  forallb is_ws w = true -> forallb is_ws w' = true ->
  trim ((w ++ 91%N :: mid ++ [93%N]) ++ w') = 91%N :: mid ++ [93%N].
Proof.
  intros W W'. unfold trim. flat.
  rewrite (trimStart_blank_prefix w 91 _ (ws_blank w W) eq_refl).
  change (91%N :: mid ++ 93%N :: w') with ((91%N :: mid) ++ [93%N] ++ w').
  assert (E : trimEnd ([93%N] ++ w') = [93%N]).
  { cbn [app]. simpl. destruct (trimEnd w') eqn:T; [reflexivity|].
    assert (B : blank w' = true) by apply ws_blank, W'.
    apply trimEnd_nil in B. congruence. }
  rewrite trimEnd_app_solid; rewrite E; [reflexivity | discriminate].
Qed.

Lemma text_trim (s : jstr) (items : list value) (r : jstr) :
  text s = Parsed (VArray items) r -> text (trim s) = Parsed (VArray items) [].
Proof.
  unfold text at 1.
  destruct (json_value (2 * length s + 2) s) as [v rest| |] eqn:V; try discriminate.
  destruct (skip_ws_split rest) as [w' [E' W']].
  destruct (skip_ws rest); [|discriminate].
  intros H. injection H as -> <-. rewrite app_nil_r in E'. subst w'.
  destruct (proj1 (json_local _) _ _ _ V) as [a [Ea [Sh La]]].
  destruct (Sh eq_refl) as [w [mid [Em W]]]. subst a.
  assert (T : trim s = 91%N :: mid ++ [93%N]).
  { rewrite Ea. apply trim_array; assumption. }
  specialize (La [] I). rewrite app_nil_r, (json_value_ws _ w _ W), <- T in La.
  assert (Ls : length (trim s) <= length s).
  { unfold trim. pose proof (trimEnd_length (trimStart s)).
    pose proof (trimStart_length s). lia. }
  assert (Ne : json_value (2 * length (trim s) + 2) (trim s) <> Exhausted).
  { apply (proj1 (proj1 (JsonFacts.fuel_adequate _) (trim s))). lia. }
  unfold text.
  rewrite <- (fuel_more (2 * length (trim s) + 2) (2 * length s + 2) (trim s)
                        ltac:(lia) Ne), La.
  reflexivity.
Qed.
End JsonLocality.

Section TrimmedHistory.
Variable syntaxErrorMessage : jstr -> jstr.
Variable typeErrorMessage : jstr.
Variable JSON_stringify : value -> nat -> jstr.
Variable today : jstr.

Local Abbreviation validate :=
  (validateConversationJson syntaxErrorMessage typeErrorMessage).
Local Abbreviation parse := (JSON_parse syntaxErrorMessage).
Local Abbreviation historyOf f := (conversationHistory (SaveForm.editor f)).
Local Abbreviation errorOf f := (conversationFormatError (SaveForm.editor f)).
Local Abbreviation run_steps :=
  (steps syntaxErrorMessage typeErrorMessage JSON_stringify today).

Lemma validate_trimmed (raw : jstr) :
  validate raw = Return [] -> validate (trim raw) = Return [].
Proof.
  intros H. destruct (blank raw) eqn:B.
  { apply validate_blank. rewrite blank_trim. exact B. }
  destruct (parse_cases syntaxErrorMessage raw) as [[v [P T]] | [P _]].
  - rewrite (validate_parsed _ _ raw v B P) in H.
    destruct v; try (injection H as H; destruct (arrayMessage_nonempty H)).
    apply JsonLocality.text_trim in T.
    rewrite (validate_parsed _ _ (trim raw) (VArray items)); [exact H | |].
    + rewrite blank_trim. exact B.
    + unfold JSON_parse. rewrite T. reflexivity.
  - rewrite (validate_thrown _ _ raw _ B P) in H. injection H as H.
    destruct (error_text_nonempty (SyntaxError (syntaxErrorMessage raw)) H).
Qed.

(** X18. A history that [validateConversationJson] accepts is still
    accepted after [trim]: white space around the text of the array plays
    no part in the verdict. *)
Theorem validate_accepts_trimmed (raw : jstr) :
  validate raw = Return [] -> validate (trim raw) = Return [].
Proof. exact (validate_trimmed raw). Qed.

(** X19. The history carried by a save of the user type, after any
    sequence of events, is itself accepted by [validateConversationJson]:
    what the parent receives passes the check that the dialog showed. *)
Theorem saved_history_revalidates (events : list event) (p : props)
        (data : SaveData.t) :
  handleSave p (run_steps events SaveForm.initial) = Some (EmitSave data) ->
  SaveData.promptType data = lit "user" ->
  validate (SaveData.conversationHistory data) = Return [].
Proof.
  pose proof (steps_sync syntaxErrorMessage typeErrorMessage JSON_stringify today
                         events SaveForm.initial
                         (initial_synced syntaxErrorMessage typeErrorMessage)) as St.
  set (f := run_steps events SaveForm.initial) in *.
  unfold handleSave. intros H U.
  destruct (negb (truthy_str (trim (SaveForm.title f)))); [discriminate|].
  destruct (negb (truthy_str (promptContent p))
            && negb (truthy_str (trim (SaveForm.content f)))); [discriminate|].
  destruct (jstr_eqb (SaveForm.promptType f) (lit "user")) eqn:T.
  - destruct (truthy_str (errorOf f)) eqn:E; [discriminate|].
    injection H as <-. simpl. apply validate_trimmed.
    unfold in_sync in St. rewrite T in St.
    apply truthy_str_false in E. rewrite E in St. exact St.
  - simpl in H. injection H as <-. simpl in U.
    rewrite U, jstr_eqb_refl in T. discriminate.
Qed.

End TrimmedHistory.

Lemma validate_accepts_trimmed_witness :
  validateConversationJson (fun _ => lit "Unexpected token") (lit "Cannot read properties")
    (trim (json "  [ {'role':'user','content':'hi'} , {'role':'assistant','content':'1e2'} ]  "))
  = Return [].
Proof.
  apply (validate_accepts_trimmed
           (fun _ => lit "Unexpected token") (lit "Cannot read properties")
           (json "  [ {'role':'user','content':'hi'} , {'role':'assistant','content':'1e2'} ]  ")).
  vm_compute. reflexivity.
Defined.

Lemma saved_history_revalidates_witness :
  validateConversationJson (fun _ => lit "Unexpected token") (lit "Cannot read properties")
    (SaveData.conversationHistory
       (SaveData.Make (lit "Greeting") [] [] false (lit "user") [] []
                      (json "[{'role':'user','content':'hi'}]")))
  = Return [].
Proof.
  apply (saved_history_revalidates
           (fun _ => lit "Unexpected token") (lit "Cannot read properties")
           (fun _ _ => lit "[]") (lit "2026/11/2")
           [InputTitle (lit "Greeting"); ChoosePromptType (lit "user");
            InputConversationHistory (json " [{'role':'user','content':'hi'}] ")]
           (Props true (lit "Say hi") false None)
           (SaveData.Make (lit "Greeting") [] [] false (lit "user") [] []
                          (json "[{'role':'user','content':'hi'}]"))
           ltac:(vm_compute; reflexivity) eq_refl).
Defined.
